(** * ALN intent protocol: shape validator, envelope validator, envelope
    factory and planning kernel

    A shallow embedding of [src/protocol/ALNSpec.js] and
    [src/core/ALNKernel.js], and of what stands beside them: the capability
    registry, the engine manifest and the virtual-object excavator.
    JavaScript values are an inductive type, a call that may raise returns
    a [Result], and what the engine contributes (the clock, the decimal
    rendering of numbers, calls of function objects, [JSON.stringify]) is
    gathered in a [Host] record that every operation depending on it takes
    as its first argument. *)

From Stdlib Require Import String Ascii List ZArith Bool Lia Floats.
From Stdlib Require Import DecimalString.
From Stdlib Require QArith Qround Qabs.
Import ListNotations.

Open Scope list_scope.
Open Scope string_scope.

Set Warnings "-register-all".

(** ** Completions: a call returns or raises *)

Inductive JsError : Type :=
| TypeError (msg : string)
| Error (msg : string).

Inductive Result (A : Type) : Type :=
| Ok (a : A)
| Throw (e : JsError).

Arguments Ok {A} a.
Arguments Throw {A} e.

Definition bind {A B : Type} (r : Result A) (k : A -> Result B) : Result B :=
  match r with
  | Ok a => k a
  | Throw e => Throw e
  end.

Notation "x <- r ;; k" := (bind r (fun x => k))
  (at level 61, r at next level, right associativity).

Definition returns {A : Type} (r : Result A) : Prop := exists a, r = Ok a.

(** A [for (const x of xs) body] loop over an accumulator: the first
    iteration that raises ends the loop. *)
Fixpoint for_of {A S : Type} (xs : list A) (body : A -> S -> Result S) (s : S)
  : Result S :=
  match xs with
  | [] => Ok s
  | x :: rest => s' <- body x s ;; for_of rest body s'
  end.

(** ** Values

    Strings are sequences of code units, here restricted to the code units
    below 256; numbers are IEEE 754 binary64.  An object is the list of its
    own enumerable string-keyed data properties in property order, on the
    prototype [Object.prototype]; a function object is opaque and carries
    the text [String] renders it as. *)

Inductive JsValue : Type :=
| JUndefined
| JNull
| JBool (b : bool)
| JNum (x : float)
| JBigInt (z : Z)
| JStr (s : string)
| JSymbol (description : string)
| JFun (source : string)
| JArr (items : list JsValue)
| JObj (props : list (string * JsValue)).

Definition Props : Type := list (string * JsValue).

(** What the engine and the embedding program contribute. *)
Record Host : Type := {
  (** [Number::toString] in radix 10, on the finite numbers *)
  numberToString : float -> string;
  (** [f.call(thisArg)] for a function object [f] *)
  callFunction : JsValue -> JsValue -> Result JsValue;
  (** [JSON.stringify(value)] *)
  JSON_stringify : JsValue -> Result JsValue;
  (** [Date.now()] *)
  Date_now : float;
  (** [new Date().toISOString()] *)
  Date_toISOString : string
}.

(** The double quote, as a one-character string. *)
Definition dq : string := String (ascii_of_nat 34) EmptyString.

Definition typeof (v : JsValue) : string :=
  match v with
  | JUndefined => "undefined"
  | JNull => "object"
  | JBool _ => "boolean"
  | JNum _ => "number"
  | JBigInt _ => "bigint"
  | JStr _ => "string"
  | JSymbol _ => "symbol"
  | JFun _ => "function"
  | JArr _ => "object"
  | JObj _ => "object"
  end.

Definition Array_isArray (v : JsValue) : bool :=
  match v with
  | JArr _ => true
  | _ => false
  end.

Definition Number_isFinite (v : JsValue) : bool :=
  match v with
  | JNum x => is_finite x
  | _ => false
  end.

Definition is_null (v : JsValue) : bool :=
  match v with
  | JNull => true
  | _ => false
  end.

Definition is_primitive (v : JsValue) : bool :=
  match v with
  | JFun _ | JArr _ | JObj _ => false
  | _ => true
  end.

(** [ToBoolean]: the truthiness [!x], [x || y] and [x ? a : b] test. *)
Definition ToBoolean (v : JsValue) : bool :=
  match v with
  | JUndefined | JNull => false
  | JBool b => b
  | JNum x => negb (is_nan x || is_zero x)
  | JBigInt z => negb (Z.eqb z 0)
  | JStr s => negb (String.eqb s EmptyString)
  | JSymbol _ | JFun _ | JArr _ | JObj _ => true
  end.

(** [x || y] on values. *)
Definition or_else (x y : JsValue) : JsValue := if ToBoolean x then x else y.

(** [x || {}] *)
Definition or_empty (x : JsValue) : JsValue := or_else x (JObj []).

(** A parameter declared [x = {}]: the default stands in for [undefined]. *)
Definition default_empty (x : JsValue) : JsValue :=
  match x with
  | JUndefined => JObj []
  | _ => x
  end.

(** *** Own and inherited properties of plain objects *)

Fixpoint own (props : Props) (key : string) : option JsValue :=
  match props with
  | [] => None
  | (k, v) :: rest => if String.eqb k key then Some v else own rest key
  end.

Definition keys (props : Props) : list string := map fst props.

Fixpoint mem (key : string) (l : list string) : bool :=
  match l with
  | [] => false
  | k :: rest => String.eqb k key || mem key rest
  end.

(** The members of [Object.prototype]: every plain object has them through
    its prototype.  All are functions except the accessor [__proto__]. *)
Definition ObjectPrototype_methods : list string :=
  [ "constructor"; "__defineGetter__"; "__defineSetter__"; "hasOwnProperty";
    "__lookupGetter__"; "__lookupSetter__"; "isPrototypeOf";
    "propertyIsEnumerable"; "toString"; "valueOf"; "toLocaleString" ].

(** A built-in function object; [constructor] is the function [Object]. *)
Definition native (key : string) : JsValue :=
  JFun ("function "
        ++ (if String.eqb key "constructor" then "Object" else key)
        ++ "() { [native code] }").

(** [Object.prototype] as a value: an object with no enumerable property. *)
Definition ObjectPrototype : JsValue := JObj [].

(** [key in o] for the plain object with own properties [props]. *)
Definition HasProperty (props : Props) (key : string) : bool :=
  match own props key with
  | Some _ => true
  | None => String.eqb key "__proto__" || mem key ObjectPrototype_methods
  end.

(** [o[key]] for the plain object with own properties [props]. *)
Definition Get (props : Props) (key : string) : JsValue :=
  match own props key with
  | Some v => v
  | None =>
      if String.eqb key "__proto__" then ObjectPrototype
      else if mem key ObjectPrototype_methods then native key
      else JUndefined
  end.

(** *** Conversion to string *)

Definition Z_to_string (z : Z) : string := NilZero.string_of_int (Z.to_int z).

(** [ToString] on the primitive values. *)
Definition ToString_primitive (h : Host) (v : JsValue) : Result string :=
  match v with
  | JUndefined => Ok "undefined"
  | JNull => Ok "null"
  | JBool b => Ok (if b then "true" else "false")
  | JNum x =>
      if is_nan x then Ok "NaN"
      else if is_infinity x then
        Ok (if PrimFloat.ltb x zero then "-Infinity" else "Infinity")
      else Ok (numberToString h x)
  | JBigInt z => Ok (Z_to_string z)
  | JStr s => Ok s
  | JSymbol _ => Throw (TypeError "Cannot convert a Symbol value to a string")
  | JFun _ | JArr _ | JObj _ =>
      Throw (TypeError "Cannot convert object to primitive value")
  end.

(** [OrdinaryToPrimitive(o, string)] on a plain object: its [toString], then
    its [valueOf]; the inherited [toString] answers ["[object Object]"] and
    the inherited [valueOf] answers the object itself. *)
Definition valueOf_step (h : Host) (o : JsValue) (props : Props)
  : Result string :=
  match own props "valueOf" with
  | Some (JFun g) =>
      r <- callFunction h (JFun g) o ;;
      if is_primitive r then ToString_primitive h r
      else Throw (TypeError "Cannot convert object to primitive value")
  | _ => Throw (TypeError "Cannot convert object to primitive value")
  end.

Definition object_ToString (h : Host) (props : Props) : Result string :=
  let o := JObj props in
  match own props "toString" with
  | None => Ok "[object Object]"
  | Some (JFun f) =>
      r <- callFunction h (JFun f) o ;;
      if is_primitive r then ToString_primitive h r
      else valueOf_step h o props
  | Some _ => valueOf_step h o props
  end.

(** [ToString]: what a template literal and [Array.prototype.join] apply. *)
Fixpoint ToString (h : Host) (v : JsValue) : Result string :=
  match v with
  | JFun source => Ok source
  | JArr items =>
      (fix join (l : list JsValue) : Result string :=
         match l with
         | [] => Ok EmptyString
         | x :: rest =>
             sx <- match x with
                   | JUndefined | JNull => Ok EmptyString
                   | _ => ToString h x
                   end ;;
             match rest with
             | [] => Ok sx
             | _ => sr <- join rest ;; Ok (sx ++ "," ++ sr)
             end
         end) items
  | JObj props => object_ToString h props
  | _ => ToString_primitive h v
  end.

(** [String(value)]: as [ToString], except that a symbol is described. *)
Definition String_ (h : Host) (v : JsValue) : Result string :=
  match v with
  | JSymbol d => Ok ("Symbol(" ++ d ++ ")")
  | _ => ToString h v
  end.

(** *** Own enumerable properties: [Object.entries], [Object.keys], spread *)

Definition index_key (i : nat) : string :=
  NilZero.string_of_uint (Nat.to_uint i).

Fixpoint indexed {A : Type} (i : nat) (f : A -> JsValue) (l : list A) : Props :=
  match l with
  | [] => []
  | x :: rest => (index_key i, f x) :: indexed (S i) f rest
  end.

(** The own enumerable string-keyed properties of a value taken as an object:
    the elements of an array and the code units of a string under their
    indices, nothing for the other primitives and for a function. *)
Definition own_enumerable (v : JsValue) : Props :=
  match v with
  | JObj props => props
  | JArr items => indexed 0 (fun x => x) items
  | JStr s =>
      indexed 0 (fun c => JStr (String c EmptyString)) (list_ascii_of_string s)
  | _ => []
  end.

Definition Object_entries (v : JsValue) : Result Props :=
  match v with
  | JUndefined | JNull =>
      Throw (TypeError "Cannot convert undefined or null to object")
  | _ => Ok (own_enumerable v)
  end.

Definition Object_keys (v : JsValue) : Result (list string) :=
  entries <- Object_entries v ;; Ok (keys entries).

(** ** src/protocol/ALNSpec.js *)

Module ALNPrimitives.
Definition STRING : string := "aln::string".
Definition NUMBER : string := "aln::number".
Definition BOOLEAN : string := "aln::boolean".
Definition OBJECT : string := "aln::object".
Definition ARRAY : string := "aln::array".
Definition VIRTUAL_OBJECT : string := "aln::virtual_object".
Definition INTENT : string := "aln::intent".
Definition PLAN : string := "aln::plan".
Definition SIGNAL : string := "aln::signal".
End ALNPrimitives.

Module ALNMessageKinds.
Definition INTENT_REQUEST : string := "aln::intent_request".
Definition INTENT_PLAN : string := "aln::intent_plan".
Definition EXECUTION_RESULT : string := "aln::execution_result".
Definition ERROR : string := "aln::error".
Definition HEARTBEAT : string := "aln::heartbeat".
Definition SPEC_QUERY : string := "aln::spec_query".
Definition SPEC_RESPONSE : string := "aln::spec_response".
End ALNMessageKinds.

(** [x === s] for a string constant [s]. *)
Definition is_string (x : JsValue) (s : string) : bool :=
  match x with
  | JStr t => String.eqb t s
  | _ => false
  end.

(** [primitiveLabel]: the label of a known tag, the argument itself
    otherwise. *)
Definition primitiveLabel (primitive : JsValue) : JsValue :=
  if is_string primitive ALNPrimitives.STRING then JStr "string"
  else if is_string primitive ALNPrimitives.NUMBER then JStr "number"
  else if is_string primitive ALNPrimitives.BOOLEAN then JStr "boolean"
  else if is_string primitive ALNPrimitives.OBJECT then JStr "object"
  else if is_string primitive ALNPrimitives.ARRAY then JStr "array"
  else if is_string primitive ALNPrimitives.VIRTUAL_OBJECT
  then JStr "virtual_object"
  else if is_string primitive ALNPrimitives.INTENT then JStr "intent"
  else if is_string primitive ALNPrimitives.PLAN then JStr "plan"
  else if is_string primitive ALNPrimitives.SIGNAL then JStr "signal"
  else primitive.

(** The result [{valid, error?}] of [validatePrimitive]. *)
Module Primitive.
Record result : Type := { valid : bool; error : option string }.
Definition accept : result := {| valid := true; error := None |}.
Definition reject (msg : string) : result :=
  {| valid := false; error := Some msg |}.
End Primitive.

Definition validatePrimitive (h : Host) (value primitive : JsValue)
  : Result Primitive.result :=
  if is_string primitive ALNPrimitives.STRING then
    let ok := String.eqb (typeof value) "string" in
    Ok (if ok then Primitive.accept
        else Primitive.reject
               ("Expected string for " ++ ALNPrimitives.STRING ++ ", got "
                ++ typeof value))
  else if is_string primitive ALNPrimitives.NUMBER then
    let ok := String.eqb (typeof value) "number" && Number_isFinite value in
    if ok then Ok Primitive.accept
    else
      shown <- String_ h value ;;
      Ok (Primitive.reject
            ("Expected finite number for " ++ ALNPrimitives.NUMBER ++ ", got "
             ++ shown))
  else if is_string primitive ALNPrimitives.BOOLEAN then
    let ok := String.eqb (typeof value) "boolean" in
    Ok (if ok then Primitive.accept
        else Primitive.reject
               ("Expected boolean for " ++ ALNPrimitives.BOOLEAN ++ ", got "
                ++ typeof value))
  else if is_string primitive ALNPrimitives.OBJECT then
    let ok := String.eqb (typeof value) "object" && negb (is_null value)
              && negb (Array_isArray value) in
    Ok (if ok then Primitive.accept
        else Primitive.reject
               ("Expected object for " ++ ALNPrimitives.OBJECT ++ ", got "
                ++ (if Array_isArray value then "array" else typeof value)))
  else if is_string primitive ALNPrimitives.ARRAY then
    let ok := Array_isArray value in
    Ok (if ok then Primitive.accept
        else Primitive.reject
               ("Expected array for " ++ ALNPrimitives.ARRAY ++ ", got "
                ++ typeof value))
  else if is_string primitive ALNPrimitives.VIRTUAL_OBJECT
          || is_string primitive ALNPrimitives.INTENT
          || is_string primitive ALNPrimitives.PLAN
          || is_string primitive ALNPrimitives.SIGNAL then
    (* here [primitive] is one of the four tags, a string *)
    tag <- ToString h primitive ;;
    let ok := String.eqb (typeof value) "object" && negb (is_null value) in
    Ok (if ok then Primitive.accept
        else Primitive.reject
               ("Expected structured object for " ++ tag ++ ", got "
                ++ typeof value))
  else
    tag <- ToString h primitive ;;
    Ok (Primitive.reject ("Unknown primitive type: " ++ tag)).

(** The result [{valid, errors}] of the shape and envelope validators. *)
Record Validation : Type := { valid : bool; errors : list string }.

Definition report (errors : list string) : Validation :=
  {| valid := Nat.eqb (List.length errors) 0; errors := errors |}.

(** [errors.push(msg)] *)
Definition push (errors : list string) (msg : string) : list string :=
  (errors ++ [msg])%list.

(** The body of the loop over [Object.entries(shape)]. *)
Definition check_field (h : Host) (payload : Props)
  (entry : string * JsValue) (errors : list string) : Result (list string) :=
  let (field, primitive) := entry in
  if negb (HasProperty payload field) then
    label <- ToString h (primitiveLabel primitive) ;;
    Ok (push errors
          ("Missing required field " ++ dq ++ field ++ dq ++ " (expected "
           ++ label ++ ")"))
  else
    result <- validatePrimitive h (Get payload field) primitive ;;
    if negb (Primitive.valid result) then
      Ok (push errors
            ("Field " ++ dq ++ field ++ dq ++ " invalid: "
             ++ match Primitive.error result with
                | Some msg => msg
                | None => "undefined"
                end))
    else Ok errors.

(** The body of the loop over [Object.keys(payload)]. *)
Definition check_key (allowedFields : list string)
  (key : string) (errors : list string) : Result (list string) :=
  if negb (mem key allowedFields) then
    Ok (push errors
          ("Unexpected field " ++ dq ++ key ++ dq ++ " not defined in shape"))
  else Ok errors.

(** The own properties of a value known to be a plain object. *)
Definition plain_props (v : JsValue) : Props :=
  match v with
  | JObj props => props
  | _ => []
  end.

(** [typeof v !== "object" || v === null || Array.isArray(v)] *)
Definition not_plain_object (v : JsValue) : bool :=
  negb (String.eqb (typeof v) "object") || is_null v || Array_isArray v.

Definition validateShape (h : Host) (payload shape : JsValue)
  (allowExtraKeys : bool) : Result Validation :=
  if not_plain_object payload then
    Ok {| valid := false;
          errors := [ "Payload must be an object, got "
                      ++ (if Array_isArray payload then "array"
                          else typeof payload) ] |}
  else
    entries <- Object_entries shape ;;
    errors <- for_of entries (check_field h (plain_props payload)) [] ;;
    errors <-
      (if negb allowExtraKeys then
         allowedFields <- Object_keys shape ;;
         payloadKeys <- Object_keys payload ;;
         for_of payloadKeys (check_key allowedFields) errors
       else Ok errors) ;;
    Ok (report errors).

(** *** The intent registry [ALNSpec.intents] *)

Record IntentSpec : Type := {
  description : string;
  inputShape : Props;
  outputShape : Props
}.

Definition ALNSpec_intents : list (string * IntentSpec) :=
  [ ("aln::define_virtual_object",
     {| description :=
          "Define or update a virtual-object in the global registry.";
        inputShape :=
          [ ("name", JStr ALNPrimitives.STRING);
            ("description", JStr ALNPrimitives.STRING);
            ("schema", JStr ALNPrimitives.OBJECT);
            ("tags", JStr ALNPrimitives.ARRAY) ];
        outputShape :=
          [ ("id", JStr ALNPrimitives.STRING);
            ("name", JStr ALNPrimitives.STRING) ] |});
    ("aln::plan_repository",
     {| description :=
          "Create a repository plan including files, workflows, and policies.";
        inputShape :=
          [ ("description", JStr ALNPrimitives.STRING);
            ("constraints", JStr ALNPrimitives.OBJECT) ];
        outputShape :=
          [ ("planId", JStr ALNPrimitives.STRING);
            ("files", JStr ALNPrimitives.ARRAY);
            ("workflows", JStr ALNPrimitives.ARRAY) ] |});
    ("aln::interop_python",
     {| description :=
          "Request a Python operation compatible with ML systems and notebooks.";
        inputShape :=
          [ ("sessionId", JStr ALNPrimitives.STRING);
            ("code", JStr ALNPrimitives.STRING);
            ("ioContract", JStr ALNPrimitives.OBJECT) ];
        outputShape :=
          [ ("sessionId", JStr ALNPrimitives.STRING);
            ("stdout", JStr ALNPrimitives.STRING);
            ("stderr", JStr ALNPrimitives.STRING) ] |}) ].

(** What [ALNSpec.intents[name]] evaluates to: a registered specification, a
    member the registry object inherits from [Object.prototype], or
    [undefined]. *)
Inductive IntentEntry : Type :=
| Registered (spec : IntentSpec)
| Inherited
| Missing.

Fixpoint find_intent (l : list (string * IntentSpec)) (name : string)
  : option IntentSpec :=
  match l with
  | [] => None
  | (k, spec) :: rest =>
      if String.eqb k name then Some spec else find_intent rest name
  end.

Definition ALNSpec_intents_get (name : string) : IntentEntry :=
  match find_intent ALNSpec_intents name with
  | Some spec => Registered spec
  | None =>
      if String.eqb name "__proto__" || mem name ObjectPrototype_methods
      then Inherited
      else Missing
  end.

(** [!intent] is false on a specification and on an inherited member. *)
Definition entry_present (e : IntentEntry) : bool :=
  match e with
  | Missing => false
  | _ => true
  end.

(** [intent.inputShape] and [intent.outputShape]: an inherited member has
    neither. *)
Definition entry_inputShape (e : IntentEntry) : JsValue :=
  match e with
  | Registered spec => JObj (inputShape spec)
  | _ => JUndefined
  end.

Definition entry_outputShape (e : IntentEntry) : JsValue :=
  match e with
  | Registered spec => JObj (outputShape spec)
  | _ => JUndefined
  end.

(** [ToPropertyKey]: what [o[x]] applies to [x].  A symbol is a key as it
    stands; any other value is a key through its conversion to a string, an
    object through [toString] and then [valueOf], whose answer may itself be
    a symbol. *)
Inductive PropertyKey : Type :=
| StringKey (name : string)
| SymbolKey (description : string).

Definition key_of_primitive (h : Host) (v : JsValue) : Result PropertyKey :=
  match v with
  | JSymbol d => Ok (SymbolKey d)
  | _ => name <- ToString_primitive h v ;; Ok (StringKey name)
  end.

Definition valueOf_key (h : Host) (o : JsValue) (props : Props)
  : Result PropertyKey :=
  match own props "valueOf" with
  | Some (JFun g) =>
      r <- callFunction h (JFun g) o ;;
      if is_primitive r then key_of_primitive h r
      else Throw (TypeError "Cannot convert object to primitive value")
  | _ => Throw (TypeError "Cannot convert object to primitive value")
  end.

Definition object_ToPropertyKey (h : Host) (props : Props)
  : Result PropertyKey :=
  let o := JObj props in
  match own props "toString" with
  | None => Ok (StringKey "[object Object]")
  | Some (JFun f) =>
      r <- callFunction h (JFun f) o ;;
      if is_primitive r then key_of_primitive h r
      else valueOf_key h o props
  | Some _ => valueOf_key h o props
  end.

Definition ToPropertyKey (h : Host) (v : JsValue) : Result PropertyKey :=
  match v with
  | JSymbol d => Ok (SymbolKey d)
  | JObj props => object_ToPropertyKey h props
  | _ => name <- ToString h v ;; Ok (StringKey name)
  end.

(** [ALNSpec.intents[key]]: neither the registry nor [Object.prototype] has
    a member under a symbol. *)
Definition ALNSpec_intents_at (key : PropertyKey) : IntentEntry :=
  match key with
  | StringKey name => ALNSpec_intents_get name
  | SymbolKey _ => Missing
  end.

(** [intentName] is whatever the caller passes: the registry is read at the
    key it converts to, and the message renders it as a template literal
    does. *)
Definition validateIntentInput (h : Host) (intentName : JsValue)
  (inputPayload : JsValue) (allowExtraKeys : bool) : Result Validation :=
  key <- ToPropertyKey h intentName ;;
  let intent := ALNSpec_intents_at key in
  if negb (entry_present intent) then
    shown <- ToString h intentName ;;
    Ok {| valid := false;
          errors := [ "Unknown intent " ++ dq ++ shown ++ dq ] |}
  else validateShape h inputPayload (entry_inputShape intent) allowExtraKeys.

Definition validateIntentOutput (h : Host) (intentName : JsValue)
  (outputPayload : JsValue) (allowExtraKeys : bool) : Result Validation :=
  key <- ToPropertyKey h intentName ;;
  let intent := ALNSpec_intents_at key in
  if negb (entry_present intent) then
    shown <- ToString h intentName ;;
    Ok {| valid := false;
          errors := [ "Unknown intent " ++ dq ++ shown ++ dq ] |}
  else validateShape h outputPayload (entry_outputShape intent) allowExtraKeys.

(** *** The envelope validator *)

(** [Array.prototype.join] on strings. *)
Fixpoint join (sep : string) (l : list string) : string :=
  match l with
  | [] => EmptyString
  | [x] => x
  | x :: rest => x ++ sep ++ join sep rest
  end.

Definition allowedKinds : list string :=
  [ ALNMessageKinds.INTENT_REQUEST; ALNMessageKinds.INTENT_PLAN;
    ALNMessageKinds.EXECUTION_RESULT; ALNMessageKinds.ERROR;
    ALNMessageKinds.HEARTBEAT; ALNMessageKinds.SPEC_QUERY;
    ALNMessageKinds.SPEC_RESPONSE ].

Definition intentKinds : list string :=
  [ ALNMessageKinds.INTENT_REQUEST; ALNMessageKinds.INTENT_PLAN;
    ALNMessageKinds.EXECUTION_RESULT ].

(** [set.has(x)] for a set of strings. *)
Definition has (set : list string) (x : JsValue) : bool :=
  match x with
  | JStr s => mem s set
  | _ => false
  end.

(** [typeof x !== "string" || x.length === 0] *)
Definition not_nonempty_string (x : JsValue) : bool :=
  negb (String.eqb (typeof x) "string") || is_string x EmptyString.

(** The text of a value known to be a string. *)
Definition string_of (x : JsValue) : string :=
  match x with
  | JStr s => s
  | _ => EmptyString
  end.

Definition id_error : string :=
  "Field " ++ dq ++ "id" ++ dq ++ " must be a non-empty string".
Definition kind_error : string :=
  "Field " ++ dq ++ "kind" ++ dq ++ " must be one of "
  ++ join ", " allowedKinds.
Definition timestamp_error : string :=
  "Field " ++ dq ++ "timestamp" ++ dq
  ++ " must be a finite number in epoch milliseconds".
Definition payload_error : string :=
  "Field " ++ dq ++ "payload" ++ dq ++ " must be a non-null object".
Definition meta_error : string :=
  "Field " ++ dq ++ "meta" ++ dq ++ ", if present, must be a non-null object".
Definition intent_error (kind : string) : string :=
  "Field " ++ dq ++ "intent" ++ dq ++ " must be a non-empty string for kind "
  ++ kind.
Definition unknown_intent_error (intent kind : string) : string :=
  "Unknown intent " ++ dq ++ intent ++ dq ++ " for message kind " ++ kind.

(** The five checks every envelope gets: id, kind, timestamp, payload, meta. *)
Definition envelope_errors (message : Props) : list string :=
  let errors := [] in
  let errors :=
    if not_nonempty_string (Get message "id") then push errors id_error
    else errors in
  let errors :=
    if negb (String.eqb (typeof (Get message "kind")) "string")
       || negb (has allowedKinds (Get message "kind"))
    then push errors kind_error
    else errors in
  let errors :=
    if negb (String.eqb (typeof (Get message "timestamp")) "number")
       || negb (Number_isFinite (Get message "timestamp"))
    then push errors timestamp_error
    else errors in
  let errors :=
    if negb (String.eqb (typeof (Get message "payload")) "object")
       || is_null (Get message "payload")
    then push errors payload_error
    else errors in
  if HasProperty message "meta" then
    if not_plain_object (Get message "meta") then push errors meta_error
    else errors
  else errors.

(** The check of [intent] on the intent-bearing kinds. *)
Definition intent_errors (message : Props) (errors : list string)
  : list string :=
  if has intentKinds (Get message "kind") then
    let kind := string_of (Get message "kind") in
    if not_nonempty_string (Get message "intent") then
      push errors (intent_error kind)
    else if negb (entry_present
                    (ALNSpec_intents_get (string_of (Get message "intent"))))
    then push errors
           (unknown_intent_error (string_of (Get message "intent")) kind)
    else errors
  else errors.

Definition validateMessageEnvelope (message : JsValue) : Result Validation :=
  if not_plain_object message then
    Ok {| valid := false; errors := [ "Message must be an object" ] |}
  else
    let m := plain_props message in
    Ok (report (intent_errors m (envelope_errors m))).

(** *** The envelope factory *)

(** [...(meta ? { meta } : {})] *)
Definition spread_meta (meta : JsValue) : Props :=
  if ToBoolean meta then [ ("meta", meta) ] else [].

Definition createIntentRequest (h : Host)
  (id intentName inputPayload meta : JsValue) : Result JsValue :=
  inputValidation <- validateIntentInput h intentName inputPayload false ;;
  if negb (valid inputValidation) then
    shown <- ToString h intentName ;;
    Throw (Error ("Invalid input for intent " ++ dq ++ shown ++ dq ++ ": "
                  ++ join "; " (errors inputValidation)))
  else
    let envelope :=
      JObj ([ ("id", id);
              ("kind", JStr ALNMessageKinds.INTENT_REQUEST);
              ("intent", intentName);
              ("timestamp", JNum (Date_now h));
              ("payload", inputPayload) ] ++ spread_meta meta)%list in
    envelopeValidation <- validateMessageEnvelope envelope ;;
    if negb (valid envelopeValidation) then
      Throw (Error ("Invalid envelope: "
                    ++ join "; " (errors envelopeValidation)))
    else Ok envelope.

Definition createExecutionResult (h : Host)
  (id intentName outputPayload meta : JsValue) : Result JsValue :=
  outputValidation <- validateIntentOutput h intentName outputPayload false ;;
  if negb (valid outputValidation) then
    shown <- ToString h intentName ;;
    Throw (Error ("Invalid output for intent " ++ dq ++ shown ++ dq
                  ++ ": " ++ join "; " (errors outputValidation)))
  else
    let envelope :=
      JObj ([ ("id", id);
              ("kind", JStr ALNMessageKinds.EXECUTION_RESULT);
              ("intent", intentName);
              ("timestamp", JNum (Date_now h));
              ("payload", outputPayload) ] ++ spread_meta meta)%list in
    envelopeValidation <- validateMessageEnvelope envelope ;;
    if negb (valid envelopeValidation) then
      Throw (Error ("Invalid envelope: "
                    ++ join "; " (errors envelopeValidation)))
    else Ok envelope.

Definition createHeartbeat (h : Host) (id payload meta : JsValue)
  : Result JsValue :=
  let payload := default_empty payload in
  let envelope :=
    JObj ([ ("id", id);
            ("kind", JStr ALNMessageKinds.HEARTBEAT);
            ("timestamp", JNum (Date_now h));
            ("payload", payload) ] ++ spread_meta meta)%list in
  envelopeValidation <- validateMessageEnvelope envelope ;;
  if negb (valid envelopeValidation) then
    Throw (Error ("Invalid heartbeat envelope: "
                  ++ join "; " (errors envelopeValidation)))
  else Ok envelope.

Definition createErrorMessage (h : Host)
  (id code messageText details meta : JsValue) : Result JsValue :=
  let details := default_empty details in
  let payload :=
    JObj [ ("code", code); ("message", messageText); ("details", details) ] in
  let envelope :=
    JObj ([ ("id", id);
            ("kind", JStr ALNMessageKinds.ERROR);
            ("timestamp", JNum (Date_now h));
            ("payload", payload) ] ++ spread_meta meta)%list in
  envelopeValidation <- validateMessageEnvelope envelope ;;
  if negb (valid envelopeValidation) then
    Throw (Error ("Invalid error envelope: "
                  ++ join "; " (errors envelopeValidation)))
  else Ok envelope.

(** ** String operations of the language *)

Definition between (lo n hi : nat) : bool := Nat.leb lo n && Nat.leb n hi.

(** [toLowerCase] on one code unit below 256: the letters A-Z and the
    Latin-1 capitals (all of 192..222 but the multiplication sign). *)
Definition lower_unit (c : ascii) : ascii :=
  let n := nat_of_ascii c in
  if between 65 n 90 || (between 192 n 222 && negb (Nat.eqb n 215))
  then ascii_of_nat (n + 32)
  else c.

Fixpoint toLowerCase (s : string) : string :=
  match s with
  | EmptyString => EmptyString
  | String c rest => String (lower_unit c) (toLowerCase rest)
  end.

(** [s.includes(search)] *)
Fixpoint includes (s search : string) : bool :=
  String.prefix search s
  || match s with
     | EmptyString => false
     | String _ rest => includes rest search
     end.

(** White space and line terminators among the code units below 256. *)
Definition is_whitespace (c : ascii) : bool :=
  let n := nat_of_ascii c in
  between 9 n 13 || Nat.eqb n 32 || Nat.eqb n 160.

Fixpoint trimStart (s : string) : string :=
  match s with
  | EmptyString => EmptyString
  | String c rest => if is_whitespace c then trimStart rest else s
  end.

Fixpoint trimEnd (s : string) : string :=
  match s with
  | EmptyString => EmptyString
  | String c rest =>
      match trimEnd rest with
      | EmptyString => if is_whitespace c then EmptyString
                       else String c EmptyString
      | kept => String c kept
      end
  end.

Definition trim (s : string) : string := trimEnd (trimStart s).

(** ** SHA-256 (FIPS 180-4), as [crypto.createHash("sha256")] computes it

    Words are 32-bit integers in [Z]; every sum is reduced modulo [2^32]. *)

Module SHA256.

Local Open Scope Z_scope.

Definition wrap (x : Z) : Z := x mod 2 ^ 32.

Definition rotr (n x : Z) : Z :=
  wrap (Z.lor (Z.shiftr x n) (Z.shiftl x (32 - n))).

Definition Ch (x y z : Z) : Z :=
  Z.lxor (Z.land x y) (Z.land (wrap (Z.lnot x)) z).

Definition Maj (x y z : Z) : Z :=
  Z.lxor (Z.land x y) (Z.lxor (Z.land x z) (Z.land y z)).

Definition Sigma0 (x : Z) : Z :=
  Z.lxor (rotr 2 x) (Z.lxor (rotr 13 x) (rotr 22 x)).
Definition Sigma1 (x : Z) : Z :=
  Z.lxor (rotr 6 x) (Z.lxor (rotr 11 x) (rotr 25 x)).
Definition sigma0 (x : Z) : Z :=
  Z.lxor (rotr 7 x) (Z.lxor (rotr 18 x) (Z.shiftr x 3)).
Definition sigma1 (x : Z) : Z :=
  Z.lxor (rotr 17 x) (Z.lxor (rotr 19 x) (Z.shiftr x 10)).

(** The first sixty-four primes. *)
Definition primes : list Z :=
  [ 2; 3; 5; 7; 11; 13; 17; 19; 23; 29; 31; 37; 41; 43; 47; 53;
    59; 61; 67; 71; 73; 79; 83; 89; 97; 101; 103; 107; 109; 113; 127; 131;
    137; 139; 149; 151; 157; 163; 167; 173; 179; 181; 191; 193; 197; 199;
    211; 223; 227; 229; 233; 239; 241; 251; 257; 263; 269; 271; 277; 281;
    283; 293; 307; 311 ].

(** The integer cube root, bit by bit from [2^bits] down. *)
Fixpoint cube_root (bits : nat) (n r : Z) : Z :=
  match bits with
  | O => r
  | S b =>
      let c := r + 2 ^ Z.of_nat b in
      if c * c * c <=? n then cube_root b n c else cube_root b n r
  end.

(** The round constants: the first 32 bits of the fractional parts of the
    cube roots of the primes. *)
Definition K : list Z :=
  Eval vm_compute in
    map (fun p => wrap (cube_root 40 (p * 2 ^ 96) 0)) primes.

(** The initial hash value: the first 32 bits of the fractional parts of
    the square roots of the first eight primes. *)
Definition H0 : list Z :=
  Eval vm_compute in
    map (fun p => wrap (Z.sqrt (p * 2 ^ 64))) (firstn 8 primes).

(** Big-endian bytes of a [n]-byte integer. *)
Fixpoint be_bytes (n : nat) (x : Z) : list Z :=
  match n with
  | O => []
  | S m => (Z.shiftr x (8 * Z.of_nat m) mod 256) :: be_bytes m x
  end.

Fixpoint be_word (bytes : list Z) (acc : Z) : Z :=
  match bytes with
  | [] => acc
  | b :: rest => be_word rest (acc * 256 + b)
  end.

(** The message, a [1] bit, zeros up to 56 modulo 64 bytes, and the length
    in bits on 8 bytes. *)
Definition pad (msg : list Z) : list Z :=
  let len := Z.of_nat (List.length msg) in
  let zeros := Z.to_nat ((55 - len) mod 64) in
  (msg ++ [128] ++ repeat 0 zeros ++ be_bytes 8 (8 * len))%list.

(** [count] words of 4 bytes from the front of [bytes]. *)
Fixpoint words (count : nat) (bytes : list Z) : list Z :=
  match count with
  | O => []
  | S n => be_word (firstn 4 bytes) 0 :: words n (skipn 4 bytes)
  end.

(** The message schedule, most recent word first: [rev_w] holds
    [W(t-1), W(t-2), ...]. *)
Fixpoint schedule (steps : nat) (rev_w : list Z) : list Z :=
  match steps with
  | O => rev_w
  | S n =>
      let w i := nth i rev_w 0 in
      schedule n
        (wrap (sigma1 (w 1%nat) + w 6%nat + sigma0 (w 14%nat) + w 15%nat)
         :: rev_w)
  end.

Definition State : Type := (Z * Z * Z * Z * Z * Z * Z * Z)%type.

Definition round (s : State) (kw : Z * Z) : State :=
  let '(a, b, c, d, e, f, g, h) := s in
  let '(k, w) := kw in
  let t1 := wrap (h + Sigma1 e + Ch e f g + k + w) in
  let t2 := wrap (Sigma0 a + Maj a b c) in
  (wrap (t1 + t2), a, b, c, wrap (d + t1), e, f, g).

Definition add_state (s t : State) : State :=
  let '(a, b, c, d, e, f, g, h) := s in
  let '(a', b', c', d', e', f', g', h') := t in
  (wrap (a + a'), wrap (b + b'), wrap (c + c'), wrap (d + d'),
   wrap (e + e'), wrap (f + f'), wrap (g + g'), wrap (h + h')).

Definition compress (s : State) (block : list Z) : State :=
  let w := rev (schedule 48 (rev (words 16 block))) in
  add_state s (fold_left round (combine K w) s).

Fixpoint blocks (count : nat) (bytes : list Z) (s : State) : State :=
  match count with
  | O => s
  | S n => blocks n (skipn 64 bytes) (compress s (firstn 64 bytes))
  end.

Definition initial : State :=
  match H0 with
  | [a; b; c; d; e; f; g; h] => (a, b, c, d, e, f, g, h)
  | _ => (0, 0, 0, 0, 0, 0, 0, 0)
  end.

Definition digest (msg : list Z) : list Z :=
  let padded := pad msg in
  let '(a, b, c, d, e, f, g, h) :=
    blocks (List.length padded / 64) padded initial in
  flat_map (be_bytes 4) [a; b; c; d; e; f; g; h].

Definition hex_digit (n : Z) : ascii :=
  ascii_of_nat (Z.to_nat (if n <? 10 then 48 + n else 87 + n)).

(** [digest("hex")]: two lowercase digits a byte. *)
Fixpoint hex (bytes : list Z) : string :=
  match bytes with
  | [] => EmptyString
  | b :: rest =>
      String (hex_digit (b / 16)) (String (hex_digit (b mod 16)) (hex rest))
  end.

(** UTF-8 of a string of code units below 256: one byte below 128, two
    bytes from 128 on. *)
Fixpoint utf8 (s : string) : list Z :=
  match s with
  | EmptyString => []
  | String c rest =>
      let n := Z.of_nat (nat_of_ascii c) in
      if n <? 128 then n :: utf8 rest
      else (192 + n / 64) :: (128 + n mod 64) :: utf8 rest
  end.

(** [createHash("sha256").update(s).digest("hex")] *)
Definition sha256_hex (s : string) : string := hex (digest (utf8 s)).

End SHA256.

(** ** src/core/ALNKernel.js

    A kernel holds [modelId] and [maxReplicationHours].  Its [logger] is a
    side channel: [_log] calls it and swallows what it raises.  It is left
    out of the model, which so describes the kernels whose logger leaves the
    objects it is handed as they are. *)

Record ALNKernelOptions : Type := {
  opt_modelId : option string;
  opt_maxReplicationHours : JsValue
}.

Record ALNKernel : Type := {
  modelId : string;
  maxReplicationHours : float
}.

(** The text of [x || fallback] for an optional string [x]. *)
Definition or_string (x : option string) (fallback : string) : string :=
  match x with
  | Some s => if String.eqb s EmptyString then fallback else s
  | None => fallback
  end.

(** The number held by a value known to be a number. *)
Definition number_of (v : JsValue) : float :=
  match v with
  | JNum x => x
  | _ => nan
  end.

(** The elements of a value known to be an array. *)
Definition items_of (v : JsValue) : list JsValue :=
  match v with
  | JArr items => items
  | _ => []
  end.

(** [constructor(options = {})] *)
Definition new_ALNKernel (options : ALNKernelOptions) : ALNKernel :=
  {| modelId := or_string (opt_modelId options) "aln-runtime-v1";
     maxReplicationHours :=
       if Number_isFinite (opt_maxReplicationHours options)
       then number_of (opt_maxReplicationHours options)
       else 24%float |}.

(** [hash.slice(0, 16)] of the SHA-256 of
    [`${intentText}::${timestamp}::${this.modelId}`]. *)
Definition _generatePlanId (k : ALNKernel) (intentText timestamp : string)
  : string :=
  let hash :=
    SHA256.sha256_hex (intentText ++ "::" ++ timestamp ++ "::" ++ modelId k) in
  String.substring 0 16 hash.

(** [o[key] = v] on own properties: in place when the key is there, at the
    end otherwise.  (The engine lists integer-like keys first; nothing here
    observes the order of the keys of an object built this way.) *)
Fixpoint set (props : Props) (key : string) (v : JsValue) : Props :=
  match props with
  | [] => [ (key, v) ]
  | (k, old) :: rest =>
      if String.eqb k key then (k, v) :: rest
      else (k, old) :: set rest key v
  end.

(** [{ ...target, ...source }]: the own enumerable properties of [source]
    written over [target], in order. *)
Definition spread (target : Props) (source : JsValue) : Props :=
  fold_left (fun acc entry => set acc (fst entry) (snd entry))
    (own_enumerable source) target.

Definition defaults (k : ALNKernel) : Props :=
  [ ("language", JStr "JavaScript");
    ("requireCompleteness", JBool true);
    ("forbidPlaceholders", JBool true);
    ("maxReplicationTimeHours", JNum (maxReplicationHours k));
    ("jurisdictions", JArr []);
    ("providerPolicies", JArr []);
    ("dataResidency", JNull) ].

Definition _normalizeConstraints (k : ALNKernel) (constraints : JsValue)
  : Props :=
  let merged := spread (defaults k) (or_empty constraints) in
  let merged :=
    if negb (Number_isFinite (Get merged "maxReplicationTimeHours"))
       || PrimFloat.leb (number_of (Get merged "maxReplicationTimeHours")) 0
    then set merged "maxReplicationTimeHours" (JNum (maxReplicationHours k))
    else merged in
  let merged :=
    if negb (Array_isArray (Get merged "jurisdictions"))
    then set merged "jurisdictions" (JArr [])
    else merged in
  let merged :=
    if negb (Array_isArray (Get merged "providerPolicies"))
    then set merged "providerPolicies" (JArr [])
    else merged in
  let merged :=
    set merged "language"
      (if String.eqb (typeof (Get merged "language")) "string"
          && ToBoolean (JStr (trim (string_of (Get merged "language"))))
       then JStr (trim (string_of (Get merged "language")))
       else JStr "JavaScript") in
  let merged :=
    set merged "requireCompleteness"
      (JBool (ToBoolean (Get merged "requireCompleteness"))) in
  let merged :=
    set merged "forbidPlaceholders"
      (JBool (ToBoolean (Get merged "forbidPlaceholders"))) in
  merged.

Definition _inferIntentType (text : string) : string :=
  let lower := toLowerCase text in
  if includes lower "workflow" || includes lower "github" then "ci_workflow"
  else if includes lower "repo" || includes lower "repository"
  then "repository_plan"
  else if includes lower "python" || includes lower "notebook"
  then "python_interop"
  else if includes lower "policy" || includes lower "compliance"
  then "policy_plan"
  else "general_plan".

(** The body of the loop of [_matchALNIntents] over the registry. *)
Definition matches_intent (lower : string) (entry : string * IntentSpec)
  : bool :=
  let (id, intent) := entry in
  let description := toLowerCase (description intent) in
  (includes description "repository" && includes lower "repo")
  || (includes id "interop_python" && includes lower "python")
  || (includes id "define_virtual_object" && includes lower "virtual")
  || (includes description "policy" && includes lower "policy").

Definition _matchALNIntents (text : string) : list string :=
  let lower := toLowerCase text in
  map fst (filter (matches_intent lower) ALNSpec_intents).

Definition _deriveAssumptions (intentText : string) (constraints : Props)
  : list string :=
  let a := [] in
  let a :=
    push a "Outputs are intended for open-source or auditable environments." in
  let a :=
    push a ("Target implementation language is "
            ++ string_of (Get constraints "language") ++ ".") in
  let a :=
    if PrimFloat.leb (number_of (Get constraints "maxReplicationTimeHours")) 24
    then push a "A motivated developer can reproduce outputs within 24 hours."
    else a in
  let a :=
    if negb (Nat.eqb (List.length (items_of (Get constraints "jurisdictions"))) 0)
    then push a
           "Plans must satisfy the strictest overlapping jurisdictional constraints."
    else a in
  if includes (toLowerCase intentText) "github"
  then push a "GitHub Actions or compatible CI is available."
  else a.

Definition _deriveRisks (intentText : string) : list string :=
  let r := [ "Risk of over-engineering structure for simple tasks." ] in
  let lower := toLowerCase intentText in
  let r :=
    if includes lower "neuro" || includes lower "bci" || includes lower "eeg"
    then push r
           "Neurotech contexts require medical, ethical, and privacy reviews."
    else r in
  let r :=
    if includes lower "pii" || includes lower "personal data"
    then push r
           "Personal data processing must follow privacy and data protection rules."
    else r in
  if includes lower "safety" || includes lower "critical"
  then push r
         "Safety-critical systems require independent validation and redundancy."
  else r.

Definition _deriveTradeoffs : list string :=
  [ "Favor explicit compliance boundaries over opaque behavior.";
    "Prefer auditability and reproducibility over micro-optimizations.";
    "Prioritize cross-environment determinism over environment-specific hacks." ].

Definition _buildIntegrityValidationRules (constraints : Props) : JsValue :=
  JObj
    [ ("requireCompleteness", Get constraints "requireCompleteness");
      ("forbidPlaceholders", Get constraints "forbidPlaceholders");
      ("disallowedPatterns",
       JArr [ JStr "TODO"; JStr "FIXME"; JStr "placeholder";
              JStr "lorem ipsum"; JStr "<insert"; JStr "stub only" ]);
      ("minLinesOfCode", JNum 1%float) ].

(** [_inferEnvironmentHints]: the serialized context, lowercased, searched
    for tokens.  [JSON.stringify] may raise, and [toLowerCase] is read from
    its result. *)
Definition _inferEnvironmentHints (h : Host) (context : JsValue)
  : Result JsValue :=
  serialized <- JSON_stringify h context ;;
  match serialized with
  | JStr text =>
      let ctxString := toLowerCase text in
      let hasCI :=
        includes ctxString "github" || includes ctxString "gitlab"
        || includes ctxString "ci" in
      let ciProvider :=
        if hasCI then
          if includes ctxString "github" then JStr "github_actions"
          else if includes ctxString "gitlab" then JStr "gitlab_ci"
          else JStr "generic_ci"
        else JNull in
      let hasKubernetes :=
        includes ctxString "kubernetes" || includes ctxString "k8s" in
      let hasNeuromorphicHardware :=
        includes ctxString "neuromorphic" || includes ctxString "bci"
        || includes ctxString "eeg" in
      let runtime :=
        if includes ctxString "node.js" || includes ctxString "nodejs"
           || includes ctxString "node"
        then JStr "node"
        else if includes ctxString "browser" then JStr "browser"
        else JNull in
      Ok (JObj [ ("hasCI", JBool hasCI);
                 ("hasKubernetes", JBool hasKubernetes);
                 ("hasNeuromorphicHardware", JBool hasNeuromorphicHardware);
                 ("ciProvider", ciProvider);
                 ("runtime", runtime) ])
  | _ =>
      Throw (TypeError
               "Cannot read properties of undefined (reading 'toLowerCase')")
  end.

Record ALNPlanStep : Type := {
  id : string;
  step_description : string;
  output : JsValue;
  priority : string
}.

Definition _synthesizeSteps (h : Host) (intentText : string)
  (intentType : JsValue) (constraints : Props) (context : JsValue)
  : Result (list ALNPlanStep) :=
  let steps : list ALNPlanStep := [] in
  let steps :=
    (steps ++
     [ {| id := "analyze-intent";
          step_description := "Classify intent and map to ALN intents.";
          output :=
            JObj [ ("intentType",
                    or_else intentType (JStr (_inferIntentType intentText)));
                   ("matchedALNIntents",
                    JArr (map JStr (_matchALNIntents intentText))) ];
          priority := "high" |} ])%list in
  let steps :=
    (steps ++
     [ {| id := "design-structure";
          step_description :=
            "Design structures (files, workflows, compliance hooks).";
          output :=
            JObj [ ("requiresRepoPlan", JBool true);
                   ("language", Get constraints "language");
                   ("replicationHours",
                    Get constraints "maxReplicationTimeHours") ];
          priority := "high" |} ])%list in
  let steps :=
    if negb (Nat.eqb (List.length (items_of (Get constraints "jurisdictions"))) 0)
       || negb (Nat.eqb
                  (List.length (items_of (Get constraints "providerPolicies"))) 0)
    then
      (steps ++
       [ {| id := "compliance-alignment";
            step_description :=
              "Align plan with declared jurisdictions and policies.";
            output :=
              JObj [ ("jurisdictions", Get constraints "jurisdictions");
                     ("providerPolicies", Get constraints "providerPolicies");
                     ("dataResidency", Get constraints "dataResidency") ];
            priority := "high" |} ])%list
    else steps in
  let steps :=
    (steps ++
     [ {| id := "enforce-integrity";
          step_description :=
            "Require complete, placeholder-free code outputs.";
          output :=
            JObj [ ("requireCompleteness",
                    Get constraints "requireCompleteness");
                   ("forbidPlaceholders",
                    Get constraints "forbidPlaceholders");
                   ("validationRules",
                    _buildIntegrityValidationRules constraints) ];
          priority := "medium" |} ])%list in
  contextKeys <- Object_keys (or_empty context) ;;
  steps <-
    (if negb (Nat.eqb (List.length contextKeys) 0) then
       contextKeys <- Object_keys context ;;
       environmentHints <- _inferEnvironmentHints h context ;;
       Ok (steps ++
           [ {| id := "context-alignment";
                step_description :=
                  "Align plan with host system context (chat, CI, runtime).";
                output :=
                  JObj [ ("contextKeys", JArr (map JStr contextKeys));
                         ("environmentHints", environmentHints) ];
                priority := "medium" |} ])%list
     else Ok steps) ;;
  Ok (steps ++
      [ {| id := "replication-strategy";
           step_description :=
             "Guarantee 24-hour replication for a motivated developer.";
           output :=
             JObj [ ("replicationGuaranteeHours",
                     Get constraints "maxReplicationTimeHours");
                    ("assumptions",
                     JArr [ JStr "Node.js LTS and Git available.";
                            JStr "GitHub or equivalent git host accessible." ]);
                    ("developerProfile", JStr "motivated_single_developer") ];
           priority := "medium" |} ])%list.

Record ALNTransparencyTrail : Type := {
  trail_planId : string;
  trail_modelId : string;
  trail_intentText : string;
  intentType : JsValue;
  constraints : Props;
  createdAt : string;
  assumptions : list string;
  risks : list string;
  tradeoffs : list string
}.

Record ALNPlanResult : Type := {
  planId : string;
  steps : list ALNPlanStep;
  transparencyTrail : ALNTransparencyTrail
}.

Definition reason (h : Host) (k : ALNKernel)
  (intentText intentType constraints context : JsValue)
  : Result ALNPlanResult :=
  if negb (ToBoolean intentText)
     || negb (String.eqb (typeof intentText) "string")
  then Throw (Error "ALNKernel.reason: intentText must be a non-empty string.")
  else
    let text := string_of intentText in
    let constraints := default_empty constraints in
    let context := default_empty context in
    let timestamp := Date_toISOString h in
    let planId := _generatePlanId k text timestamp in
    let normalized := _normalizeConstraints k constraints in
    let resolvedIntentType :=
      or_else intentType (JStr (_inferIntentType text)) in
    steps <- _synthesizeSteps h text resolvedIntentType normalized
               (or_empty context) ;;
    let transparencyTrail :=
      {| trail_planId := planId;
         trail_modelId := modelId k;
         trail_intentText := text;
         intentType := resolvedIntentType;
         constraints := normalized;
         createdAt := timestamp;
         assumptions := _deriveAssumptions text normalized;
         risks := _deriveRisks text;
         tradeoffs := _deriveTradeoffs |} in
    Ok {| planId := planId;
          steps := steps;
          transparencyTrail := transparencyTrail |}.


(** ** [describeALN] of src/protocol/ALNSpec.js *)

Definition ALN_VERSION : string := "1.0.0".

Module ALNSpec_identity.
Definition languageName : string := "Augmented Language Networks".
Definition shortName : string := "ALN".
Definition authority : string :=
  "GoogolswarmAI Nanoswarm + Javaspectre Initiative".
End ALNSpec_identity.

Record ALNDescription : Type := {
  version : string;
  languageName : string;
  shortName : string;
  supportedIntents : list string
}.

(** [Object.keys(ALNSpec.intents)]: the names of the registry, in order. *)
Definition describeALN : ALNDescription :=
  {| version := ALN_VERSION;
     languageName := ALNSpec_identity.languageName;
     shortName := ALNSpec_identity.shortName;
     supportedIntents := map fst ALNSpec_intents |}.

(** ** src/capabilities/JavaspectreCapabilities.js *)

(** The scores are decimal literals, read as the nearest binary64 values. *)
Set Warnings "-inexact-float".

Module Capabilities.

Record SustainabilityImpact : Type := {
  dimension : string;
  notes : string
}.

Record Capability : Type := {
  id : string;
  index : float;
  name : string;
  category : string;
  summary : string;
  entryModule : string;
  primaryCli : string;
  inputs : list string;
  outputs : list string;
  guarantees : list string;
  spectralTags : list string;
  sustainabilityImpact : SustainabilityImpact;
  heuristicScore : float
}.

Definition JavaspectreCapabilities : list Capability :=
  [ {| id := "zero-config-repo-blueprinting";
       index := 1;
       name := "Zero-Config Repo Blueprinting";
       category := "scaffolding";
       summary :=
         "Analyzes a single prompt or code fragment and generates complete repository structures ready for git push in under 60 seconds.";
       entryModule := "src/blueprints/RepoBlueprint.js";
       primaryCli := "javaspectre make";
       inputs := [ "prompt"; "code-fragment" ];
       outputs := [ "repo-structure"; "package-json"; "tests"; "ci-config" ];
       guarantees :=
         [ "No manual configuration required.";
           "Valid package.json with scripts, license, and README stubs.";
           "Initial tests and CI prepared for immediate use." ];
       spectralTags := [ "automation"; "bootstrap"; "repo"; "blueprint" ];
       sustainabilityImpact :=
         {| dimension := "developer-time";
            notes :=
              "Reduces repetitive boilerplate work and misconfigured projects, lowering wasted compute from failed pipelines." |};
       heuristicScore := 0.7 |};
    {| id := "live-virtual-object-harvesting";
       index := 2;
       name := "Live Virtual-Object Harvesting";
       category := "introspection";
       summary :=
         "Scans webpages, API responses, or DOM trees in real time, extracting hidden data shapes and emitting reusable type definitions and API wrappers.";
       entryModule := "src/core/VirtualObjectExcavator.js";
       primaryCli := "javaspectre inspect";
       inputs := [ "url"; "html-fragment"; "json-response" ];
       outputs :=
         [ "virtual-object-catalog"; "type-definitions"; "api-wrappers" ];
       guarantees :=
         [ "No manual schema writing.";
           "Stable structural signatures for reuse.";
           "Supports DOM, JSON, and mixed payloads when integrated with a browser runner." ];
       spectralTags := [ "dom"; "api"; "virtual-object"; "schema" ];
       sustainabilityImpact :=
         {| dimension := "data-efficiency";
            notes :=
              "Encourages selective, schema-aware data access, reducing over-fetching and redundant API calls." |};
       heuristicScore := 0.6 |};
    {| id := "one-command-spectral-refinement";
       index := 3;
       name := "One-Command Spectral Refinement";
       category := "refinement";
       summary :=
         "Transforms partial or rough code into production-grade modules with tests, docs, and performance optimizations via a single command.";
       entryModule := "src/capabilities/SpectralRefiner.js";
       primaryCli := "javaspectre refine";
       inputs := [ "source-file"; "repo-path" ];
       outputs := [ "refined-modules"; "tests"; "docs" ];
       guarantees :=
         [ "Refined code remains compatible with original intent.";
           "Adds tests and basic documentation automatically.";
           "Targets idiomatic, modern JavaScript patterns." ];
       spectralTags := [ "refactor"; "optimization"; "upgrade" ];
       sustainabilityImpact :=
         {| dimension := "runtime-efficiency";
            notes :=
              "Removes dead code and improves complexity to reduce CPU and memory waste." |};
       heuristicScore := 0.8 |};
    {| id := "sustainability-impact-calculator";
       index := 9;
       name := "Sustainability Impact Calculator";
       category := "sustainability";
       summary :=
         "Embeds carbon footprint metrics, energy scores, and green-hosting suggestions into generated systems.";
       entryModule := "src/core/SustainabilityCore.js";
       primaryCli := "javaspectre impact";
       inputs := [ "project-metadata"; "estimated-usage" ];
       outputs := [ "impact-report"; "optimization-recommendations" ];
       guarantees :=
         [ "Uses transparent, documented estimation models.";
           "Highlights levers like hosting choice, caching, and data minimization.";
           "Exports impact snapshots for audits and reporting." ];
       spectralTags := [ "sustainability"; "carbon"; "optimization" ];
       sustainabilityImpact :=
         {| dimension := "planetary-impact";
            notes :=
              "Encourages greener design choices and highlights optimization opportunities from inception." |};
       heuristicScore := 0.9 |} ].

(** [JavaspectreCapabilities.find((c) => c.id === id) || null]: [None] is
    [null]. *)
Definition getCapabilityById (id' : JsValue) : option Capability :=
  find (fun c => is_string id' (id c)) JavaspectreCapabilities.

(** [[...JavaspectreCapabilities]] *)
Definition listCapabilities : list Capability := JavaspectreCapabilities.

End Capabilities.

(** ** src/core/ALNEngineManifest.js *)

Module EngineManifest.

(** The [aln] field of the manifest: the four fields of the description,
    copied. *)
Definition aln_fields (aln : ALNDescription) : ALNDescription :=
  {| version := version aln;
     languageName := languageName aln;
     shortName := shortName aln;
     supportedIntents := supportedIntents aln |}.

Record ManifestCapability : Type := {
  id : string;
  name : string;
  category : string;
  summary : string;
  primaryCli : string;
  entryModule : string
}.

Record Policies : Type := {
  codePurity : string;
  replicationGuaranteeHours : float
}.

Record Manifest : Type := {
  engineId : string;
  version : string;
  aln : ALNDescription;
  capabilities : list ManifestCapability;
  policies : Policies;
  hostContext : JsValue
}.

(** The callback of [capabilities.map]. *)
Definition manifest_entry (c : Capabilities.Capability) : ManifestCapability :=
  {| id := Capabilities.id c;
     name := Capabilities.name c;
     category := Capabilities.category c;
     summary := Capabilities.summary c;
     primaryCli := Capabilities.primaryCli c;
     entryModule := Capabilities.entryModule c |}.

Definition buildEngineManifest (context : JsValue) : Manifest :=
  let context := default_empty context in
  let aln := describeALN in
  let capabilities := Capabilities.listCapabilities in
  {| engineId := "javaspectre-core";
     version := "1.0.0";
     aln := aln_fields aln;
     capabilities := map manifest_entry capabilities;
     policies :=
       {| codePurity := "JavaScript-only outputs, no placeholders.";
          replicationGuaranteeHours := 24 |};
     hostContext := context |}.

End EngineManifest.

(** ** src/core/VirtualObjectExcavator.js

    The excavator walks a value and records what it meets in collections
    that every call shares; the model threads them as a [Store].  The two
    limits of an excavator are taken among the non-negative integers, as
    the defaults give them.  Arrays are dense, properties are data
    properties, and an object carries the name [obj.constructor.name]
    reads, a string, empty when there is none. *)

Module Excavator.

(** A value, with the identity of each object: the [WeakSet] of the
    excavator tells objects apart by identity, so two occurrences of one
    object carry one [ref]. *)
Inductive Node : Type :=
| NUndefined
| NNull
| NBool (b : bool)
| NNum (x : float)
| NStr (s : string)
| NBigInt (z : Z)
| NSymbol (description : string)
| NFun (name source : string)
| NArr (items : list Node)
| NObj (ref : nat) (ctor : string) (props : list (string * Node)).

Definition typeof (v : Node) : string :=
  match v with
  | NUndefined => "undefined"
  | NNull => "object"
  | NBool _ => "boolean"
  | NNum _ => "number"
  | NStr _ => "string"
  | NBigInt _ => "bigint"
  | NSymbol _ => "symbol"
  | NFun _ _ => "function"
  | NArr _ => "object"
  | NObj _ _ _ => "object"
  end.

Definition is_nullish (v : Node) : bool :=
  match v with
  | NUndefined | NNull => true
  | _ => false
  end.

Definition Array_isArray (v : Node) : bool :=
  match v with
  | NArr _ => true
  | _ => false
  end.

(** The parts of a value of a known class. *)
Definition items_of (v : Node) : list Node :=
  match v with
  | NArr items => items
  | _ => []
  end.

Definition name_of (v : Node) : string :=
  match v with
  | NFun name _ => name
  | _ => EmptyString
  end.

Definition ref_of (v : Node) : nat :=
  match v with
  | NObj ref _ _ => ref
  | _ => 0
  end.

Definition ctor_of (v : Node) : string :=
  match v with
  | NObj _ ctor _ => ctor
  | _ => EmptyString
  end.

Definition props_of (v : Node) : list (string * Node) :=
  match v with
  | NObj _ _ props => props
  | _ => []
  end.

(** [obj[key]] on own properties. *)
Fixpoint get (props : list (string * Node)) (key : string) : Node :=
  match props with
  | [] => NUndefined
  | (k, v) :: rest => if String.eqb k key then v else get rest key
  end.

(** [String(value)] on the values of the last branch of [inspectValue]:
    big integers, symbols and functions. *)
Definition String_ (v : Node) : string :=
  match v with
  | NBigInt z => Z_to_string z
  | NSymbol d => "Symbol(" ++ d ++ ")"
  | NFun _ source => source
  | _ => EmptyString
  end.

(** [x || fallback] on strings. *)
Definition or_text (x fallback : string) : string :=
  if String.eqb x EmptyString then fallback else x.

(** [o[key] = v] on an object literal: in place when the key is there, at
    the end otherwise; on the key [__proto__] the assignment reaches the
    setter of [Object.prototype], which changes the prototype of [o] and
    adds no property. *)
Fixpoint put {A : Type} (o : list (string * A)) (key : string) (v : A)
  : list (string * A) :=
  match o with
  | [] => [ (key, v) ]
  | (k, old) :: rest =>
      if String.eqb k key then (k, v) :: rest else (k, old) :: put rest key v
  end.

Definition assign {A : Type} (o : list (string * A)) (key : string) (v : A)
  : list (string * A) :=
  if String.eqb key "__proto__" then o else put o key v.

(** [set.add(x)] on a [Set] of strings, in insertion order. *)
Definition Set_add (set : list string) (x : string) : list string :=
  if mem x set then set else (set ++ [ x ])%list.

(** [l.forEach((item, index) => ...)] over a state. *)
Fixpoint forEach {A S : Type} (l : list A) (index : nat)
  (body : A -> nat -> S -> S) (s : S) : S :=
  match l with
  | [] => s
  | item :: rest => forEach rest (Datatypes.S index) body (body item index s)
  end.

(** *** The definitions [inspectValue] returns *)

Inductive Def : Type :=
| DepthLimitDef (id : string)
| NullishDef (id : string) (example : Node)
| PrimitiveDef (id valueType : string) (example : Node)
| FunctionDef (id example : string)
| CircularDef (id : string)
| UnknownDef (id valueType example : string)
| ArrayDef (id : string) (length sampled : nat) (elementKinds : list string)
    (elementSamples : list Def)
| ObjectDef (id ctor : string) (fields : list (string * Def)).

Definition def_id (d : Def) : string :=
  match d with
  | DepthLimitDef id | NullishDef id _ | PrimitiveDef id _ _
  | FunctionDef id _ | CircularDef id | UnknownDef id _ _
  | ArrayDef id _ _ _ _ | ObjectDef id _ _ => id
  end.

Definition def_kind (d : Def) : string :=
  match d with
  | DepthLimitDef _ => "depth-limit"
  | NullishDef _ _ => "nullish"
  | PrimitiveDef _ _ _ => "primitive"
  | FunctionDef _ _ => "function"
  | CircularDef _ => "circular"
  | UnknownDef _ _ _ => "unknown"
  | ArrayDef _ _ _ _ _ => "array"
  | ObjectDef _ _ _ => "object"
  end.

(** [def.valueType || null]: [None] is [null]. *)
Definition def_valueType (d : Def) : option string :=
  match d with
  | PrimitiveDef _ valueType _ => Some valueType
  | FunctionDef _ _ => Some "function"
  | CircularDef _ => Some "object"
  | UnknownDef _ valueType _ =>  Some valueType
  | _ => None
  end.

(** [def.example], [undefined] on the definitions without one. *)
Definition def_example (d : Def) : Node :=
  match d with
  | DepthLimitDef _ | CircularDef _ => NNull
  | NullishDef _ example | PrimitiveDef _ _ example => example
  | FunctionDef _ example | UnknownDef _ _ example => NStr example
  | ArrayDef _ _ _ _ _ | ObjectDef _ _ _ => NUndefined
  end.

(** [def.note || null] *)
Definition def_note (d : Def) : option string :=
  match d with
  | DepthLimitDef _ => Some "Max depth"
  | CircularDef _ => Some "Circular ref"
  | UnknownDef _ _ _ => Some "Unhandled type"
  | _ => None
  end.

Record FieldDescription : Type := {
  kind : string;
  valueType : option string;
  example : Node;
  note : option string
}.

Inductive VirtualObject : Type :=
| PrimitiveVO (id signature : string) (example : Node)
| FunctionVO (id signature : string)
| CollectionVO (id signature : string) (sampled total : nat)
| StructVO (id signature : string)
    (fields : list (string * FieldDescription))
| DomVO (id category selector : string) (count : nat)
    (attributesExample : list (string * string)).

Definition vo_id (vo : VirtualObject) : string :=
  match vo with
  | PrimitiveVO id _ _ | FunctionVO id _ | CollectionVO id _ _ _
  | StructVO id _ _ | DomVO id _ _ _ _ => id
  end.

Definition vo_category (vo : VirtualObject) : string :=
  match vo with
  | PrimitiveVO _ _ _ => "primitive"
  | FunctionVO _ _ => "function"
  | CollectionVO _ _ _ _ => "collection"
  | StructVO _ _ _ => "struct"
  | DomVO _ category _ _ _ => category
  end.

Record Relationship : Type := {
  from : string;
  to : string;
  relation : string;
  field : string
}.

(** The collections the calls share: the [WeakSet] of visited objects and
    the two arrays they push to. *)
Record Store : Type := {
  visited : list nat;
  found : list VirtualObject;
  links : list Relationship
}.

Definition visit (st : Store) (ref : nat) : Store :=
  {| visited := ref :: visited st; found := found st; links := links st |}.

Definition push_found (st : Store) (vo : VirtualObject) : Store :=
  {| visited := visited st;
     found := (found st ++ [ vo ])%list;
     links := links st |}.

Definition push_link (st : Store) (r : Relationship) : Store :=
  {| visited := visited st;
     found := found st;
     links := (links st ++ [ r ])%list |}.

(** *** The excavator

    The two limits are natural numbers here, as the defaults 6 and 10 are.
    The constructor keeps any number it is given; a limit that is negative,
    fractional, infinite or NaN is outside this model, and what is proved
    of [maxDepth] and [maxArraySample] is proved of limits that are
    non-negative integers. *)

Record Options : Type := {
  opt_maxDepth : option nat;
  opt_maxArraySample : option nat;
  opt_includeDom : JsValue;
  opt_includeFunctions : JsValue
}.

Record VirtualObjectExcavator : Type := {
  maxDepth : nat;
  maxArraySample : nat;
  includeDom : bool;
  includeFunctions : bool
}.

(** [constructor(options = {})] *)
Definition new_VirtualObjectExcavator (options : Options)
  : VirtualObjectExcavator :=
  {| maxDepth :=
       match opt_maxDepth options with Some n => n | None => 6 end;
     maxArraySample :=
       match opt_maxArraySample options with Some n => n | None => 10 end;
     includeDom :=
       match opt_includeDom options with JBool false => false | _ => true end;
     includeFunctions :=
       match opt_includeFunctions options with
       | JBool true => true
       | _ => false
       end |}.

(** What [this.inspectValue] is to the two helpers. *)
Definition Inspect : Type := Node -> string -> nat -> Store -> Def * Store.

Definition _inspectArray (inspectValue : Inspect)
  (this : VirtualObjectExcavator) (arr : list Node) (id : string)
  (depth : nat) (st : Store) : Def * Store :=
  let sampleSize := Nat.min (maxArraySample this) (List.length arr) in
  let samples := firstn sampleSize arr in
  let '(elementDefs, elementKinds, st) :=
    forEach samples 0
      (fun item index '(elementDefs, elementKinds, st) =>
         let elementId := id ++ "[" ++ index_key index ++ "]" in
         let (def, st) := inspectValue item elementId (depth + 1) st in
         ((elementDefs ++ [ def ])%list,
          Set_add elementKinds (def_kind def), st))
      ([], [], st) in
  let arrayDef :=
    ArrayDef id (List.length arr) sampleSize elementKinds elementDefs in
  (arrayDef,
   push_found st
     (CollectionVO id ("Array<" ++ join " | " elementKinds ++ ">")
        sampleSize (List.length arr))).

Definition _inspectObject (inspectValue : Inspect)
  (this : VirtualObjectExcavator) (obj : Node) (id : string) (depth : nat)
  (st : Store) : Def * Store :=
  let ctorName := or_text (ctor_of obj) "Object" in
  let '(fields, fieldDescriptions, st) :=
    forEach (map fst (props_of obj)) 0
      (fun key _ '(fields, fieldDescriptions, st) =>
         let fieldId := id ++ "." ++ key in
         let value := get (props_of obj) key in
         let (childDef, st) := inspectValue value fieldId (depth + 1) st in
         (assign fields key childDef,
          assign fieldDescriptions key
            {| kind := def_kind childDef;
               valueType := def_valueType childDef;
               example := def_example childDef;
               note := def_note childDef |},
          push_link st
            {| from := id; to := def_id childDef; relation := "field";
               field := key |}))
      ([], [], st) in
  let objDef := ObjectDef id ctorName fields in
  (objDef, push_found st (StructVO id (ctorName ++ "{...}") fieldDescriptions)).

(** [inspectValue].  Each nested call is one level deeper and the first
    test stops the descent past [maxDepth], so [maxDepth + 2] units of
    [fuel] are never used up (see [inspectValue_fuel]). *)
Fixpoint inspectValue (this : VirtualObjectExcavator) (fuel : nat)
  (value : Node) (id : string) (depth : nat) (st : Store) : Def * Store :=
  match fuel with
  | O => (DepthLimitDef id, st)
  | Datatypes.S fuel =>
      if Nat.ltb (maxDepth this) depth then (DepthLimitDef id, st)
      else if is_nullish value then (NullishDef id value, st)
      else if String.eqb (typeof value) "string"
              || String.eqb (typeof value) "number"
              || String.eqb (typeof value) "boolean"
      then
        (PrimitiveDef id (typeof value) value,
         push_found st (PrimitiveVO id (typeof value) value))
      else if Array_isArray value then
        _inspectArray (inspectValue this fuel) this (items_of value) id depth
          st
      else if String.eqb (typeof value) "function" && includeFunctions this
      then
        (FunctionDef id (or_text (name_of value) "anonymous"),
         push_found st (FunctionVO id (or_text (name_of value) "anonymous")))
      else if String.eqb (typeof value) "object" then
        if existsb (Nat.eqb (ref_of value)) (visited st)
        then (CircularDef id, st)
        else
          _inspectObject (inspectValue this fuel) this value id depth
            (visit st (ref_of value))
      else (UnknownDef id (typeof value) (String_ value), st)
  end.

(** *** The document, as [querySelectorAll("*")] lists it *)

Record Attr : Type := { attr_name : string; attr_value : string }.

Record Element : Type := {
  tagName : string;
  classList : list string;
  (** [None]: the element has no [attributes] *)
  attributes : option (list Attr)
}.

Definition extractAttributes (el : Element) : list (string * string) :=
  match attributes el with
  | None => []
  | Some attrs =>
      forEach attrs 0
        (fun a _ acc => assign acc (attr_name a) (attr_value a)) []
  end.

(** [if (!m.has(key)) m.set(key, []); m.get(key).push(el)] on a [Map] in
    insertion order. *)
Fixpoint Map_push (m : list (string * list Element)) (key : string)
  (el : Element) : list (string * list Element) :=
  match m with
  | [] => [ (key, [ el ]) ]
  | (k, els) :: rest =>
      if String.eqb k key then (k, (els ++ [ el ])%list) :: rest
      else (k, els) :: Map_push rest key el
  end.

Record SelectorSummary : Type := {
  selector : string;
  count : nat;
  attributesExample : list (string * string)
}.

Record DomSheet : Type := {
  tagSummaries : list SelectorSummary;
  classSummaries : list SelectorSummary;
  totalNodes : nat
}.

Record DomResult : Type := {
  dom_domSheets : list DomSheet;
  dom_virtualObjects : list VirtualObject;
  dom_relationships : list Relationship
}.

(** [sample ? this.extractAttributes(sample) : {}] for
    [sample = elements[0] || null] *)
Definition sample_attributes (elements : list Element)
  : list (string * string) :=
  match elements with
  | sample :: _ => extractAttributes sample
  | [] => []
  end.

(** [inspectDom], on the list [Array.from(domRoot.querySelectorAll("*"))]. *)
Definition inspectDom (all : list Element) : DomResult :=
  let '(byTag, byClass) :=
    forEach all 0
      (fun el _ '(byTag, byClass) =>
         let tag := toLowerCase (tagName el) in
         let byTag := Map_push byTag tag el in
         let byClass :=
           forEach (classList el) 0
             (fun cls _ byClass => Map_push byClass ("." ++ cls) el)
             byClass in
         (byTag, byClass))
      ([], []) in
  let '(tagSummaries, virtualObjects) :=
    forEach byTag 0
      (fun '(tag, elements) _ '(tagSummaries, virtualObjects) =>
         let selector := tag in
         let id := "dom:tag:" ++ selector in
         let attrs := sample_attributes elements in
         ((tagSummaries
           ++ [ {| selector := selector; count := List.length elements;
                   attributesExample := attrs |} ])%list,
          (virtualObjects
           ++ [ DomVO id "dom-tag" selector (List.length elements) attrs ])%list))
      ([], []) in
  let '(classSummaries, virtualObjects) :=
    forEach byClass 0
      (fun '(clsSelector, elements) _ '(classSummaries, virtualObjects) =>
         let selector := clsSelector in
         let id := "dom:class:" ++ selector in
         let attrs := sample_attributes elements in
         ((classSummaries
           ++ [ {| selector := selector; count := List.length elements;
                   attributesExample := attrs |} ])%list,
          (virtualObjects
           ++ [ DomVO id "dom-class" selector (List.length elements) attrs ])%list))
      ([], virtualObjects) in
  let domSheet :=
    {| tagSummaries := tagSummaries;
       classSummaries := classSummaries;
       totalNodes := List.length all |} in
  {| dom_domSheets := [ domSheet ];
     dom_virtualObjects := virtualObjects;
     dom_relationships := [] |}.

Record Summary : Type := {
  totalVirtualObjects : nat;
  totalRelationships : nat;
  hasDomSheets : bool
}.

Definition buildSummary (virtualObjects : list VirtualObject)
  (relationships : list Relationship) (domSheets : list DomSheet) : Summary :=
  {| totalVirtualObjects := List.length virtualObjects;
     totalRelationships := List.length relationships;
     hasDomSheets := Nat.ltb 0 (List.length domSheets) |}.

Record Excavation : Type := {
  root : Def;
  virtualObjects : list VirtualObject;
  relationships : list Relationship;
  domSheets : list DomSheet;
  summary : Summary
}.

(** [excavate(value, domRoot = null)].  [domRoot] is [Some all] for a root
    whose [querySelectorAll] is a function that answers [all], [None] for
    [null] and for any other value. *)
Definition excavate (this : VirtualObjectExcavator) (value : Node)
  (domRoot : option (list Element)) : Excavation :=
  let rootId := "root" in
  let (valueDef, st) :=
    inspectValue this (maxDepth this + 2) value rootId 0
      {| visited := []; found := []; links := [] |} in
  let virtualObjects := found st in
  let relationships := links st in
  let domSheets : list DomSheet := [] in
  let '(domSheets, virtualObjects, relationships) :=
    match domRoot with
    | Some all =>
        if includeDom this then
          let domResult := inspectDom all in
          ((domSheets ++ dom_domSheets domResult)%list,
           (virtualObjects ++ dom_virtualObjects domResult)%list,
           (relationships ++ dom_relationships domResult)%list)
        else (domSheets, virtualObjects, relationships)
    | None => (domSheets, virtualObjects, relationships)
    end in
  {| root := valueDef;
     virtualObjects := virtualObjects;
     relationships := relationships;
     domSheets := domSheets;
     summary := buildSummary virtualObjects relationships domSheets |}.

End Excavator.

(** ** Specification-side definitions *)

(** *** The engine of the worked examples

    [Number::toString] in radix 10: the shortest digits that read back as
    the same double, laid out as the engine lays them out. *)
Module NumberToString.
Import QArith Qround Qabs.
Local Open Scope Q_scope.

(** The value [m * 2^e] of a finite double. *)
Definition value (m : positive) (e : Z) : Q := inject_Z (Zpos m) * Qpower 2 e.

(** The reals that round to [m * 2^e]: from halfway to the double below to
    halfway to the double above, the ends included when [m] is even. *)
Definition low (m : positive) (e : Z) : Q :=
  if Pos.eqb m (2 ^ 52) && Z.ltb (-1074) e
  then value m e - Qpower 2 (e - 2)
  else value m e - Qpower 2 (e - 1).

Definition high (m : positive) (e : Z) : Q := value m e + Qpower 2 (e - 1).

Definition Qlt_bool (a b : Q) : bool := negb (Qle_bool b a).

Definition rounds_to (m : positive) (e : Z) (d : Q) : bool :=
  if Z.even (Zpos m)
  then Qle_bool (low m e) d && Qle_bool d (high m e)
  else Qlt_bool (low m e) d && Qlt_bool d (high m e).

(** The least [n] with [x < 10^n]. *)
Definition magnitude (x : Q) : Z :=
  match find (fun n => Qlt_bool x (Qpower 10 n))
             (map (fun i => Z.of_nat i - 324)%Z (seq 0 640)) with
  | Some n => n
  | None => 316%Z
  end.

(** The decimals [s * 10^(n-k)] of [k] digits that round to the double. *)
Definition candidates (m : positive) (e : Z) (k n0 : Z) : list (Z * Z) :=
  flat_map
    (fun n =>
       let f := Qfloor (value m e / Qpower 10 (n - k)) in
       filter
         (fun c =>
            Z.leb (10 ^ (k - 1)) (fst c) && Z.ltb (fst c) (10 ^ k)
            && rounds_to m e (inject_Z (fst c) * Qpower 10 (n - k)))
         [ (f, n); ((f + 1)%Z, n) ])
    [ (n0 - 1)%Z; n0; (n0 + 1)%Z ].

Definition distance (m : positive) (e : Z) (k : Z) (c : Z * Z) : Q :=
  Qabs (inject_Z (fst c) * Qpower 10 (snd c - k) - value m e).

(** The closest candidate, the even one of two equally close. *)
Definition closest (m : positive) (e : Z) (k : Z) (l : list (Z * Z))
  : option (Z * Z) :=
  fold_left
    (fun best c =>
       match best with
       | None => Some c
       | Some b =>
           if Qlt_bool (distance m e k c) (distance m e k b) then Some c
           else if Qeq_bool (distance m e k c) (distance m e k b)
                   && Z.even (fst c)
           then Some c
           else Some b
       end)
    l None.

(** The shortest digits: the least [k] that has a candidate; 17 digits
    always have one. *)
Fixpoint shortest (m : positive) (e : Z) (n0 : Z) (k : Z) (fuel : nat)
  : Z * Z * Z :=
  match fuel with
  | O => (Qfloor (value m e / Qpower 10 (n0 - k)), k, n0)
  | S fuel' =>
      match closest m e k (candidates m e k n0) with
      | Some (s, n) => (s, k, n)
      | None => shortest m e n0 (k + 1)%Z fuel'
      end
  end.

Fixpoint zeros (n : nat) : string :=
  match n with
  | O => EmptyString
  | S n' => String "0" (zeros n')
  end.

(** The text from the digits [s], their number [k] and the position [n] of
    the decimal point. *)
Definition layout (s k n : Z) : string :=
  let digits := Z_to_string s in
  if Z.leb k n && Z.leb n 21 then digits ++ zeros (Z.to_nat (n - k))
  else if Z.ltb 0 n && Z.leb n 21 then
    String.substring 0 (Z.to_nat n) digits ++ "."
    ++ String.substring (Z.to_nat n) (Z.to_nat (k - n)) digits
  else if Z.ltb (-6) n && Z.leb n 0 then
    "0." ++ zeros (Z.to_nat (- n)) ++ digits
  else
    let exponent := (n - 1)%Z in
    let sign := if Z.ltb exponent 0 then "-" else "+" in
    (if Z.eqb k 1 then digits
     else String.substring 0 1 digits ++ "."
          ++ String.substring 1 (Z.to_nat (k - 1)) digits)
    ++ "e" ++ sign ++ Z_to_string (Z.abs exponent).

Definition toString (x : float) : string :=
  match Prim2SF x with
  | S754_zero _ => "0"
  | S754_finite negative m e =>
      let '(s, k, n) := shortest m e (magnitude (value m e)) 1 17 in
      (if negative then "-" else EmptyString) ++ layout s k n
  | S754_infinity negative => if negative then "-Infinity" else "Infinity"
  | S754_nan => "NaN"
  end.

End NumberToString.

(** The backslash, as a one-character string. *)
Definition backslash : string := String (ascii_of_nat 92) EmptyString.

Definition hex_of (n : nat) : string :=
  String.substring n 1 "0123456789abcdef".

(** [QuoteJSONString] on one code unit below 256 and on a string: the quote,
    the backslash and the control characters are escaped. *)
Definition escape_unit (c : ascii) : string :=
  let n := nat_of_ascii c in
  if Nat.eqb n 8 then backslash ++ "b"
  else if Nat.eqb n 9 then backslash ++ "t"
  else if Nat.eqb n 10 then backslash ++ "n"
  else if Nat.eqb n 12 then backslash ++ "f"
  else if Nat.eqb n 13 then backslash ++ "r"
  else if Nat.eqb n 34 then backslash ++ dq
  else if Nat.eqb n 92 then backslash ++ backslash
  else if Nat.ltb n 32 then
    backslash ++ "u00" ++ hex_of (n / 16) ++ hex_of (n mod 16)
  else String c EmptyString.

Definition QuoteJSONString (s : string) : string :=
  dq ++ String.concat EmptyString (map escape_unit (list_ascii_of_string s))
  ++ dq.

(** [SerializeJSONProperty] on the values of this development, where every
    call of a function object answers [undefined]: [None] stands for the
    [undefined] that [JSON.stringify] gives for [undefined], a symbol, a
    function, and an object whose own [toJSON] is a function.  In an array
    such an element is written [null], in an object the member is left
    out; a number that is not finite is written [null], and a BigInt
    raises. *)
Fixpoint SerializeJSONProperty (v : JsValue) : Result (option string) :=
  match v with
  | JUndefined | JSymbol _ | JFun _ => Ok None
  | JNull => Ok (Some "null")
  | JBool b => Ok (Some (if b then "true" else "false"))
  | JNum x =>
      Ok (Some (if is_finite x then NumberToString.toString x else "null"))
  | JBigInt _ => Throw (TypeError "Do not know how to serialize a BigInt")
  | JStr s => Ok (Some (QuoteJSONString s))
  | JArr items =>
      parts <-
        (fix elements (l : list JsValue) : Result (list string) :=
           match l with
           | [] => Ok []
           | x :: rest =>
               sx <- SerializeJSONProperty x ;;
               sr <- elements rest ;;
               Ok (match sx with
                   | Some text => text
                   | None => "null"
                   end :: sr)
           end) items ;;
      Ok (Some ("[" ++ join "," parts ++ "]"))
  | JObj props =>
      match own props "toJSON" with
      | Some (JFun _) => Ok None
      | _ =>
          parts <-
            (fix members (l : Props) : Result (list string) :=
               match l with
               | [] => Ok []
               | (key, x) :: rest =>
                   sx <- SerializeJSONProperty x ;;
                   sr <- members rest ;;
                   Ok (match sx with
                       | Some text =>
                           (QuoteJSONString key ++ ":" ++ text) :: sr
                       | None => sr
                       end)
               end) props ;;
          Ok (Some ("{" ++ join "," parts ++ "}"))
      end
  end.

(** A host for the worked examples: the clock stopped at
    2023-11-14T22:13:20Z, numbers rendered and values serialized as the
    engine does, and function objects that all answer [undefined]. *)
Definition example_host : Host :=
  {| numberToString := NumberToString.toString;
     callFunction := fun _ _ => Ok JUndefined;
     JSON_stringify :=
       fun v =>
         r <- SerializeJSONProperty v ;;
         Ok (match r with
             | Some text => JStr text
             | None => JUndefined
             end);
     Date_now := 1700000000000%float;
     Date_toISOString := "2023-11-14T22:13:20.000Z" |}.

Definition structured_tags : list string :=
  [ ALNPrimitives.VIRTUAL_OBJECT; ALNPrimitives.INTENT; ALNPrimitives.PLAN;
    ALNPrimitives.SIGNAL ].

Definition known_tags : list string :=
  [ ALNPrimitives.STRING; ALNPrimitives.NUMBER; ALNPrimitives.BOOLEAN;
    ALNPrimitives.OBJECT; ALNPrimitives.ARRAY ] ++ structured_tags.

(** The structural rule of each tag, in the spec's words: a string; a number
    that is neither NaN nor an infinity; a boolean; an object that is neither
    null nor an array; an array; for the four structured tags, any object
    but null, arrays included. *)
Inductive conforms : JsValue -> string -> Prop :=
| conforms_string (s : string) : conforms (JStr s) ALNPrimitives.STRING
| conforms_number (x : float) :
    is_nan x = false -> is_infinity x = false ->
    conforms (JNum x) ALNPrimitives.NUMBER
| conforms_boolean (b : bool) : conforms (JBool b) ALNPrimitives.BOOLEAN
| conforms_object (props : Props) : conforms (JObj props) ALNPrimitives.OBJECT
| conforms_array (items : list JsValue) :
    conforms (JArr items) ALNPrimitives.ARRAY
| conforms_structured_object (props : Props) (tag : string) :
    In tag structured_tags -> conforms (JObj props) tag
| conforms_structured_array (items : list JsValue) (tag : string) :
    In tag structured_tags -> conforms (JArr items) tag.

(** A validator accepts: it returns, with [valid] true. *)
Definition accepts (r : Result Primitive.result) : Prop :=
  exists res, r = Ok res /\ Primitive.valid res = true.

(** A validator rejects: it returns, with [valid] false and a message. *)
Definition rejects (r : Result Primitive.result) : Prop :=
  exists msg, r = Ok (Primitive.reject msg).

(** The outcome of the check of one value against one tag, as a boolean:
    true when [validatePrimitive] returns [valid = true]. *)
Definition primitive_ok (h : Host) (value primitive : JsValue) : bool :=
  match validatePrimitive h value primitive with
  | Ok r => Primitive.valid r
  | Throw _ => false
  end.

(** The three kinds of violation [validateShape] reports. *)
Definition missing (payload : Props) (entry : string * JsValue) : bool :=
  negb (HasProperty payload (fst entry)).

Definition mistyped (h : Host) (payload : Props) (entry : string * JsValue)
  : bool :=
  HasProperty payload (fst entry)
  && negb (primitive_ok h (Get payload (fst entry)) (snd entry)).

Definition unexpected (shape : Props) (key : string) : bool :=
  negb (mem key (keys shape)).

Definition count {A : Type} (p : A -> bool) (l : list A) : nat :=
  List.length (filter p l).

(** The tags of a shape are strings, and a field checked against the number
    tag holds a value that converts to a string. *)
Definition renderable (h : Host) (payload : Props) (entries : Props) : Prop :=
  forall field primitive,
    In (field, primitive) entries ->
    exists tag,
      primitive = JStr tag
      /\ (tag = ALNPrimitives.NUMBER ->
          returns (String_ h (Get payload field))).

Definition common_errors : list string :=
  [ id_error; kind_error; timestamp_error; payload_error; meta_error ].

(** The envelope [createIntentRequest] assembles. *)
Definition intent_request_envelope (h : Host)
  (id intentName inputPayload meta : JsValue) : JsValue :=
  JObj ([ ("id", id);
          ("kind", JStr ALNMessageKinds.INTENT_REQUEST);
          ("intent", intentName);
          ("timestamp", JNum (Date_now h));
          ("payload", inputPayload) ] ++ spread_meta meta)%list.

(** The merge of the caller's constraints over the defaults, before any
    field is normalized. *)
Definition merged_constraints (k : ALNKernel) (constraints : JsValue) : Props :=
  spread (defaults k) (or_empty constraints).

(** The normalized value of each field, from its merged value alone. *)
Definition normal_language (v : JsValue) : JsValue :=
  if String.eqb (typeof v) "string"
     && negb (String.eqb (trim (string_of v)) EmptyString)
  then JStr (trim (string_of v))
  else JStr "JavaScript".

Definition normal_bound (k : ALNKernel) (v : JsValue) : JsValue :=
  if Number_isFinite v && negb (number_of v <=? 0)%float then v
  else JNum (maxReplicationHours k).

Definition normal_list (v : JsValue) : JsValue :=
  if Array_isArray v then v else JArr [].

Definition default_options : ALNKernelOptions :=
  {| opt_modelId := None; opt_maxReplicationHours := JUndefined |}.


Definition nonempty {A : Type} (l : list A) : bool :=
  match l with
  | [] => false
  | _ :: _ => true
  end.

(** The steps of a plan, in the spec's words: four fixed steps in order, with
    the compliance step after the second when a jurisdiction or a provider
    policy is declared, and the context step after the integrity step when
    the context has a key. *)
Definition expected_steps (jurisdictions policies : list JsValue)
  (contextKeys : list string) : list string :=
  ([ "analyze-intent"; "design-structure" ]
   ++ (if nonempty jurisdictions || nonempty policies
       then [ "compliance-alignment" ] else [])
   ++ [ "enforce-integrity" ]
   ++ (if nonempty contextKeys then [ "context-alignment" ] else [])
   ++ [ "replication-strategy" ])%list.

(** The context can be serialized when the context step needs it. *)
Definition serializable (h : Host) (context : JsValue) : Prop :=
  keys (own_enumerable (or_empty context)) = []
  \/ exists text, JSON_stringify h context = Ok (JStr text).

(** [keyword] occurs in [text] up to the case of letters. *)
Definition ci_contains (text keyword : string) : Prop :=
  exists before found after,
    text = before ++ found ++ after /\ toLowerCase found = keyword.

Definition mentions (text : string) (keywords : list string) : Prop :=
  exists keyword, In keyword keywords /\ ci_contains text keyword.

(** The classification rules of the spec, in priority order. *)
Definition intent_rules : list (list string * string) :=
  [ ([ "workflow"; "github" ], "ci_workflow");
    ([ "repo"; "repository" ], "repository_plan");
    ([ "python"; "notebook" ], "python_interop");
    ([ "policy"; "compliance" ], "policy_plan") ].

(** The first rule that matches wins; [general_plan] when none does. *)
Inductive first_rule (text : string)
  : list (list string * string) -> string -> Prop :=
| first_rule_default : first_rule text [] "general_plan"
| first_rule_match (keywords : list string) (kind : string)
    (rest : list (list string * string)) :
    mentions text keywords ->
    first_rule text ((keywords, kind) :: rest) kind
| first_rule_skip (keywords : list string) (kind : string)
    (rest : list (list string * string)) (result : string) :
    ~ mentions text keywords ->
    first_rule text rest result ->
    first_rule text ((keywords, kind) :: rest) result.

(** The rules of a message envelope, field by field, as own properties of
    the message: none of the field names is a member of [Object.prototype],
    so an absent field reads [undefined]. *)
Definition nonempty_string (v : JsValue) : Prop :=
  exists s, v = JStr s /\ s <> EmptyString.

(** A value [typeof] calls an object and that is not [null]: a plain object
    or an array. *)
Definition object_or_array (v : JsValue) : Prop :=
  (exists props, v = JObj props) \/ (exists items, v = JArr items).

(** [meta] as a factory receives it: left out when falsy, a plain object
    otherwise. *)
Definition meta_accepted (meta : JsValue) : Prop :=
  ToBoolean meta = false \/ exists props, meta = JObj props.

Definition envelope_rules (m : Props) : Prop :=
  (exists id, own m "id" = Some id /\ nonempty_string id)
  /\ (exists kind, own m "kind" = Some (JStr kind) /\ In kind allowedKinds)
  /\ (exists x, own m "timestamp" = Some (JNum x) /\ is_finite x = true)
  /\ (exists payload, own m "payload" = Some payload /\ object_or_array payload)
  /\ (own m "meta" = None \/ exists props, own m "meta" = Some (JObj props))
  /\ (forall kind,
        own m "kind" = Some (JStr kind) -> In kind intentKinds ->
        exists name,
          own m "intent" = Some (JStr name) /\ name <> EmptyString
          /\ ALNSpec_intents_get name <> Missing).

(** The envelope a factory assembles: [intent] only on the intent-bearing
    factories, [meta] only when truthy. *)
Definition assembled (id : JsValue) (kind : string) (intent : option JsValue)
  (now : float) (payload meta : JsValue) : Props :=
  ([ ("id", id); ("kind", JStr kind) ]
   ++ match intent with
      | Some name => [ ("intent", name) ]
      | None => []
      end
   ++ [ ("timestamp", JNum now); ("payload", payload) ]
   ++ spread_meta meta)%list.

(** The last step of every factory: validate the assembled envelope, return
    it or raise with the errors joined. *)
Definition envelope_gate (label : string) (m : Props) : Result JsValue :=
  envelopeValidation <- validateMessageEnvelope (JObj m) ;;
  if negb (valid envelopeValidation) then
    Throw (Error (label ++ join "; " (errors envelopeValidation)))
  else Ok (JObj m).

(** The message [validateShape] gives for an own key the shape leaves out. *)
Definition unexpected_error (key : string) : string :=
  "Unexpected field " ++ dq ++ key ++ dq ++ " not defined in shape".

(** The sixteen lowercase hexadecimal digits. *)
Definition hex_digits : list ascii := list_ascii_of_string "0123456789abcdef".

(** The six fields [_normalizeConstraints] rewrites. *)
Definition normalized_names : list string :=
  [ "language"; "requireCompleteness"; "forbidPlaceholders";
    "maxReplicationTimeHours"; "jurisdictions"; "providerPolicies" ].

(** *** Reading a definition tree *)

Module ExcavatorSpec.
Import Excavator.

(** Every definition at [level] nestings below [d] is a depth-limit stub. *)
Fixpoint stubs_at (level : nat) (d : Def) : Prop :=
  match level with
  | O => exists id, d = DepthLimitDef id
  | Datatypes.S below =>
      match d with
      | ArrayDef _ _ _ _ elementSamples =>
          Forall (stubs_at below) elementSamples
      | ObjectDef _ _ fields =>
          Forall (fun entry => stubs_at below (snd entry)) fields
      | _ => True
      end
  end.

(** [P] holds of [d] and of every definition nested in it. *)
Fixpoint every (P : Def -> Prop) (d : Def) : Prop :=
  P d
  /\ match d with
     | ArrayDef _ _ _ _ elementSamples =>
         (fix all (l : list Def) : Prop :=
            match l with
            | [] => True
            | x :: rest => every P x /\ all rest
            end) elementSamples
     | ObjectDef _ _ fields =>
         (fix all (l : list (string * Def)) : Prop :=
            match l with
            | [] => True
            | (_, x) :: rest => every P x /\ all rest
            end) fields
     | _ => True
     end.

(** What the definition of an array says about its sample, for an
    excavator that samples at most [limit] elements, [limit] a non-negative
    integer. *)
Definition sample_rule (limit : nat) (d : Def) : Prop :=
  match d with
  | ArrayDef _ length sampled elementKinds elementSamples =>
      sampled = Nat.min limit length
      /\ List.length elementSamples = sampled
      /\ NoDup elementKinds
      /\ forall kind,
           In kind elementKinds
           <-> exists sample, In sample elementSamples /\ def_kind sample = kind
  | _ => True
  end.

(** A relationship is a field link from a recorded struct to the
    identifier of the field under it. *)
Definition anchored (found : list VirtualObject) (r : Relationship) : Prop :=
  relation r = "field"
  /\ to r = from r ++ "." ++ field r
  /\ exists vo,
       In vo found /\ vo_id vo = from r /\ vo_category vo = "struct".

(** What a call that was given the identifier [id] adds to the store: it
    only appends, every link it adds is anchored among the virtual objects
    it adds, and the identifiers it records extend [id]. *)
Definition grows (id : string) (st st' : Store) : Prop :=
  exists added_found added_links,
    found st' = (found st ++ added_found)%list
    /\ links st' = (links st ++ added_links)%list
    /\ incl (visited st) (visited st')
    /\ (forall r,
          In r added_links ->
          anchored added_found r /\ exists suffix, from r = id ++ suffix)
    /\ (forall vo,
          In vo added_found -> exists suffix, vo_id vo = id ++ suffix).

(** The same while the fields of the object [id] are walked: its own links
    wait for the struct that is recorded after the last field. *)
Definition grows_pending (id : string) (st st' : Store) : Prop :=
  exists added_found added_links,
    found st' = (found st ++ added_found)%list
    /\ links st' = (links st ++ added_links)%list
    /\ incl (visited st) (visited st')
    /\ (forall r,
          In r added_links ->
          (forall vo,
             vo_id vo = id -> vo_category vo = "struct" ->
             anchored (added_found ++ [ vo ])%list r)
          /\ exists suffix, from r = id ++ suffix)
    /\ (forall vo,
          In vo added_found -> exists suffix, vo_id vo = id ++ suffix).

Definition sum (l : list nat) : nat := fold_right Nat.add 0 l.

(** The category of the virtual object recorded with a definition of
    [kind]; [None] for the kinds that record nothing. *)
Definition recorded_category (kind : string) : option string :=
  if String.eqb kind "primitive" then Some "primitive"
  else if String.eqb kind "function" then Some "function"
  else if String.eqb kind "array" then Some "collection"
  else if String.eqb kind "object" then Some "struct"
  else None.

End ExcavatorSpec.


(** The number of elements a grouping holds, over all its keys. *)
Definition grouped {A : Type} (m : list (string * list A)) : nat :=
  ExcavatorSpec.sum (map (fun entry => List.length (snd entry)) m).

(** ** Theorems *)

(** *** Completions *)

Lemma bind_Ok {A B : Type} (r : Result A) (k : A -> Result B) (b : B) :
  bind r k = Ok b <-> exists a, r = Ok a /\ k a = Ok b.
Proof.
  destruct r as [a | e]; simpl; split.
  - intros H. exists a. auto.
  - intros (a' & Ha & Hk). inversion Ha. subst. exact Hk.
  - discriminate.
  - intros (a' & Ha & _). discriminate.
Qed.

Lemma bind_returns {A B : Type} (r : Result A) (k : A -> Result B) :
  returns r -> (forall a, returns (k a)) -> returns (bind r k).
Proof.
  intros [a ->] Hk. simpl. apply Hk.
Qed.

Lemma returns_Ok {A : Type} (a : A) : returns (Ok a).
Proof. exists a. reflexivity. Qed.


(** *** The primitive validator *)

Ltac tag_cases tag :=
  destruct (string_dec tag ALNPrimitives.STRING) as [-> | ];
  [ | destruct (string_dec tag ALNPrimitives.NUMBER) as [-> | ];
  [ | destruct (string_dec tag ALNPrimitives.BOOLEAN) as [-> | ];
  [ | destruct (string_dec tag ALNPrimitives.OBJECT) as [-> | ];
  [ | destruct (string_dec tag ALNPrimitives.ARRAY) as [-> | ];
  [ | destruct (string_dec tag ALNPrimitives.VIRTUAL_OBJECT) as [-> | ];
  [ | destruct (string_dec tag ALNPrimitives.INTENT) as [-> | ];
  [ | destruct (string_dec tag ALNPrimitives.PLAN) as [-> | ];
  [ | destruct (string_dec tag ALNPrimitives.SIGNAL) as [-> | ] ]]]]]]]].

Lemma is_finite_split (x : float) :
  is_finite x = true <-> is_nan x = false /\ is_infinity x = false.
Proof.
  unfold is_finite. rewrite negb_true_iff, orb_false_iff. tauto.
Qed.

(** On a tag outside the closed set the validator reaches its default
    branch. *)
Lemma validatePrimitive_unknown (h : Host) (value : JsValue) (tag : string) :
  ~ In tag known_tags ->
  validatePrimitive h value (JStr tag)
  = Ok (Primitive.reject ("Unknown primitive type: " ++ tag)).
Proof.
  intros Hn. unfold validatePrimitive, is_string.
  repeat match goal with
  | |- context [String.eqb tag ?c] =>
      destruct (String.eqb_spec tag c) as [-> | _];
      [ exfalso; apply Hn; simpl; tauto | ]
  end.
  reflexivity.
Qed.

Lemma conforms_known (value : JsValue) (tag : string) :
  conforms value tag -> In tag known_tags.
Proof.
  intros H. destruct H; simpl; try tauto;
    match goal with H : In _ structured_tags |- _ => simpl in H; tauto end.
Qed.

Ltac refute_accepts H :=
  let res := fresh "res" in
  let Hr := fresh "Hr" in
  let Hv := fresh "Hv" in
  destruct H as (res & Hr & Hv);
  cbn in Hr;
  repeat match type of Hr with
  | context [bind ?r _] => destruct r; cbn in Hr
  | context [if ?c then _ else _] => destruct c eqn:?; cbn in Hr
  end;
  try discriminate Hr;
  try (inversion Hr; subst; cbn in Hv; discriminate Hv).

Ltac refute_conforms H :=
  inversion H; subst;
  repeat match goal with
  | Hin : In _ structured_tags |- _ =>
      simpl in Hin; decompose [or] Hin; clear Hin; try discriminate; try tauto
  end.

(** C2. For every value and every tag, [validatePrimitive] returns
    [valid = true] exactly when the value matches the structural rule of the
    tag: a string, a finite number (NaN and the infinities are rejected), a
    boolean, a non-null non-array object, an array, or for the four
    structured tags a non-null structured value; and a tag outside the
    closed set is answered [valid = false]. *)
Theorem validatePrimitive_structural_rule :
  forall (h : Host) (value : JsValue) (tag : string),
    (accepts (validatePrimitive h value (JStr tag)) <-> conforms value tag)
    /\ (~ In tag known_tags -> rejects (validatePrimitive h value (JStr tag))).
Proof.
  intros h value tag. split.
  2: { intros Hn. eexists. apply validatePrimitive_unknown. exact Hn. }
  tag_cases tag.
  10: {
    split.
    - intros (res & Hr & Hv).
      rewrite validatePrimitive_unknown in Hr
        by (simpl; intuition congruence).
      inversion Hr. subst. cbn in Hv. discriminate Hv.
    - intros Hc. apply conforms_known in Hc. simpl in Hc.
      exfalso. intuition congruence. }
  all: split;
    [ intros Ha; destruct value; try (exfalso; refute_accepts Ha; fail)
    | intros Hc; refute_conforms Hc ].
  all: try (constructor; simpl; tauto).
  all: try (eexists; split; [ reflexivity | reflexivity ]).
  - (* a number accepted is finite *)
    destruct Ha as (res & Hr & Hv). cbn in Hr.
    destruct (is_finite x) eqn:Hf.
    + apply is_finite_split in Hf. constructor; tauto.
    + cbn in Hr. apply bind_Ok in Hr as (shown & _ & Hk).
      inversion Hk. subst. cbn in Hv. discriminate Hv.
  - (* a finite number is accepted *)
    exists Primitive.accept. split; [ | reflexivity ].
    cbn. replace (is_finite x) with true; [ reflexivity | ].
    symmetry. apply is_finite_split. tauto.
Qed.

(** C10. Every array passes [validatePrimitive] under each of the four
    structured tags, whose rule asks only for a non-null object, while the
    same array is rejected under [aln::object]; so a shape field declared
    with a structured tag accepts an array at [validateShape]. *)
Theorem structured_tags_accept_arrays :
  forall (h : Host) (items : list JsValue),
    Forall (fun tag => accepts (validatePrimitive h (JArr items) (JStr tag)))
      structured_tags
    /\ rejects (validatePrimitive h (JArr items) (JStr ALNPrimitives.OBJECT))
    /\ forall field : string,
         Forall (fun tag =>
                   validateShape h (JObj [ (field, JArr items) ])
                     (JObj [ (field, JStr tag) ]) false
                   = Ok {| valid := true; errors := [] |})
           structured_tags.
Proof.
  intros h items. split; [ | split ].
  - repeat constructor; exists Primitive.accept; split; reflexivity.
  - eexists. reflexivity.
  - intros field.
    unfold structured_tags. repeat apply Forall_cons; try apply Forall_nil.
    all: unfold validateShape, check_field, check_key, HasProperty, Get.
    all: cbn; repeat (rewrite String.eqb_refl; cbn).
    all: reflexivity.
Qed.

(** *** The shape validator *)

Lemma check_field_adds (h : Host) (payload : Props) (entry : string * JsValue)
  (acc errs : list string) :
  check_field h payload entry acc = Ok errs ->
  exists added,
    errs = (acc ++ added)%list
    /\ List.length added
       = (if missing payload entry then 1 else 0)
         + (if mistyped h payload entry then 1 else 0).
Proof.
  unfold check_field, missing, mistyped, primitive_ok, push.
  destruct entry as [field primitive]. cbn [fst snd].
  destruct (HasProperty payload field); cbn [negb andb].
  - destruct (validatePrimitive h (Get payload field) primitive) as [r | e];
      cbn [bind]; [ | discriminate ].
    destruct (Primitive.valid r); cbn [negb]; intros H; inversion H; subst.
    + exists []. rewrite app_nil_r. split; reflexivity.
    + eexists. split; reflexivity.
  - destruct (ToString h (primitiveLabel primitive)) as [label | e];
      cbn [bind]; [ | discriminate ].
    intros H; inversion H; subst. eexists. split; reflexivity.
Qed.

Lemma for_of_check_field (h : Host) (payload : Props)
  (entries : Props) :
  forall acc errs,
    for_of entries (check_field h payload) acc = Ok errs ->
    exists added,
      errs = (acc ++ added)%list
      /\ List.length added
         = count (missing payload) entries
           + count (mistyped h payload) entries.
Proof.
  unfold count.
  induction entries as [ | entry rest IH ]; intros acc errs H; cbn in H.
  - inversion H; subst. exists []. rewrite app_nil_r. split; reflexivity.
  - apply bind_Ok in H as (mid & Hstep & Hrest).
    apply check_field_adds in Hstep as (a1 & -> & Hlen1).
    apply IH in Hrest as (a2 & -> & Hlen2).
    exists (a1 ++ a2)%list. split.
    + rewrite app_assoc. reflexivity.
    + rewrite length_app, Hlen1, Hlen2. cbn [filter].
      destruct (missing payload entry), (mistyped h payload entry);
        cbn [List.length]; lia.
Qed.

Lemma for_of_check_key (allowedFields : list string) (ks : list string) :
  forall acc,
    exists added,
      for_of ks (check_key allowedFields) acc = Ok (acc ++ added)%list
      /\ List.length added
         = count (fun key => negb (mem key allowedFields)) ks.
Proof.
  unfold count.
  induction ks as [ | key rest IH ]; intros acc; cbn.
  - exists []. rewrite app_nil_r. split; reflexivity.
  - unfold check_key at 1.
    destruct (mem key allowedFields); cbn [negb bind filter].
    + apply IH.
    + destruct (IH (push acc ("Unexpected field " ++ dq ++ key ++ dq
                                ++ " not defined in shape")))
        as (added & Heq & Hlen).
      eexists. split.
      * rewrite Heq. unfold push. rewrite <- app_assoc. reflexivity.
      * cbn [List.length app]. rewrite Hlen. reflexivity.
Qed.

Lemma Object_entries_Ok (v : JsValue) (entries : Props) :
  Object_entries v = Ok entries -> entries = own_enumerable v.
Proof.
  destruct v; cbn; intros H; inversion H; reflexivity.
Qed.

Lemma validateShape_error_count :
  forall (h : Host) (payload : Props) (shape : JsValue) (r : Validation),
    validateShape h (JObj payload) shape false = Ok r ->
    List.length (errors r)
    = count (missing payload) (own_enumerable shape)
      + count (mistyped h payload) (own_enumerable shape)
      + count (unexpected (own_enumerable shape)) (keys payload)
    /\ valid r = Nat.eqb (List.length (errors r)) 0.
Proof.
  intros h payload shape r H. unfold validateShape in H. cbn in H.
  apply bind_Ok in H as (entries & Hentries & H).
  apply Object_entries_Ok in Hentries. subst entries.
  apply bind_Ok in H as (errs1 & Hfields & H).
  apply for_of_check_field in Hfields as (a1 & -> & Hlen1).
  apply bind_Ok in H as (errs2 & Hkeys & H).
  unfold Object_keys in Hkeys.
  apply bind_Ok in Hkeys as (allowed & Hallowed & Hkeys).
  apply bind_Ok in Hallowed as (entries & Hentries & Hallowed).
  apply Object_entries_Ok in Hentries. subst entries.
  inversion Hallowed; subst allowed. clear Hallowed.
  cbn in Hkeys.
  destruct (for_of_check_key (keys (own_enumerable shape)) (keys payload) a1)
    as (a2 & Heq & Hlen2).
  fold (keys payload) in Hkeys. rewrite Heq in Hkeys. inversion Hkeys; subst errs2. clear Hkeys.
  inversion H; subst r. unfold report. cbn [errors valid].
  split; [ | reflexivity ].
  rewrite length_app, Hlen1, Hlen2. reflexivity.
Qed.

(** When [validateShape] returns on a plain object, it has reported every
    violation in one pass: one error for each field of the shape the payload
    lacks, one for each field present with a value of the wrong type, and
    one for each key of the payload the shape does not define. *)
Theorem validateShape_reports_every_violation :
  forall (h : Host) (payload : Props) (shape : JsValue) (r : Validation),
    validateShape h (JObj payload) shape false = Ok r ->
    List.length (errors r)
    = count (missing payload) (own_enumerable shape)
      + count (mistyped h payload) (own_enumerable shape)
      + count (unexpected (own_enumerable shape)) (keys payload).
Proof.
  intros h payload shape r H.
  apply validateShape_error_count in H as [Hlen _]. exact Hlen.
Qed.

(** A payload with a field of the wrong type, a field missing and a key the
    shape does not define gets three errors. *)
Lemma validateShape_reports_every_violation_witness :
  exists r,
    validateShape example_host
      (JObj [ ("name", JNum 1); ("extra", JBool true) ])
      (JObj [ ("name", JStr ALNPrimitives.STRING);
              ("description", JStr ALNPrimitives.STRING) ]) false
    = Ok r
    /\ List.length (errors r) = 3.
Proof.
  eexists. split; [ reflexivity | ].
  rewrite (validateShape_reports_every_violation example_host
             [ ("name", JNum 1); ("extra", JBool true) ]
             (JObj [ ("name", JStr ALNPrimitives.STRING);
                     ("description", JStr ALNPrimitives.STRING) ])
             _ eq_refl).
  reflexivity.
Defined.

Lemma count_zero {A : Type} (p : A -> bool) (l : list A) :
  count p l = 0 <-> forall x, In x l -> p x = false.
Proof.
  unfold count. induction l as [ | a l IH ]; cbn.
  - split; [ intros _ x [] | reflexivity ].
  - destruct (p a) eqn:Hp; cbn.
    + split; [ discriminate | ].
      intros H. rewrite (H a) in Hp by (left; reflexivity). discriminate.
    + rewrite IH. split.
      * intros H x [<- | Hin]; [ exact Hp | apply H, Hin ].
      * intros H x Hin. apply H. right. exact Hin.
Qed.

Lemma mem_In (key : string) (l : list string) : mem key l = true <-> In key l.
Proof.
  induction l as [ | k l IH ]; cbn.
  - split; [ discriminate | intros [] ].
  - rewrite orb_true_iff, IH, String.eqb_eq. tauto.
Qed.

Lemma primitive_ok_accepts (h : Host) (value primitive : JsValue) :
  primitive_ok h value primitive = true
  <-> accepts (validatePrimitive h value primitive).
Proof.
  unfold primitive_ok, accepts.
  destruct (validatePrimitive h value primitive) as [r | e]; split.
  - intros H. exists r. auto.
  - intros (res & Hr & Hv). inversion Hr; subst. exact Hv.
  - discriminate.
  - intros (res & Hr & _). discriminate.
Qed.

(** [validateShape] answers [valid = true] exactly when every field of the
    shape is found in the payload by the [in] operator with a value its tag
    accepts, and the payload has no own key outside the shape. *)
Theorem validateShape_valid_iff :
  forall (h : Host) (payload : Props) (shape : JsValue) (r : Validation),
    validateShape h (JObj payload) shape false = Ok r ->
    (valid r = true
     <-> (forall field tag,
            In (field, tag) (own_enumerable shape) ->
            HasProperty payload field = true
            /\ accepts (validatePrimitive h (Get payload field) tag))
         /\ (forall key,
               In key (keys payload) -> In key (keys (own_enumerable shape)))).
Proof.
  intros h payload shape r H.
  apply validateShape_error_count in H as [Hlen ->].
  rewrite Nat.eqb_eq, Hlen.
  assert (Hsum : forall a b c : nat, a + b + c = 0 <-> a = 0 /\ b = 0 /\ c = 0)
    by (intros; lia).
  rewrite Hsum, !count_zero. clear Hsum Hlen. split.
  - intros (Hmiss & Htype & Hextra). split.
    + intros field tag Hin.
      specialize (Hmiss _ Hin). specialize (Htype _ Hin).
      unfold missing, mistyped in *. cbn [fst snd] in *.
      apply negb_false_iff in Hmiss. rewrite Hmiss in Htype.
      cbn [andb] in Htype. apply negb_false_iff in Htype.
      split; [ exact Hmiss | apply primitive_ok_accepts, Htype ].
    + intros key Hin. specialize (Hextra _ Hin). unfold unexpected in Hextra.
      apply negb_false_iff in Hextra. apply mem_In, Hextra.
  - intros (Hfields & Hkeys). split; [ | split ].
    + intros [field tag] Hin. destruct (Hfields _ _ Hin) as [Hhas _].
      unfold missing. cbn [fst]. rewrite Hhas. reflexivity.
    + intros [field tag] Hin. destruct (Hfields _ _ Hin) as [Hhas Hacc].
      unfold mistyped. cbn [fst snd]. rewrite Hhas.
      apply primitive_ok_accepts in Hacc. rewrite Hacc. reflexivity.
    + intros key Hin. unfold unexpected. apply negb_false_iff.
      apply mem_In, Hkeys, Hin.
Qed.

(** The hypotheses of [validateShape_valid_iff] hold of a payload that fits
    its shape. *)
Lemma validateShape_valid_iff_witness :
  exists r,
    validateShape example_host (JObj [ ("name", JStr "x") ])
      (JObj [ ("name", JStr ALNPrimitives.STRING) ]) false
    = Ok r
    /\ (valid r = true
        <-> (forall field tag,
               In (field, tag)
                 (own_enumerable (JObj [ ("name", JStr ALNPrimitives.STRING) ])) ->
               HasProperty [ ("name", JStr "x") ] field = true
               /\ accepts (validatePrimitive example_host
                             (Get [ ("name", JStr "x") ] field) tag))
            /\ (forall key,
                  In key (keys [ ("name", JStr "x") ]) ->
                  In key
                    (keys (own_enumerable
                             (JObj [ ("name", JStr ALNPrimitives.STRING) ]))))).
Proof.
  eexists. split; [ reflexivity | ].
  apply (validateShape_valid_iff example_host [ ("name", JStr "x") ]
           (JObj [ ("name", JStr ALNPrimitives.STRING) ]) _ eq_refl).
Defined.

(** Scenario A: a payload lacking [description] gets exactly one error, the
    missing-field one. *)
Example validateShape_scenario_A :
  forall h : Host,
    validateShape h (JObj [ ("name", JStr "x") ])
      (JObj [ ("name", JStr ALNPrimitives.STRING);
              ("description", JStr ALNPrimitives.STRING) ]) false
    = Ok {| valid := false;
            errors := [ "Missing required field " ++ dq ++ "description" ++ dq
                        ++ " (expected string)" ] |}.
Proof. intros h. reflexivity. Qed.

(** C1. A shape with the own key [__proto__] is satisfied by the empty
    payload: [in] finds the accessor every object inherits, and the value it
    reads, [Object.prototype], passes the object tag.  The payload has no
    such key, yet the answer is [valid = true] with no error. *)
Theorem validateShape_accepts_inherited_key :
  forall h : Host,
    own [] "__proto__" = None
    /\ validateShape h (JObj [])
         (JObj [ ("__proto__", JStr ALNPrimitives.OBJECT) ]) false
       = Ok {| valid := true; errors := [] |}.
Proof. intros h. split; reflexivity. Qed.

(** *** The validators and exceptions *)

Lemma String_primitive_returns (h : Host) (v : JsValue) :
  is_primitive v = true -> returns (String_ h v).
Proof.
  destruct v; cbn; try discriminate; intros _; try (eexists; reflexivity).
  destruct (is_nan x); [ eexists; reflexivity | ].
  destruct (abs x =? infinity)%float; eexists; reflexivity.
Qed.

Lemma validatePrimitive_returns (h : Host) (value : JsValue) (tag : string) :
  (tag = ALNPrimitives.NUMBER -> returns (String_ h value)) ->
  returns (validatePrimitive h value (JStr tag)).
Proof.
  intros Hnum. tag_cases tag.
  10: { rewrite validatePrimitive_unknown by (simpl; intuition congruence).
        apply returns_Ok. }
  2: { specialize (Hnum eq_refl). unfold validatePrimitive. cbn.
       destruct (_ && _); [ apply returns_Ok | ].
       apply bind_returns; [ exact Hnum | intros; apply returns_Ok ]. }
  all: cbn; apply returns_Ok.
Qed.

Lemma primitiveLabel_string (tag : string) :
  exists label, primitiveLabel (JStr tag) = JStr label.
Proof.
  unfold primitiveLabel.
  repeat match goal with
  | |- context [if ?c then _ else _] =>
      destruct c; [ eexists; reflexivity | ]
  end.
  eexists. reflexivity.
Qed.

Lemma for_of_check_field_returns (h : Host) (payload : Props)
  (entries : Props) :
  renderable h payload entries ->
  forall acc, returns (for_of entries (check_field h payload) acc).
Proof.
  induction entries as [ | [field primitive] rest IH ]; intros Hr acc; cbn.
  - apply returns_Ok.
  - destruct (Hr field primitive (or_introl eq_refl)) as (tag & -> & Hnum).
    apply bind_returns.
    + unfold check_field.
      destruct (HasProperty payload field); cbn [negb].
      * apply bind_returns;
          [ apply validatePrimitive_returns, Hnum | ].
        intros r. destruct (negb (Primitive.valid r)); apply returns_Ok.
      * destruct (primitiveLabel_string tag) as (label & ->). cbn.
        apply returns_Ok.
    + intros errs. apply IH. intros f p Hin. apply Hr. right. exact Hin.
Qed.

Lemma validateShape_returns (h : Host) (payload shape : JsValue)
  (allowExtraKeys : bool) :
  not_plain_object payload = true
  \/ (shape <> JNull /\ shape <> JUndefined
      /\ renderable h (plain_props payload) (own_enumerable shape)) ->
  returns (validateShape h payload shape allowExtraKeys).
Proof.
  unfold validateShape.
  intros [Hnot | (Hnull & Hundef & Hr)].
  - rewrite Hnot. apply returns_Ok.
  - destruct (not_plain_object payload) eqn:Hplain; [ apply returns_Ok | ].
    assert (Hentries : Object_entries shape = Ok (own_enumerable shape))
      by (destruct shape; try reflexivity; congruence).
    rewrite Hentries. cbn [bind].
    apply bind_returns; [ apply for_of_check_field_returns, Hr | ].
    intros errs. destruct allowExtraKeys; cbn [negb].
    + cbn. apply returns_Ok.
    + unfold Object_keys. rewrite Hentries. cbn [bind].
      assert (Hkeys : Object_entries payload = Ok (own_enumerable payload)).
      { destruct payload; try reflexivity; discriminate. }
      rewrite Hkeys. cbn [bind].
      destruct (for_of_check_key (keys (own_enumerable shape))
                  (keys (own_enumerable payload)) errs) as (added & -> & _).
      cbn. apply returns_Ok.
Qed.

(** C9 as the code has it.  [validateMessageEnvelope] returns a structured
    result on every message.  [validatePrimitive] returns one on every value
    and every string tag, provided that under [aln::number] the value
    converts to a string, as every primitive value does.  [validateShape]
    returns one on every payload that is not a plain object, and on a plain
    object whenever the shape is neither null nor undefined, its tags are
    strings, and the fields checked against [aln::number] convert to
    strings. *)
Theorem validators_return_results :
  forall h : Host,
    (forall message, returns (validateMessageEnvelope message))
    /\ (forall value tag,
          (tag = ALNPrimitives.NUMBER -> returns (String_ h value)) ->
          returns (validatePrimitive h value (JStr tag)))
    /\ (forall value tag,
          is_primitive value = true ->
          returns (validatePrimitive h value (JStr tag)))
    /\ (forall payload shape allowExtraKeys,
          not_plain_object payload = true
          \/ (shape <> JNull /\ shape <> JUndefined
              /\ renderable h (plain_props payload) (own_enumerable shape)) ->
          returns (validateShape h payload shape allowExtraKeys)).
Proof.
  intros h. repeat split.
  - intros message. unfold validateMessageEnvelope.
    destruct (not_plain_object message); apply returns_Ok.
  - intros value tag. apply validatePrimitive_returns.
  - intros value tag Hp. apply validatePrimitive_returns.
    intros _. apply String_primitive_returns, Hp.
  - intros payload shape allowExtraKeys. apply validateShape_returns.
Qed.

(** The hypotheses of [validators_return_results] hold of a payload with a
    number field holding a string, checked against a shape that asks for a
    number. *)
Lemma validators_return_results_witness :
  returns (validatePrimitive example_host (JStr "x")
             (JStr ALNPrimitives.NUMBER))
  /\ returns (validateShape example_host (JObj [ ("count", JStr "x") ])
                (JObj [ ("count", JStr ALNPrimitives.NUMBER) ]) false).
Proof.
  destruct (validators_return_results example_host) as (_ & Hp & _ & Hs).
  split.
  - apply Hp. intros _. exists "x". reflexivity.
  - apply Hs. right. split; [ discriminate | split; [ discriminate | ] ].
    intros field primitive [Heq | []]. inversion Heq; subst.
    exists ALNPrimitives.NUMBER. split; [ reflexivity | ].
    intros _. exists "x". reflexivity.
Defined.

(** C9 as stated fails: [validateShape] raises on a null shape, and
    [validatePrimitive] raises under [aln::number] on an object whose own
    [toString] is not callable. *)
Lemma validators_raise :
  validateShape example_host (JObj []) JNull false
  = Throw (TypeError "Cannot convert undefined or null to object")
  /\ validatePrimitive example_host (JObj [ ("toString", JNum 1) ])
       (JStr ALNPrimitives.NUMBER)
     = Throw (TypeError "Cannot convert object to primitive value").
Proof. split; reflexivity. Qed.

(** *** The envelope validator *)

Lemma envelope_errors_common (message : Props) (e : string) :
  In e (envelope_errors message) -> In e common_errors.
Proof.
  unfold envelope_errors, push, common_errors.
  repeat match goal with
  | |- context [if ?c then _ else _] => destruct c
  end;
  cbn; intuition.
Qed.

Lemma intent_error_not_common (kind : string) :
  ~ In (intent_error kind) common_errors.
Proof.
  unfold common_errors, intent_error, id_error, kind_error, timestamp_error,
    payload_error, meta_error, dq.
  cbn. intros H. decompose [or] H; try congruence; try discriminate.
Qed.

Lemma unknown_intent_error_not_common (name kind : string) :
  ~ In (unknown_intent_error name kind) common_errors.
Proof.
  unfold common_errors, unknown_intent_error, id_error, kind_error,
    timestamp_error, payload_error, meta_error, dq.
  cbn. intros H. decompose [or] H; try congruence; try discriminate.
Qed.

Lemma intent_error_not_unknown (name kind kind' : string) :
  unknown_intent_error name kind <> intent_error kind'.
Proof. unfold unknown_intent_error, intent_error. cbn. discriminate. Qed.

Lemma count_occ_app_one (l : list string) (e : string) :
  ~ In e l -> count_occ string_dec (l ++ [e])%list e = 1.
Proof.
  intros Hn. rewrite count_occ_app.
  rewrite (proj1 (count_occ_not_In string_dec l e) Hn).
  cbn. destruct (string_dec e e); [ reflexivity | congruence ].
Qed.

(** C3 as the code has it.  On an intent-bearing kind the two rules on
    [intent] are never reported together.  An [intent] that is not a
    non-empty string gets exactly one error, the non-empty-string one, after
    the errors of the other fields, and no unknown-intent error: the second
    rule is checked only when the first holds.  An [intent] that is a
    non-empty string gets no non-empty-string error, and at most the
    unknown-intent error, which it gets when the registry answers nothing
    under that name. *)
Theorem intent_field_reported_once :
  forall (message : Props) (kind : string),
    Get message "kind" = JStr kind ->
    mem kind intentKinds = true ->
    exists errs,
      validateMessageEnvelope (JObj message) = Ok (report errs)
      /\ (not_nonempty_string (Get message "intent") = true ->
          errs = (envelope_errors message ++ [ intent_error kind ])%list
          /\ count_occ string_dec errs (intent_error kind) = 1
          /\ forall name, ~ In (unknown_intent_error name kind) errs)
      /\ (not_nonempty_string (Get message "intent") = false ->
          let name := string_of (Get message "intent") in
          ~ In (intent_error kind) errs
          /\ (errs = envelope_errors message
              \/ errs = (envelope_errors message
                         ++ [ unknown_intent_error name kind ])%list)
          /\ (ALNSpec_intents_get name = Missing ->
              count_occ string_dec errs (unknown_intent_error name kind) = 1)).
Proof.
  intros message kind Hkind Hmem.
  exists (intent_errors message (envelope_errors message)).
  split; [ reflexivity | ].
  unfold intent_errors. rewrite Hkind. cbn [has string_of]. rewrite Hmem.
  split; intros Hbad; rewrite Hbad; unfold push.
  - split; [ reflexivity | split ].
    + apply count_occ_app_one. intros Hin.
      apply envelope_errors_common in Hin.
      exact (intent_error_not_common kind Hin).
    + intros name Hin. apply in_app_or in Hin as [Hin | [Heq | []]].
      * apply envelope_errors_common in Hin.
        exact (unknown_intent_error_not_common name kind Hin).
      * symmetry in Heq. exact (intent_error_not_unknown name kind kind Heq).
  - cbv zeta.
    set (name := string_of (Get message "intent")).
    destruct (entry_present (ALNSpec_intents_get name)) eqn:Hp; cbn [negb].
    + split; [ | split ].
      * intros Hin. apply envelope_errors_common in Hin.
        exact (intent_error_not_common kind Hin).
      * left. reflexivity.
      * intros Hm. rewrite Hm in Hp. discriminate.
    + split; [ | split ].
      * intros Hin. apply in_app_or in Hin as [Hin | [Heq | []]].
        -- apply envelope_errors_common in Hin.
           exact (intent_error_not_common kind Hin).
        -- exact (intent_error_not_unknown name kind kind Heq).
      * right. reflexivity.
      * intros _. apply count_occ_app_one. intros Hin.
        apply envelope_errors_common in Hin.
        exact (unknown_intent_error_not_common name kind Hin).
Qed.

(** The hypotheses of [intent_field_reported_once] hold of an intent request
    without an [intent]. *)
Lemma intent_field_reported_once_witness :
  exists errs,
    validateMessageEnvelope
      (JObj [ ("id", JStr "m-1");
              ("kind", JStr ALNMessageKinds.INTENT_REQUEST);
              ("timestamp", JNum 1700000000000);
              ("payload", JObj []) ])
    = Ok (report errs)
    /\ errs = [ intent_error ALNMessageKinds.INTENT_REQUEST ].
Proof.
  destruct (intent_field_reported_once
              [ ("id", JStr "m-1");
                ("kind", JStr ALNMessageKinds.INTENT_REQUEST);
                ("timestamp", JNum 1700000000000);
                ("payload", JObj []) ]
              ALNMessageKinds.INTENT_REQUEST
              eq_refl eq_refl) as (errs & Hv & Hbad & _).
  exists errs. split; [ exact Hv | ].
  destruct (Hbad eq_refl) as (He & _). rewrite He. reflexivity.
Defined.

(** C3 as stated fails: an intent request whose [intent] is absent breaks
    both rules, [undefined] being no non-empty string and naming no
    registered intent, and gets one error for the field, not two. *)
Lemma intent_rules_not_both_reported :
  not_nonempty_string JUndefined = true
  /\ ALNSpec_intents_get "undefined" = Missing
  /\ validateMessageEnvelope
       (JObj [ ("id", JStr "m-1");
               ("kind", JStr ALNMessageKinds.INTENT_REQUEST);
               ("timestamp", JNum 1700000000000);
               ("payload", JObj []) ])
     = Ok {| valid := false;
             errors := [ intent_error ALNMessageKinds.INTENT_REQUEST ] |}.
Proof. repeat split; reflexivity. Qed.

(** *** The envelope factory *)

(** A value read as a property key and rendered in a message: the string
    key is the rendering, and a symbol key cannot be rendered. *)
Lemma key_of_primitive_ToString (h : Host) (v : JsValue) :
  match key_of_primitive h v with
  | Ok (StringKey name) => ToString_primitive h v = Ok name
  | Ok (SymbolKey _) =>
      ToString_primitive h v
      = Throw (TypeError "Cannot convert a Symbol value to a string")
  | Throw e => ToString_primitive h v = Throw e
  end.
Proof.
  destruct v; unfold key_of_primitive; try reflexivity;
    match goal with
    | |- context [ToString_primitive h ?x] =>
        destruct (ToString_primitive h x); reflexivity
    end.
Qed.

Lemma valueOf_key_ToString (h : Host) (o : JsValue) (props : Props) :
  match valueOf_key h o props with
  | Ok (StringKey name) => valueOf_step h o props = Ok name
  | Ok (SymbolKey _) =>
      valueOf_step h o props
      = Throw (TypeError "Cannot convert a Symbol value to a string")
  | Throw e => valueOf_step h o props = Throw e
  end.
Proof.
  unfold valueOf_key, valueOf_step.
  destruct (own props "valueOf") as [ [ ] | ]; try reflexivity.
  destruct (callFunction h (JFun source) o) as [ r | e ]; cbn [bind];
    [ | reflexivity ].
  destruct (is_primitive r); [ apply key_of_primitive_ToString | reflexivity ].
Qed.

Lemma ToPropertyKey_ToString (h : Host) (v : JsValue) :
  match ToPropertyKey h v with
  | Ok (StringKey name) => ToString h v = Ok name
  | Ok (SymbolKey _) =>
      ToString h v
      = Throw (TypeError "Cannot convert a Symbol value to a string")
  | Throw e => ToString h v = Throw e
  end.
Proof.
  destruct v;
    try (unfold ToPropertyKey;
         match goal with
         | |- context [ToString h ?x] =>
             destruct (ToString h x); reflexivity
         end).
  - reflexivity.
  - cbn [ToPropertyKey ToString]. unfold object_ToPropertyKey, object_ToString.
    destruct (own props "toString") as [ [ ] | ];
      try apply valueOf_key_ToString; try reflexivity.
    destruct (callFunction h (JFun source) (JObj props)) as [ r | e ];
      cbn [bind]; [ | reflexivity ].
    destruct (is_primitive r);
      [ apply key_of_primitive_ToString | apply valueOf_key_ToString ].
Qed.

Lemma ToPropertyKey_string_key (h : Host) (v : JsValue) (name : string) :
  ToPropertyKey h v = Ok (StringKey name) -> ToString h v = Ok name.
Proof.
  intros H. pose proof (ToPropertyKey_ToString h v) as HT.
  now rewrite H in HT.
Qed.

(** On a name that is a string the registry is read at the name itself. *)
Lemma validateIntentInput_string (h : Host) (name : string)
  (inputPayload : JsValue) (allowExtraKeys : bool) :
  validateIntentInput h (JStr name) inputPayload allowExtraKeys
  = (let intent := ALNSpec_intents_get name in
     if negb (entry_present intent) then
       Ok {| valid := false;
             errors := [ "Unknown intent " ++ dq ++ name ++ dq ] |}
     else validateShape h inputPayload (entry_inputShape intent)
            allowExtraKeys).
Proof.
  unfold validateIntentInput.
  cbn [ToPropertyKey ToString ToString_primitive bind ALNSpec_intents_at].
  destruct (negb (entry_present (ALNSpec_intents_get name))); reflexivity.
Qed.

Lemma validateIntentOutput_string (h : Host) (name : string)
  (outputPayload : JsValue) (allowExtraKeys : bool) :
  validateIntentOutput h (JStr name) outputPayload allowExtraKeys
  = (let intent := ALNSpec_intents_get name in
     if negb (entry_present intent) then
       Ok {| valid := false;
             errors := [ "Unknown intent " ++ dq ++ name ++ dq ] |}
     else validateShape h outputPayload (entry_outputShape intent)
            allowExtraKeys).
Proof.
  unfold validateIntentOutput.
  cbn [ToPropertyKey ToString ToString_primitive bind ALNSpec_intents_at].
  destruct (negb (entry_present (ALNSpec_intents_get name))); reflexivity.
Qed.

(** A validator of intents that returns has read the registry at a string
    key, the one the message would show. *)
Lemma intent_key_of_result (h : Host) (intentName payload : JsValue)
  (shape : IntentEntry -> JsValue) (allowExtraKeys : bool) (v : Validation) :
  (key <- ToPropertyKey h intentName ;;
   let intent := ALNSpec_intents_at key in
   if negb (entry_present intent) then
     shown <- ToString h intentName ;;
     Ok {| valid := false;
           errors := [ "Unknown intent " ++ dq ++ shown ++ dq ] |}
   else validateShape h payload (shape intent) allowExtraKeys) = Ok v ->
  exists name,
    ToPropertyKey h intentName = Ok (StringKey name)
    /\ ToString h intentName = Ok name
    /\ (valid v = true ->
        entry_present (ALNSpec_intents_get name) = true
        /\ not_plain_object payload = false
        /\ name <> EmptyString).
Proof.
  intros H.
  pose proof (ToPropertyKey_ToString h intentName) as HT.
  destruct (ToPropertyKey h intentName) as [ [ name | d ] | e ];
    cbn [bind ALNSpec_intents_at entry_present negb] in H.
  - exists name. split; [ reflexivity | split; [ exact HT | ] ].
    intros Hv.
    destruct (entry_present (ALNSpec_intents_get name)) eqn:Hp;
      cbn [negb] in H.
    2: { rewrite HT in H. cbn [bind] in H. inversion H; subst.
         discriminate Hv. }
    split; [ reflexivity | split ].
    + unfold validateShape in H.
      destruct (not_plain_object payload); [ | reflexivity ].
      inversion H; subst. discriminate Hv.
    + intros ->. discriminate Hp.
  - rewrite HT in H. discriminate H.
  - discriminate H.
Qed.

Lemma validateIntentInput_valid (h : Host) (intentName inputPayload : JsValue)
  (v : Validation) :
  validateIntentInput h intentName inputPayload false = Ok v ->
  valid v = true ->
  exists name,
    ToPropertyKey h intentName = Ok (StringKey name)
    /\ entry_present (ALNSpec_intents_get name) = true
    /\ not_plain_object inputPayload = false
    /\ name <> EmptyString.
Proof.
  intros H Hv.
  destruct (intent_key_of_result h intentName inputPayload entry_inputShape
              false v H) as (name & Hkey & _ & Hrest).
  exists name. split; [ exact Hkey | now apply Hrest ].
Qed.

Lemma not_plain_object_false (v : JsValue) :
  not_plain_object v = false ->
  String.eqb (typeof v) "object" = true /\ is_null v = false.
Proof.
  unfold not_plain_object. rewrite !orb_false_iff, negb_false_iff. tauto.
Qed.

Lemma push_not_nil (errors : list string) (msg : string) :
  push errors msg <> [].
Proof. unfold push. destruct errors; discriminate. Qed.

Lemma report_invalid (errors : list string) :
  errors <> [] -> valid (report errors) = false.
Proof. destruct errors; [ congruence | reflexivity ]. Qed.

Lemma intent_errors_keep (message : Props) (errors : list string) :
  errors <> [] -> intent_errors message errors <> [].
Proof.
  intros Hne. unfold intent_errors.
  repeat match goal with
  | |- context [if ?c then _ else _] => destruct c
  end;
  try exact Hne; apply push_not_nil.
Qed.

Lemma envelope_errors_bad_id (message : Props) :
  not_nonempty_string (Get message "id") = true ->
  envelope_errors message <> [].
Proof.
  intros Hid. unfold envelope_errors. rewrite Hid.
  repeat match goal with
  | |- context [if ?c then _ else _] => destruct c
  end;
  apply push_not_nil.
Qed.

Lemma envelope_errors_bad_meta (message : Props) :
  HasProperty message "meta" = true ->
  not_plain_object (Get message "meta") = true ->
  envelope_errors message <> [].
Proof.
  intros Hhas Hmeta. unfold envelope_errors. rewrite Hhas, Hmeta.
  apply push_not_nil.
Qed.

Lemma intent_errors_bad_intent (message : Props) (errors : list string) :
  has intentKinds (Get message "kind") = true ->
  not_nonempty_string (Get message "intent") = true ->
  intent_errors message errors <> [].
Proof.
  intros Hkind Hintent. unfold intent_errors. rewrite Hkind, Hintent.
  apply push_not_nil.
Qed.

(** C8 as the code has it.  Once the input payload has passed the shape of
    its intent, and the clock reading a finite number, [createIntentRequest]
    returns the assembled envelope when the rules of the envelope that the
    shape does not cover hold as well: [id] is a non-empty string,
    [intentName] is itself a string and not only a value that converts to
    the name of an intent, and [meta] is falsy or an object that is neither
    null nor an array.  When [id] is not a non-empty string, or [intentName]
    is not a string, or [meta] is truthy and not such an object, the second
    check fails and the error of the envelope is raised. *)
Theorem createIntentRequest_returns_envelope :
  forall (h : Host) (id intentName inputPayload meta : JsValue)
         (v : Validation),
    validateIntentInput h intentName inputPayload false = Ok v ->
    valid v = true ->
    is_finite (Date_now h) = true ->
    (not_nonempty_string id = false ->
     String.eqb (typeof intentName) "string" = true ->
     ToBoolean meta = false \/ not_plain_object meta = false ->
     createIntentRequest h id intentName inputPayload meta
     = Ok (intent_request_envelope h id intentName inputPayload meta))
    /\ (not_nonempty_string id = true
        \/ String.eqb (typeof intentName) "string" = false
        \/ (ToBoolean meta = true /\ not_plain_object meta = true) ->
        exists msg,
          createIntentRequest h id intentName inputPayload meta
          = Throw (Error ("Invalid envelope: " ++ msg))).
Proof.
  intros h id intentName inputPayload meta v Hin Hv Hclock.
  destruct (validateIntentInput_valid _ _ _ _ Hin Hv)
    as (name & Hkey & Hp & Hobj & Hname).
  apply not_plain_object_false in Hobj as [Htype Hnull].
  split.
  - intros Hid Hstr Hmeta.
    assert (Hn : intentName = JStr name).
    { destruct intentName; try discriminate Hstr.
      cbn in Hkey. now inversion Hkey. }
    subst intentName.
    unfold createIntentRequest. rewrite Hin. cbn [bind]. rewrite Hv.
    cbn [negb].
    fold (intent_request_envelope h id (JStr name) inputPayload meta).
    assert (Henv : validateMessageEnvelope
                     (intent_request_envelope h id (JStr name) inputPayload
                        meta)
                   = Ok {| valid := true; errors := [] |}).
    { unfold validateMessageEnvelope, intent_request_envelope.
      cbn [not_plain_object typeof is_null Array_isArray String.eqb negb orb
           plain_props Ascii.eqb Bool.eqb].
      cbn -[spread_meta].
      assert (Hnm : String.eqb name EmptyString = false)
        by (apply String.eqb_neq; exact Hname).
      unfold envelope_errors, intent_errors, Get, HasProperty.
      cbn -[ALNSpec_intents_get entry_present not_nonempty_string
            not_plain_object].
      rewrite Hid, Hclock, Htype, Hnull. cbn [negb orb].
      unfold spread_meta.
      destruct (ToBoolean meta) eqn:Htruthy.
      - destruct Hmeta as [Hfalse | Hplain]; [ discriminate | ].
        cbn -[ALNSpec_intents_get entry_present not_nonempty_string
              not_plain_object].
        rewrite Hplain.
        unfold not_nonempty_string. cbn [typeof String.eqb negb orb].
        cbn -[ALNSpec_intents_get entry_present is_string].
        rewrite Hnm, Hp. reflexivity.
      - cbn -[ALNSpec_intents_get entry_present not_nonempty_string
              not_plain_object].
        unfold not_nonempty_string.
        cbn -[ALNSpec_intents_get entry_present is_string].
        rewrite Hnm, Hp. reflexivity. }
    rewrite Henv. reflexivity.
  - intros Hbad.
    unfold createIntentRequest. rewrite Hin. cbn [bind]. rewrite Hv.
    cbn [negb].
    set (message := ([ ("id", id);
                       ("kind", JStr ALNMessageKinds.INTENT_REQUEST);
                       ("intent", intentName);
                       ("timestamp", JNum (Date_now h));
                       ("payload", inputPayload) ] ++ spread_meta meta)%list).
    change (validateMessageEnvelope (JObj message))
      with (Ok (report (intent_errors message (envelope_errors message)))).
    cbn [bind]. rewrite report_invalid.
    + cbn [negb]. eexists. reflexivity.
    + destruct Hbad as [Hid | [Hstr | [Htruthy Hmeta]]].
      * apply intent_errors_keep, envelope_errors_bad_id. exact Hid.
      * apply intent_errors_bad_intent; [ reflexivity | ].
        change (Get message "intent") with intentName.
        unfold not_nonempty_string. now rewrite Hstr.
      * apply intent_errors_keep, envelope_errors_bad_meta;
          unfold message, spread_meta; rewrite Htruthy;
          [ reflexivity | exact Hmeta ].
Qed.

(** The hypotheses of [createIntentRequest_returns_envelope] hold of a
    repository-plan request with a proper [id] and no [meta]. *)
Lemma createIntentRequest_returns_envelope_witness :
  createIntentRequest example_host (JStr "req-1")
    (JStr "aln::plan_repository")
    (JObj [ ("description", JStr "a repository"); ("constraints", JObj []) ])
    JUndefined
  = Ok (intent_request_envelope example_host (JStr "req-1")
          (JStr "aln::plan_repository")
          (JObj [ ("description", JStr "a repository");
                  ("constraints", JObj []) ])
          JUndefined).
Proof.
  destruct (createIntentRequest_returns_envelope example_host (JStr "req-1")
              (JStr "aln::plan_repository")
              (JObj [ ("description", JStr "a repository");
                      ("constraints", JObj []) ])
              JUndefined {| valid := true; errors := [] |}
              eq_refl eq_refl eq_refl) as [Hreturns _].
  apply Hreturns.
  - reflexivity.
  - reflexivity.
  - left. reflexivity.
Defined.

(** C8 as stated fails: the payload passes the shape of its intent, and the
    envelope check still raises, on an empty [id], on a [meta] that is an
    array, and on an [intentName] that is the one-element array of the name
    of an intent, which reads the registry at that name. *)
Lemma createIntentRequest_raises_after_valid_input :
  validateIntentInput example_host (JStr "aln::plan_repository")
    (JObj [ ("description", JStr "a repository"); ("constraints", JObj []) ])
    false
  = Ok {| valid := true; errors := [] |}
  /\ createIntentRequest example_host (JStr EmptyString)
       (JStr "aln::plan_repository")
       (JObj [ ("description", JStr "a repository");
               ("constraints", JObj []) ])
       JUndefined
     = Throw (Error ("Invalid envelope: " ++ id_error))
  /\ createIntentRequest example_host (JStr "req-1")
       (JStr "aln::plan_repository")
       (JObj [ ("description", JStr "a repository");
               ("constraints", JObj []) ])
       (JArr [])
     = Throw (Error ("Invalid envelope: " ++ meta_error))
  /\ validateIntentInput example_host (JArr [ JStr "aln::plan_repository" ])
       (JObj [ ("description", JStr "a repository");
               ("constraints", JObj []) ])
       false
     = Ok {| valid := true; errors := [] |}
  /\ createIntentRequest example_host (JStr "req-1")
       (JArr [ JStr "aln::plan_repository" ])
       (JObj [ ("description", JStr "a repository");
               ("constraints", JObj []) ])
       JUndefined
     = Throw (Error ("Invalid envelope: "
                     ++ intent_error ALNMessageKinds.INTENT_REQUEST)).
Proof. repeat split; reflexivity. Qed.

(** Scenario C: a heartbeat with no payload carries an empty object and no
    [intent], and passes the envelope validator. *)
Theorem createHeartbeat_scenario_C :
  forall h : Host,
    is_finite (Date_now h) = true ->
    createHeartbeat h (JStr "hb-1") JUndefined JUndefined
    = Ok (JObj [ ("id", JStr "hb-1");
                 ("kind", JStr ALNMessageKinds.HEARTBEAT);
                 ("timestamp", JNum (Date_now h));
                 ("payload", JObj []) ])
    /\ validateMessageEnvelope
         (JObj [ ("id", JStr "hb-1");
                 ("kind", JStr ALNMessageKinds.HEARTBEAT);
                 ("timestamp", JNum (Date_now h));
                 ("payload", JObj []) ])
       = Ok {| valid := true; errors := [] |}.
Proof.
  intros h Hclock.
  assert (Henv : validateMessageEnvelope
                   (JObj [ ("id", JStr "hb-1");
                           ("kind", JStr ALNMessageKinds.HEARTBEAT);
                           ("timestamp", JNum (Date_now h));
                           ("payload", JObj []) ])
                 = Ok {| valid := true; errors := [] |}).
  { unfold validateMessageEnvelope, envelope_errors, intent_errors,
      Get, HasProperty.
    cbn. rewrite Hclock. reflexivity. }
  split; [ | exact Henv ].
  unfold createHeartbeat, spread_meta. cbn [default_empty ToBoolean app].
  rewrite Henv. reflexivity.
Qed.

Lemma createHeartbeat_scenario_C_witness :
  exists envelope,
    createHeartbeat example_host (JStr "hb-1") JUndefined JUndefined
    = Ok envelope
    /\ validateMessageEnvelope envelope = Ok {| valid := true; errors := [] |}.
Proof.
  destruct (createHeartbeat_scenario_C example_host eq_refl) as [Hc Hv].
  eexists. split; [ exact Hc | exact Hv ].
Defined.

(** *** Own properties under assignment and spread *)

Lemma own_set_same (props : Props) (key : string) (v : JsValue) :
  own (set props key v) key = Some v.
Proof.
  induction props as [ | [k old] rest IH ]; cbn.
  - rewrite String.eqb_refl. reflexivity.
  - destruct (String.eqb k key) eqn:Hk; cbn; rewrite Hk; auto.
Qed.

Lemma own_set_other (props : Props) (key key' : string) (v : JsValue) :
  key <> key' -> own (set props key v) key' = own props key'.
Proof.
  intros Hne. induction props as [ | [k old] rest IH ]; cbn.
  - apply String.eqb_neq in Hne. rewrite Hne. reflexivity.
  - destruct (String.eqb k key) eqn:Hk; cbn.
    + apply String.eqb_eq in Hk. subst k.
      apply String.eqb_neq in Hne. rewrite Hne. reflexivity.
    + destruct (String.eqb k key'); auto.
Qed.

Lemma Get_set_same (props : Props) (key : string) (v : JsValue) :
  Get (set props key v) key = v.
Proof. unfold Get. rewrite own_set_same. reflexivity. Qed.

Lemma Get_set_other (props : Props) (key key' : string) (v : JsValue) :
  key <> key' -> Get (set props key v) key' = Get props key'.
Proof. intros Hne. unfold Get. rewrite own_set_other by exact Hne. reflexivity. Qed.

Lemma own_spread_absent (source : Props) (key : string) :
  own source key = None ->
  forall target,
    own (fold_left (fun acc entry => set acc (fst entry) (snd entry))
           source target) key
    = own target key.
Proof.
  induction source as [ | [k v] rest IH ]; cbn; intros Habs target.
  - reflexivity.
  - destruct (String.eqb k key) eqn:Hk; [ discriminate | ].
    rewrite IH by exact Habs. apply own_set_other.
    apply String.eqb_neq. exact Hk.
Qed.

Lemma own_spread_present (source : Props) (key : string) (v : JsValue) :
  NoDup (keys source) ->
  own source key = Some v ->
  forall target,
    own (fold_left (fun acc entry => set acc (fst entry) (snd entry))
           source target) key
    = Some v.
Proof.
  induction source as [ | [k w] rest IH ]; cbn; intros Hnd Hown target.
  - discriminate.
  - inversion Hnd as [ | ? ? Hnotin Hnd' ]; subst.
    destruct (String.eqb k key) eqn:Hk.
    + apply String.eqb_eq in Hk. subst k. inversion Hown; subst w.
      rewrite own_spread_absent.
      * apply own_set_same.
      * clear - Hnotin. induction rest as [ | [k' w'] rest IH ]; cbn.
        -- reflexivity.
        -- destruct (String.eqb k' key) eqn:Hk'.
           ++ apply String.eqb_eq in Hk'. subst k'.
              exfalso. apply Hnotin. left. reflexivity.
           ++ apply IH. intros Hin. apply Hnotin. right. exact Hin.
    + apply IH; assumption.
Qed.

(** *** Numbers *)

Lemma positive_when_not_leb_zero (x : float) :
  is_nan x = false -> (x <=? 0)%float = false -> (0 <? x)%float = true.
Proof.
  unfold is_nan. rewrite negb_false_iff.
  rewrite FloatAxioms.eqb_spec, leb_spec, ltb_spec.
  change (Prim2SF 0) with (S754_zero false).
  destruct (Prim2SF x) as [ s | s | | s m e ]; cbn;
    try destruct s; try discriminate; reflexivity.
Qed.

Lemma new_ALNKernel_finite (options : ALNKernelOptions) :
  is_finite (maxReplicationHours (new_ALNKernel options)) = true.
Proof.
  unfold new_ALNKernel. cbn [maxReplicationHours].
  destruct (Number_isFinite (opt_maxReplicationHours options)) eqn:Hf.
  - destruct (opt_maxReplicationHours options); try discriminate. exact Hf.
  - reflexivity.
Qed.

(** *** Constraint normalization *)

Ltac get_set :=
  repeat first
    [ rewrite Get_set_same
    | rewrite Get_set_other by discriminate ].

(** Every default is applied to its own field: the normalized value of a
    field is a function of the merged value of that field. *)
Lemma normalized_fields (k : ALNKernel) (constraints : JsValue) :
  let merged := merged_constraints k constraints in
  let normalized := _normalizeConstraints k constraints in
  Get normalized "language" = normal_language (Get merged "language")
  /\ Get normalized "requireCompleteness"
     = JBool (ToBoolean (Get merged "requireCompleteness"))
  /\ Get normalized "forbidPlaceholders"
     = JBool (ToBoolean (Get merged "forbidPlaceholders"))
  /\ Get normalized "maxReplicationTimeHours"
     = normal_bound k (Get merged "maxReplicationTimeHours")
  /\ Get normalized "jurisdictions"
     = normal_list (Get merged "jurisdictions")
  /\ Get normalized "providerPolicies"
     = normal_list (Get merged "providerPolicies")
  /\ Get normalized "dataResidency" = Get merged "dataResidency".
Proof.
  cbv zeta. unfold _normalizeConstraints, merged_constraints.
  set (m0 := spread (defaults k) (or_empty constraints)).
  set (c1 := negb (Number_isFinite (Get m0 "maxReplicationTimeHours")) || _).
  set (m1 := if c1 then _ else m0).
  set (m2 := if negb (Array_isArray (Get m1 "jurisdictions")) then _ else m1).
  set (m3 := if negb (Array_isArray (Get m2 "providerPolicies")) then _
             else m2).
  assert (H1 : forall key, key <> "maxReplicationTimeHours" ->
                           Get m1 key = Get m0 key).
  { intros key Hne. unfold m1. destruct c1; [ | reflexivity ].
    apply Get_set_other. congruence. }
  assert (H2 : forall key, key <> "jurisdictions" -> Get m2 key = Get m1 key).
  { intros key Hne. unfold m2.
    destruct (negb (Array_isArray (Get m1 "jurisdictions")));
      [ | reflexivity ].
    apply Get_set_other. congruence. }
  assert (H3 : forall key, key <> "providerPolicies" ->
                           Get m3 key = Get m2 key).
  { intros key Hne. unfold m3.
    destruct (negb (Array_isArray (Get m2 "providerPolicies")));
      [ | reflexivity ].
    apply Get_set_other. congruence. }
  repeat split; get_set.
  - rewrite H3, H2, H1 by discriminate. unfold normal_language.
    cbn [ToBoolean]. reflexivity.
  - rewrite H3, H2, H1 by discriminate. reflexivity.
  - rewrite H3, H2, H1 by discriminate. reflexivity.
  - rewrite H3, H2 by discriminate. unfold m1, c1, normal_bound.
    destruct (Number_isFinite (Get m0 "maxReplicationTimeHours"));
      cbn [negb orb andb]; [ | apply Get_set_same ].
    destruct (number_of (Get m0 "maxReplicationTimeHours") <=? 0)%float;
      cbn [negb]; [ apply Get_set_same | reflexivity ].
  - rewrite H3 by discriminate. unfold m2, normal_list.
    rewrite (H1 "jurisdictions") by discriminate.
    destruct (Array_isArray (Get m0 "jurisdictions")) eqn:Ha; cbn [negb].
    + apply H1. discriminate.
    + apply Get_set_same.
  - unfold m3, normal_list.
    rewrite (H2 "providerPolicies"), (H1 "providerPolicies") by discriminate.
    destruct (Array_isArray (Get m0 "providerPolicies")) eqn:Ha; cbn [negb].
    + rewrite H2, H1 by discriminate. reflexivity.
    + apply Get_set_same.
  - rewrite H3, H2, H1 by discriminate. reflexivity.
Qed.

Lemma Get_merged_absent (k : ALNKernel) (constraints : JsValue)
  (key : string) :
  own (own_enumerable (or_empty constraints)) key = None ->
  Get (merged_constraints k constraints) key = Get (defaults k) key.
Proof.
  intros Habs. unfold merged_constraints, spread, Get.
  rewrite own_spread_absent by exact Habs. reflexivity.
Qed.

Lemma Get_merged_present (k : ALNKernel) (constraints : JsValue)
  (key : string) (v : JsValue) :
  NoDup (keys (own_enumerable (or_empty constraints))) ->
  own (own_enumerable (or_empty constraints)) key = Some v ->
  Get (merged_constraints k constraints) key = v.
Proof.
  intros Hnd Hown. unfold merged_constraints, spread, Get.
  rewrite (own_spread_present _ _ v) by assumption. reflexivity.
Qed.

(** C4 as the code has it.  Each field of the normalized Constraint Set is
    computed from the merged value of that field alone.  [language] is a
    non-empty string; [requireCompleteness] and [forbidPlaceholders] are
    booleans; [maxReplicationTimeHours] is a finite number, the kernel
    default when the bound is absent or is not a positive finite number
    (replaced, not clamped), and positive whenever the kernel default is;
    [jurisdictions] and [providerPolicies] are arrays, emptied when they were
    not arrays, whatever their elements; [dataResidency] is the value
    supplied, of any type, and null when none is. *)
Theorem normalized_constraints_typed :
  forall (options : ALNKernelOptions) (constraints : JsValue),
    let k := new_ALNKernel options in
    let supplied := own_enumerable (or_empty constraints) in
    let merged := merged_constraints k constraints in
    let normalized := _normalizeConstraints k constraints in
    (Get normalized "language" = normal_language (Get merged "language")
     /\ Get normalized "requireCompleteness"
        = JBool (ToBoolean (Get merged "requireCompleteness"))
     /\ Get normalized "forbidPlaceholders"
        = JBool (ToBoolean (Get merged "forbidPlaceholders"))
     /\ Get normalized "maxReplicationTimeHours"
        = normal_bound k (Get merged "maxReplicationTimeHours")
     /\ Get normalized "jurisdictions"
        = normal_list (Get merged "jurisdictions")
     /\ Get normalized "providerPolicies"
        = normal_list (Get merged "providerPolicies")
     /\ Get normalized "dataResidency" = Get merged "dataResidency")
    /\ (exists s, Get normalized "language" = JStr s /\ s <> EmptyString)
    /\ (exists b, Get normalized "requireCompleteness" = JBool b)
    /\ (exists b, Get normalized "forbidPlaceholders" = JBool b)
    /\ (exists x,
          Get normalized "maxReplicationTimeHours" = JNum x
          /\ is_finite x = true
          /\ ((0 <? maxReplicationHours k)%float = true ->
              (0 <? x)%float = true)
          /\ (own supplied "maxReplicationTimeHours" = None ->
              x = maxReplicationHours k)
          /\ (Number_isFinite (Get merged "maxReplicationTimeHours")
              && negb (number_of (Get merged "maxReplicationTimeHours")
                       <=? 0)%float = false ->
              x = maxReplicationHours k))
    /\ (exists items, Get normalized "jurisdictions" = JArr items)
    /\ (exists items, Get normalized "providerPolicies" = JArr items)
    /\ (own supplied "dataResidency" = None ->
        Get normalized "dataResidency" = JNull)
    /\ (forall v,
          NoDup (keys supplied) ->
          own supplied "dataResidency" = Some v ->
          Get normalized "dataResidency" = v).
Proof.
  intros options constraints k supplied merged normalized.
  pose proof (normalized_fields k constraints) as Hfields.
  split; [ exact Hfields | ].
  destruct Hfields as (Hlang & Hrc & Hfp & Hmax & Hj & Hp & Hdr).
  fold merged normalized in Hlang, Hrc, Hfp, Hmax, Hj, Hp, Hdr.
  repeat match goal with |- _ /\ _ => split end.
  - rewrite Hlang. unfold normal_language.
    destruct (_ && _) eqn:Hc.
    + apply andb_true_iff in Hc as [_ Hne]. apply negb_true_iff in Hne.
      eexists. split; [ reflexivity | apply String.eqb_neq, Hne ].
    + eexists. split; [ reflexivity | discriminate ].
  - eexists. exact Hrc.
  - eexists. exact Hfp.
  - rewrite Hmax. unfold normal_bound.
    destruct (_ && _) eqn:Hc.
    + apply andb_true_iff in Hc as [Hfin Hpos]. apply negb_true_iff in Hpos.
      assert (Hdefault : own supplied "maxReplicationTimeHours" = None ->
                         Get merged "maxReplicationTimeHours"
                         = JNum (maxReplicationHours k)).
      { intros Habs. unfold merged.
        rewrite Get_merged_absent by exact Habs. reflexivity. }
      destruct (Get merged "maxReplicationTimeHours"); try discriminate.
      cbn in Hfin, Hpos. exists x.
      split; [ reflexivity | split; [ exact Hfin | split; [ | split ] ] ].
      * intros _. apply positive_when_not_leb_zero; [ | exact Hpos ].
        apply is_finite_split in Hfin. tauto.
      * intros Habs. specialize (Hdefault Habs). congruence.
      * discriminate.
    + exists (maxReplicationHours k).
      split; [ reflexivity | split; [ apply new_ALNKernel_finite | ] ].
      repeat split; auto.
  - rewrite Hj. unfold normal_list.
    destruct (Get merged "jurisdictions"); cbn; eexists; reflexivity.
  - rewrite Hp. unfold normal_list.
    destruct (Get merged "providerPolicies"); cbn; eexists; reflexivity.
  - intros Habs. rewrite Hdr. unfold merged.
    rewrite Get_merged_absent by exact Habs. reflexivity.
  - intros v Hnd Hown. rewrite Hdr. unfold merged.
    apply Get_merged_present; assumption.
Qed.

(** C4 as stated fails: the elements of [jurisdictions] and the value of
    [dataResidency] are not checked, so a number passes through each; and a
    kernel built with a negative default keeps it as the bound. *)
Lemma normalized_constraints_unchecked :
  Get (_normalizeConstraints (new_ALNKernel default_options)
         (JObj [ ("jurisdictions", JArr [ JNum 7 ]);
                 ("dataResidency", JNum 42) ]))
    "jurisdictions"
  = JArr [ JNum 7 ]
  /\ Get (_normalizeConstraints (new_ALNKernel default_options)
            (JObj [ ("jurisdictions", JArr [ JNum 7 ]);
                    ("dataResidency", JNum 42) ]))
       "dataResidency"
     = JNum 42
  /\ Get (_normalizeConstraints
            (new_ALNKernel {| opt_modelId := None;
                              opt_maxReplicationHours := JNum (-5) |})
            (JObj []))
       "maxReplicationTimeHours"
     = JNum (-5).
Proof. repeat split; reflexivity. Qed.

(** With no constraints the normalized set is the defaults. *)
Lemma normalized_defaults (k : ALNKernel) :
  _normalizeConstraints k JUndefined = defaults k
  /\ _normalizeConstraints k (JObj []) = defaults k.
Proof.
  unfold _normalizeConstraints. cbn.
  destruct (negb (is_finite (maxReplicationHours k)) || _);
    split; reflexivity.
Qed.

(** *** Plan identifiers *)


(** *** The planning kernel *)

Lemma length_nonempty {A : Type} (l : list A) :
  negb (Nat.eqb (List.length l) 0) = nonempty l.
Proof. destruct l; reflexivity. Qed.

Lemma or_empty_cases (x : JsValue) :
  (ToBoolean x = true /\ or_empty x = x)
  \/ (ToBoolean x = false /\ or_empty x = JObj []).
Proof.
  unfold or_empty, or_else. destruct (ToBoolean x); [ left | right ]; auto.
Qed.

Lemma truthy_entries (x : JsValue) :
  ToBoolean x = true -> Object_entries x = Ok (own_enumerable x).
Proof. destruct x; cbn; try discriminate; reflexivity. Qed.

Lemma Object_keys_or_empty (x : JsValue) :
  Object_keys (or_empty x) = Ok (keys (own_enumerable (or_empty x))).
Proof.
  unfold Object_keys.
  destruct (or_empty_cases x) as [[Ht ->] | [_ ->]].
  - rewrite truthy_entries by exact Ht. reflexivity.
  - reflexivity.
Qed.

Lemma or_empty_idempotent (x : JsValue) : or_empty (or_empty x) = or_empty x.
Proof.
  destruct (or_empty_cases x) as [[Ht ->] | [_ ->]].
  - unfold or_empty, or_else. rewrite Ht. reflexivity.
  - reflexivity.
Qed.

Lemma synthesizeSteps_Ok (h : Host) (intentText : string)
  (intentType : JsValue) (normalized : Props) (context : JsValue) :
  serializable h context ->
  exists steps,
    _synthesizeSteps h intentText intentType normalized context = Ok steps
    /\ map id steps
       = expected_steps (items_of (Get normalized "jurisdictions"))
           (items_of (Get normalized "providerPolicies"))
           (keys (own_enumerable (or_empty context))).
Proof.
  intros Hser. unfold _synthesizeSteps, expected_steps.
  rewrite Object_keys_or_empty. cbn [bind].
  rewrite !length_nonempty.
  destruct (nonempty (keys (own_enumerable (or_empty context)))) eqn:Hkeys.
  - destruct Hser as [Hnone | (text & Hjson)].
    { rewrite Hnone in Hkeys. discriminate. }
    destruct (or_empty_cases context) as [[Ht Hc] | [_ Hc]].
    2: { rewrite Hc in Hkeys. discriminate. }
    unfold Object_keys. rewrite truthy_entries by exact Ht. cbn [bind].
    unfold _inferEnvironmentHints. rewrite Hjson. cbn [bind].
    destruct (nonempty (items_of (Get normalized "jurisdictions"))
              || nonempty (items_of (Get normalized "providerPolicies")));
      eexists; (split; [ reflexivity | ]);
      rewrite !map_app; reflexivity.
  - cbn [bind].
    destruct (nonempty (items_of (Get normalized "jurisdictions"))
              || nonempty (items_of (Get normalized "providerPolicies")));
      eexists; (split; [ reflexivity | ]);
      rewrite !map_app; reflexivity.
Qed.

(** A call of [reason] with a non-empty text and a serializable context
    returns: its plan identifier, its steps and its trail are these. *)
Lemma reason_Ok (h : Host) (k : ALNKernel) (text : string)
  (declared supplied context : JsValue) :
  text <> EmptyString ->
  serializable h (or_empty (default_empty context)) ->
  exists r,
    reason h k (JStr text) declared supplied context = Ok r
    /\ planId r = _generatePlanId k text (Date_toISOString h)
    /\ intentType (transparencyTrail r)
       = or_else declared (JStr (_inferIntentType text))
    /\ map id (steps r)
       = expected_steps
           (items_of (Get (_normalizeConstraints k (default_empty supplied))
                        "jurisdictions"))
           (items_of (Get (_normalizeConstraints k (default_empty supplied))
                        "providerPolicies"))
           (keys (own_enumerable (or_empty (default_empty context)))).
Proof.
  intros Htext Hser. unfold reason.
  cbn [ToBoolean typeof string_of]. apply String.eqb_neq in Htext.
  rewrite Htext. cbn [negb orb String.eqb Ascii.eqb Bool.eqb andb].
  cbn [String.eqb].
  destruct (synthesizeSteps_Ok h text
              (or_else declared (JStr (_inferIntentType text)))
              (_normalizeConstraints k (default_empty supplied))
              (or_empty (default_empty context)) Hser)
    as (plan & Hsteps & Hids).
  rewrite or_empty_idempotent in Hids.
  eexists. split.
  - change (String.eqb "string" "string") with true. cbn [negb].
    rewrite Hsteps. cbn [bind]. reflexivity.
  - cbn [planId steps transparencyTrail]. repeat split. exact Hids.
Qed.

(** *** Case-insensitive substring match *)

Lemma prefix_spec (p s : string) :
  String.prefix p s = true <-> exists rest, s = p ++ rest.
Proof.
  revert s. induction p as [ | c p IH ]; intros s; cbn.
  - split; [ intros _; exists s; reflexivity | destruct s; reflexivity ].
  - destruct s as [ | d s ].
    + split; [ discriminate | intros (rest & H); discriminate ].
    + simpl. destruct (Ascii.ascii_dec c d) as [-> | Hne].
      * rewrite IH. split; intros (rest & H); exists rest.
        -- rewrite H. reflexivity.
        -- inversion H. reflexivity.
      * split; [ discriminate | ].
        intros (rest & H). inversion H. congruence.
Qed.

Lemma includes_spec (s keyword : string) :
  includes s keyword = true
  <-> exists before after, s = before ++ keyword ++ after.
Proof.
  induction s as [ | c s IH ]; cbn [includes]; rewrite orb_true_iff.
  - rewrite prefix_spec. split.
    + intros [(rest & H) | H]; [ | discriminate ].
      exists EmptyString, rest. exact H.
    + intros (before & after & H). left.
      destruct before; cbn in H; [ exists after; exact H | discriminate ].
  - rewrite prefix_spec, IH. split.
    + intros [(rest & H) | (before & after & H)].
      * exists EmptyString, rest. exact H.
      * exists (String c before), after. cbn. rewrite H. reflexivity.
    + intros (before & after & H). destruct before as [ | d before ].
      * left. exists after. exact H.
      * right. cbn in H. inversion H. exists before, after. reflexivity.
Qed.

Lemma toLowerCase_app (a b : string) :
  toLowerCase (a ++ b) = toLowerCase a ++ toLowerCase b.
Proof. induction a as [ | c a IH ]; cbn; congruence. Qed.

Lemma toLowerCase_split (s a b : string) :
  toLowerCase s = a ++ b ->
  exists s1 s2, s = s1 ++ s2 /\ toLowerCase s1 = a /\ toLowerCase s2 = b.
Proof.
  revert s. induction a as [ | c a IH ]; intros s H.
  - exists EmptyString, s. auto.
  - destruct s as [ | d s ]; cbn in H; [ discriminate | ].
    inversion H as [[Hc Hrest]]. apply IH in Hrest as (s1 & s2 & -> & <- & <-).
    exists (String d s1), s2. auto.
Qed.

Lemma includes_toLowerCase (text keyword : string) :
  includes (toLowerCase text) keyword = true <-> ci_contains text keyword.
Proof.
  rewrite includes_spec. unfold ci_contains. split.
  - intros (before & after & H).
    apply toLowerCase_split in H as (s1 & s23 & -> & _ & H).
    apply toLowerCase_split in H as (s2 & s3 & -> & H & _).
    exists s1, s2, s3. auto.
  - intros (before & found & after & -> & <-).
    exists (toLowerCase before), (toLowerCase after).
    rewrite !toLowerCase_app. reflexivity.
Qed.

Lemma mentions_pair (text a b : string) :
  includes (toLowerCase text) a || includes (toLowerCase text) b = true
  <-> mentions text [ a; b ].
Proof.
  rewrite orb_true_iff, !includes_toLowerCase. unfold mentions. split.
  - intros [H | H]; [ exists a | exists b ]; cbn; auto.
  - intros (keyword & [<- | [<- | []]] & H); auto.
Qed.

(** [_inferIntentType] applies the rules in their order. *)
Lemma inferIntentType_first_rule (text : string) :
  first_rule text intent_rules (_inferIntentType text).
Proof.
  unfold _inferIntentType, intent_rules.
  repeat match goal with
  | |- first_rule _ _ (if ?c then _ else _) =>
      let H := fresh "H" in
      destruct c eqn:H;
      [ apply first_rule_match, mentions_pair, H
      | apply first_rule_skip;
        [ rewrite <- mentions_pair, H; discriminate | ] ]
  end.
  apply first_rule_default.
Qed.

(** The digest is SHA-256: the two one-block test vectors of the standard,
    a text with a code unit above 127, hashed through its UTF-8 bytes, and
    the identifier of a plan. *)
Example sha256_abc :
  SHA256.sha256_hex "abc"
  = "ba7816bf8f01cfea414140de5dae2223b00361a396177a9cb410ff61f20015ad".
Proof. vm_compute. reflexivity. Qed.

Example sha256_empty :
  SHA256.sha256_hex EmptyString
  = "e3b0c44298fc1c149afbf4c8996fb92427ae41e4649b934ca495991b7852b855".
Proof. vm_compute. reflexivity. Qed.

Example sha256_latin1 :
  SHA256.sha256_hex ("caf" ++ String (ascii_of_nat 233) EmptyString)
  = "850f7dc43910ff890f8879c0ed26fe697c93a067ad93a7d50f466a7028a9bf4e".
Proof. vm_compute. reflexivity. Qed.

Example generatePlanId_example :
  _generatePlanId (new_ALNKernel default_options) "Plan a repository"
    "2023-11-14T22:13:20.000Z"
  = "f42af89fc4a28a93".
Proof. vm_compute. reflexivity. Qed.

(** *** What [reason] returns *)

Lemma no_context_serializable (h : Host) :
  serializable h (or_empty (default_empty JUndefined)).
Proof. left. reflexivity. Qed.




(** C6. A call of [reason] with a non-empty text resolves the intent type to
    the caller's value when one is given, that is, is truthy, and otherwise
    to the kind of the first rule, in the order workflow or github, repo or
    repository, python or notebook, policy or compliance, whose keyword
    occurs in the text up to case, [general_plan] when none does; the text
    of scenario B is classified [ci_workflow]. *)
Theorem reason_resolves_intent_type :
  forall (h : Host) (k : ALNKernel) (text : string)
         (declared supplied context : JsValue),
    text <> EmptyString ->
    serializable h (or_empty (default_empty context)) ->
    exists r,
      reason h k (JStr text) declared supplied context = Ok r
      /\ (ToBoolean declared = true ->
          intentType (transparencyTrail r) = declared)
      /\ (ToBoolean declared = false ->
          exists kind,
            intentType (transparencyTrail r) = JStr kind
            /\ first_rule text intent_rules kind)
      /\ first_rule "Plan a repository with a GitHub workflow" intent_rules
           "ci_workflow".
Proof.
  intros h k text declared supplied context Htext Hser.
  destruct (reason_Ok h k text declared supplied context Htext Hser)
    as (r & Hr & _ & Hty & _).
  exists r. split; [ exact Hr | ]. unfold or_else in Hty. repeat split.
  - intros Ht. rewrite Ht in Hty. exact Hty.
  - intros Hf. rewrite Hf in Hty. eexists. split; [ exact Hty | ].
    apply inferIntentType_first_rule.
  - exact (inferIntentType_first_rule
             "Plan a repository with a GitHub workflow").
Qed.

(** Scenario B: [reason("Plan a repository with a GitHub workflow")], with
    no intent type, resolves to [ci_workflow]. *)
Lemma reason_resolves_intent_type_witness :
  exists r,
    reason example_host (new_ALNKernel default_options)
      (JStr "Plan a repository with a GitHub workflow")
      JUndefined JUndefined JUndefined = Ok r
    /\ intentType (transparencyTrail r) = JStr "ci_workflow".
Proof.
  destruct (reason_resolves_intent_type example_host
              (new_ALNKernel default_options)
              "Plan a repository with a GitHub workflow"
              JUndefined JUndefined JUndefined)
    as (r & Hr & _ & _ & _).
  - discriminate.
  - apply no_context_serializable.
  - exists r. split; [ exact Hr | ].
    destruct (reason_Ok example_host (new_ALNKernel default_options)
                "Plan a repository with a GitHub workflow"
                JUndefined JUndefined JUndefined)
      as (r' & Hr' & _ & Hty & _);
      [ discriminate | apply no_context_serializable | ].
    rewrite Hr in Hr'. inversion Hr'. subst r'. exact Hty.
Defined.

(** C7. A call of [reason] with a non-empty text returns its steps in the
    fixed order analyze-intent, design-structure, compliance-alignment,
    enforce-integrity, context-alignment, replication-strategy: the four
    others always, compliance-alignment exactly when the normalized
    [jurisdictions] or [providerPolicies] is not empty, context-alignment
    exactly when the context has a key. *)
Theorem reason_steps_in_order :
  forall (h : Host) (k : ALNKernel) (text : string)
         (declared supplied context : JsValue),
    text <> EmptyString ->
    serializable h (or_empty (default_empty context)) ->
    let normalized := _normalizeConstraints k (default_empty supplied) in
    let jurisdictions := items_of (Get normalized "jurisdictions") in
    let policies := items_of (Get normalized "providerPolicies") in
    let contextKeys :=
      keys (own_enumerable (or_empty (default_empty context))) in
    exists r,
      reason h k (JStr text) declared supplied context = Ok r
      /\ map id (steps r)
         = ([ "analyze-intent"; "design-structure" ]
            ++ (if nonempty jurisdictions || nonempty policies
                then [ "compliance-alignment" ] else [])
            ++ [ "enforce-integrity" ]
            ++ (if nonempty contextKeys then [ "context-alignment" ] else [])
            ++ [ "replication-strategy" ])%list
      /\ (In "compliance-alignment" (map id (steps r))
          <-> jurisdictions <> [] \/ policies <> [])
      /\ (In "context-alignment" (map id (steps r)) <-> contextKeys <> []).
Proof.
  intros h k text declared supplied context Htext Hser
    normalized jurisdictions policies contextKeys.
  destruct (reason_Ok h k text declared supplied context Htext Hser)
    as (r & Hr & _ & _ & Hids).
  fold normalized jurisdictions policies contextKeys in Hids.
  unfold expected_steps in Hids.
  exists r. split; [ exact Hr | split; [ exact Hids | ] ].
  rewrite Hids. clear.
  assert (Hne : forall (A : Type) (l : list A), nonempty l = true <-> l <> []).
  { intros A l. destruct l; cbn; split; congruence. }
  split.
  - rewrite <- !Hne, <- orb_true_iff.
    destruct (nonempty jurisdictions || nonempty policies),
      (nonempty contextKeys); cbn;
      (split; [ intros H | intros H; try discriminate H; auto 10 ]);
      try reflexivity;
      repeat (destruct H as [H | H]; try discriminate H); destruct H.
  - rewrite <- Hne.
    destruct (nonempty jurisdictions || nonempty policies),
      (nonempty contextKeys); cbn;
      (split; [ intros H | intros H; try discriminate H; auto 10 ]);
      try reflexivity;
      repeat (destruct H as [H | H]; try discriminate H); destruct H.
Qed.

(** The hypotheses of [reason_steps_in_order] hold of a call with a
    jurisdiction and no context: the compliance step is there, the context
    step is not. *)
Lemma reason_steps_in_order_witness :
  exists r,
    reason example_host (new_ALNKernel default_options)
      (JStr "Plan a repository")
      JUndefined (JObj [ ("jurisdictions", JArr [ JStr "EU" ]) ]) JUndefined
    = Ok r
    /\ map id (steps r)
       = [ "analyze-intent"; "design-structure"; "compliance-alignment";
           "enforce-integrity"; "replication-strategy" ].
Proof.
  destruct (reason_steps_in_order example_host
              (new_ALNKernel default_options) "Plan a repository"
              JUndefined (JObj [ ("jurisdictions", JArr [ JStr "EU" ]) ])
              JUndefined)
    as (r & Hr & Hids & _).
  - discriminate.
  - apply no_context_serializable.
  - exists r. split; [ exact Hr | exact Hids ].
Defined.


(** *** The envelope validator, rule by rule *)

Lemma Get_field (m : Props) (key : string) :
  String.eqb key "__proto__" || mem key ObjectPrototype_methods = false ->
  Get m key = match own m key with Some v => v | None => JUndefined end
  /\ HasProperty m key = match own m key with Some _ => true | None => false end.
Proof.
  intros H. unfold Get, HasProperty. destruct (own m key); [ now split | ].
  rewrite H. apply orb_false_elim in H as [-> ->]. now split.
Qed.

Lemma not_nonempty_string_false (v : JsValue) :
  not_nonempty_string v = false <-> nonempty_string v.
Proof.
  unfold nonempty_string. split.
  - destruct v; cbn; try discriminate. intros H. exists s. split; [ easy | ].
    now apply String.eqb_neq.
  - intros (s & -> & Hs). cbn. now apply String.eqb_neq.
Qed.

Lemma kind_check_false (v : JsValue) :
  negb (String.eqb (typeof v) "string") || negb (has allowedKinds v) = false
  <-> exists kind, v = JStr kind /\ In kind allowedKinds.
Proof.
  split.
  - destruct v; cbn [typeof has]; try (cbn; discriminate).
    intros H. apply orb_false_elim in H as [_ H].
    apply negb_false_iff in H. exists s. split; [ easy | now apply mem_In ].
  - intros (kind & -> & Hin). apply mem_In in Hin. cbn [typeof has].
    rewrite Hin. reflexivity.
Qed.

Lemma timestamp_check_false (v : JsValue) :
  negb (String.eqb (typeof v) "number") || negb (Number_isFinite v) = false
  <-> exists x, v = JNum x /\ is_finite x = true.
Proof.
  split.
  - destruct v; cbn; try discriminate. intros H.
    apply negb_false_iff in H. now exists x.
  - intros (x & -> & Hx). cbn. now rewrite Hx.
Qed.

Lemma payload_check_false (v : JsValue) :
  negb (String.eqb (typeof v) "object") || is_null v = false
  <-> object_or_array v.
Proof.
  unfold object_or_array. split.
  - destruct v; cbn; try discriminate; intros _;
      [ right; now exists items | left; now exists props ].
  - intros [(props & ->) | (items & ->)]; reflexivity.
Qed.

Lemma not_plain_object_iff (v : JsValue) :
  not_plain_object v = false <-> exists props, v = JObj props.
Proof.
  split.
  - destruct v; cbn; try discriminate. intros _. now exists props.
  - intros (props & ->). reflexivity.
Qed.

Lemma entry_present_iff (e : IntentEntry) :
  entry_present e = true <-> e <> Missing.
Proof. destruct e; cbn; split; intros H; congruence. Qed.

Lemma envelope_errors_nil (m : Props) :
  envelope_errors m = []
  <-> not_nonempty_string (Get m "id") = false
      /\ negb (String.eqb (typeof (Get m "kind")) "string")
         || negb (has allowedKinds (Get m "kind")) = false
      /\ negb (String.eqb (typeof (Get m "timestamp")) "number")
         || negb (Number_isFinite (Get m "timestamp")) = false
      /\ negb (String.eqb (typeof (Get m "payload")) "object")
         || is_null (Get m "payload") = false
      /\ (HasProperty m "meta" = true ->
          not_plain_object (Get m "meta") = false).
Proof.
  unfold envelope_errors.
  destruct (not_nonempty_string (Get m "id"));
    destruct (negb (String.eqb (typeof (Get m "kind")) "string")
              || negb (has allowedKinds (Get m "kind")));
    destruct (negb (String.eqb (typeof (Get m "timestamp")) "number")
              || negb (Number_isFinite (Get m "timestamp")));
    destruct (negb (String.eqb (typeof (Get m "payload")) "object")
              || is_null (Get m "payload"));
    destruct (HasProperty m "meta");
    destruct (not_plain_object (Get m "meta"));
    (split;
     [ intros H;
       try (exfalso; revert H; apply push_not_nil);
       repeat split; auto; discriminate
     | intros (H1 & H2 & H3 & H4 & H5);
       try discriminate; try (specialize (H5 eq_refl); discriminate);
       reflexivity ]).
Qed.

Lemma intent_errors_nil (m : Props) (errs : list string) :
  intent_errors m errs = []
  <-> errs = []
      /\ (has intentKinds (Get m "kind") = true ->
          not_nonempty_string (Get m "intent") = false
          /\ entry_present
               (ALNSpec_intents_get (string_of (Get m "intent"))) = true).
Proof.
  unfold intent_errors.
  destruct (has intentKinds (Get m "kind"));
    destruct (not_nonempty_string (Get m "intent"));
    destruct (entry_present
                (ALNSpec_intents_get (string_of (Get m "intent"))));
    cbn [negb];
    (split;
     [ intros H;
       first
         [ exfalso; revert H; apply push_not_nil
         | split; [ exact H | ]; intros; try split; auto; discriminate ]
     | intros (H1 & H2);
       try (destruct (H2 eq_refl); discriminate);
       exact H1 ]).
Qed.

(** The validator reports no error exactly when the rules hold. *)
Lemma envelope_accepted_iff (m : Props) :
  intent_errors m (envelope_errors m) = [] <-> envelope_rules m.
Proof.
  rewrite intent_errors_nil, envelope_errors_nil.
  rewrite not_nonempty_string_false, kind_check_false, timestamp_check_false,
    payload_check_false.
  destruct (Get_field m "id" eq_refl) as [Gid _].
  destruct (Get_field m "kind" eq_refl) as [Gkind _].
  destruct (Get_field m "timestamp" eq_refl) as [Gts _].
  destruct (Get_field m "payload" eq_refl) as [Gpay _].
  destruct (Get_field m "meta" eq_refl) as [Gmeta Hmeta].
  destruct (Get_field m "intent" eq_refl) as [Gint _].
  rewrite Gid, Gkind, Gts, Gpay, Gmeta, Hmeta, Gint.
  clear Gid Gkind Gts Gpay Gmeta Hmeta Gint.
  unfold envelope_rules. split.
  - intros ((Hid & (kind & Hk & Hkin) & (x & Hx & Hfin) & Hpay & Hm) & Hintent).
    split; [ | split; [ | split; [ | split; [ | split ] ] ] ].
    + destruct (own m "id") as [v | ]; [ now exists v | ].
      destruct Hid as (s & Hs & _). discriminate.
    + exists kind. destruct (own m "kind"); [ | discriminate ].
      cbn in Hk. now subst.
    + exists x. destruct (own m "timestamp"); [ | discriminate ].
      cbn in Hx. now subst.
    + destruct (own m "payload") as [v | ]; [ now exists v | ].
      destruct Hpay as [(p & Hp) | (p & Hp)]; discriminate.
    + destruct (own m "meta") as [v | ]; [ right | now left ].
      apply not_plain_object_iff in Hm as (props & ->); [ | reflexivity ].
      now exists props.
    + intros kind' Hown Hin. rewrite Hown in Hintent.
      apply mem_In in Hin. destruct (Hintent Hin) as [Hname Hpresent].
      apply not_nonempty_string_false in Hname as (name & Hname & Hne).
      destruct (own m "intent") as [v | ]; [ | discriminate ]. subst v.
      exists name. repeat split; auto. now apply entry_present_iff.
  - intros ((id & Hid & Hids) & (kind & Hk & Hkin) & (x & Hx & Hfin)
            & (payload & Hpay & Hobj) & Hm & Hintent).
    rewrite Hid, Hk, Hx, Hpay.
    split; [ split; [ | split; [ | split; [ | split ] ] ] | ]; auto.
    + now exists kind.
    + now exists x.
    + destruct Hm as [-> | (props & ->)]; [ discriminate | reflexivity ].
    + intros H. cbn [has] in H. apply mem_In in H.
      destruct (Hintent kind Hk H) as (name & -> & Hne & Hp).
      split; [ apply not_nonempty_string_false; now exists name | ].
      now apply entry_present_iff.
Qed.

Lemma report_valid_iff (errs : list string) :
  valid (report errs) = true <-> errs = [].
Proof.
  unfold report. cbn. destruct errs; cbn; split; intros H;
    try reflexivity; discriminate.
Qed.

(** Whatever the message, [validateMessageEnvelope] returns; it answers
    valid exactly on the plain objects that keep every rule of the envelope:
    a non-empty string [id], a [kind] among the seven, a finite [timestamp],
    a [payload] that is a plain object or an array, no [meta] or a plain
    object, and on the three intent-bearing kinds a non-empty [intent] the
    registry answers for.  In every other case [valid] is false and at least
    one error is listed; a message that is not a plain object gets the one
    error on the message itself. *)
Theorem validateMessageEnvelope_valid_iff :
  forall message : JsValue,
    (validateMessageEnvelope message = Ok {| valid := true; errors := [] |}
     <-> exists m, message = JObj m /\ envelope_rules m)
    /\ (exists r,
          validateMessageEnvelope message = Ok r
          /\ (valid r = true <-> errors r = []))
    /\ ((forall m, message <> JObj m) ->
        validateMessageEnvelope message
        = Ok {| valid := false; errors := [ "Message must be an object" ] |}).
Proof.
  intros message.
  destruct (not_plain_object message) eqn:Hplain.
  - assert (Hr : validateMessageEnvelope message
                 = Ok {| valid := false;
                         errors := [ "Message must be an object" ] |})
      by (unfold validateMessageEnvelope; now rewrite Hplain).
    split; [ | split ].
    + rewrite Hr. split; [ discriminate | ].
      intros (m & -> & _). discriminate Hplain.
    + rewrite Hr. eexists. split; [ reflexivity | ].
      cbn. split; discriminate.
    + intros _. exact Hr.
  - apply not_plain_object_iff in Hplain as (m & ->).
    change (validateMessageEnvelope (JObj m))
      with (Ok (report (intent_errors m (envelope_errors m)))).
    split; [ | split ].
    + split.
      * intros H. unfold report in H. injection H as _ He.
        exists m. split; [ reflexivity | ].
        apply envelope_accepted_iff. exact He.
      * intros (m' & Hm & He). inversion Hm; subst m'.
        apply envelope_accepted_iff in He. now rewrite He.
    + eexists. split; [ reflexivity | ]. apply report_valid_iff.
    + intros H. now destruct (H m).
Qed.

(** *** The envelope factory, case by case *)

Lemma envelope_gate_cases (label : string) (m : Props) :
  (envelope_rules m
   /\ envelope_gate label m = Ok (JObj m)
   /\ validateMessageEnvelope (JObj m) = Ok {| valid := true; errors := [] |})
  \/ (~ envelope_rules m
      /\ exists msg, envelope_gate label m = Throw (Error (label ++ msg))).
Proof.
  unfold envelope_gate.
  change (validateMessageEnvelope (JObj m))
    with (Ok (report (intent_errors m (envelope_errors m)))).
  cbn [bind].
  destruct (intent_errors m (envelope_errors m)) as [ | e rest ] eqn:He.
  - left. split; [ now apply envelope_accepted_iff | now split ].
  - right. split.
    + intros H. apply envelope_accepted_iff in H. congruence.
    + eexists. reflexivity.
Qed.

Lemma own_assembled (id : JsValue) (kind : string) (intent : option JsValue)
  (now : float) (payload meta : JsValue) :
  let m := assembled id kind intent now payload meta in
  own m "id" = Some id
  /\ own m "kind" = Some (JStr kind)
  /\ own m "timestamp" = Some (JNum now)
  /\ own m "payload" = Some payload
  /\ own m "meta" = (if ToBoolean meta then Some meta else None)
  /\ own m "intent" = intent.
Proof.
  unfold assembled, spread_meta.
  destruct intent; destruct (ToBoolean meta); repeat split; reflexivity.
Qed.

Lemma assembled_rules (id : JsValue) (kind : string)
  (intent : option JsValue) (now : float) (payload meta : JsValue) :
  In kind allowedKinds ->
  envelope_rules (assembled id kind intent now payload meta)
  <-> nonempty_string id /\ is_finite now = true /\ object_or_array payload
      /\ meta_accepted meta
      /\ (In kind intentKinds ->
          exists name,
            intent = Some (JStr name) /\ name <> EmptyString
            /\ ALNSpec_intents_get name <> Missing).
Proof.
  intros Hkind.
  destruct (own_assembled id kind intent now payload meta)
    as (Hid & Hk & Hts & Hpay & Hmeta & Hint).
  unfold envelope_rules. rewrite Hid, Hk, Hts, Hpay, Hmeta, Hint.
  unfold meta_accepted. split.
  - intros ((id' & Hid' & Hs) & _ & (x & Hx & Hfin) & (p & Hp & Hobj)
            & Hm & Hi).
    inversion Hid'; subst id'. inversion Hp; subst p. inversion Hx; subst x.
    split; [ exact Hs | split; [ exact Hfin | split; [ exact Hobj | split ] ] ].
    + destruct (ToBoolean meta); [ right | now left ].
      destruct Hm as [Hm | (props & Hm)]; [ discriminate | ].
      inversion Hm. now exists props.
    + intros Hin. destruct (Hi kind eq_refl Hin) as (name & Hn & Hne & Hp').
      exists name. now repeat split.
  - intros (Hs & Hfin & Hobj & Hm & Hi).
    split; [ now exists id | ].
    split; [ now exists kind | ].
    split; [ now exists now | ].
    split; [ now exists payload | ].
    split.
    + destruct (ToBoolean meta); [ right | now left ].
      destruct Hm as [Hm | (props & ->)]; [ discriminate | ].
      now exists props.
    + intros kind' Hk' Hin. inversion Hk'; subst kind'.
      destruct (Hi Hin) as (name & -> & Hne & Hp').
      now exists name.
Qed.

(** [createHeartbeat] returns exactly when [id] is a non-empty string, the
    clock reads a finite number, the payload (an empty object when the
    argument is [undefined]) is a plain object or an array, and [meta] is
    falsy or a plain object.  It then returns the assembled envelope, which
    carries no [intent] and passes [validateMessageEnvelope]; in every other
    case, a [null] payload among them, it raises the heartbeat error. *)
Theorem createHeartbeat_returns_iff :
  forall (h : Host) (id payload meta : JsValue),
    let envelope :=
      ([ ("id", id); ("kind", JStr ALNMessageKinds.HEARTBEAT);
         ("timestamp", JNum (Date_now h));
         ("payload", default_empty payload) ] ++ spread_meta meta)%list in
    let accepted :=
      nonempty_string id /\ is_finite (Date_now h) = true
      /\ object_or_array (default_empty payload) /\ meta_accepted meta in
    (accepted ->
     createHeartbeat h id payload meta = Ok (JObj envelope)
     /\ own envelope "intent" = None
     /\ validateMessageEnvelope (JObj envelope)
        = Ok {| valid := true; errors := [] |})
    /\ (~ accepted ->
        exists msg,
          createHeartbeat h id payload meta
          = Throw (Error ("Invalid heartbeat envelope: " ++ msg))).
Proof.
  intros h id payload meta envelope accepted.
  change (createHeartbeat h id payload meta)
    with (envelope_gate "Invalid heartbeat envelope: "
            (assembled id ALNMessageKinds.HEARTBEAT None (Date_now h)
               (default_empty payload) meta)).
  change envelope
    with (assembled id ALNMessageKinds.HEARTBEAT None (Date_now h)
            (default_empty payload) meta).
  assert (Hrules :
            envelope_rules
              (assembled id ALNMessageKinds.HEARTBEAT None (Date_now h)
                 (default_empty payload) meta)
            <-> accepted).
  { rewrite assembled_rules by (apply mem_In; reflexivity).
    unfold accepted. split.
    - intros (H1 & H2 & H3 & H4 & _). now repeat split.
    - intros (H1 & H2 & H3 & H4). repeat split; auto.
      intros Hin. apply mem_In in Hin. discriminate Hin. }
  destruct (envelope_gate_cases "Invalid heartbeat envelope: "
              (assembled id ALNMessageKinds.HEARTBEAT None (Date_now h)
                 (default_empty payload) meta))
    as [(Hr & Hgate & Hvalid) | (Hn & msg & Hgate)].
  - split; [ | intros Hno; apply Hrules in Hr; contradiction ].
    intros _. split; [ exact Hgate | split; [ | exact Hvalid ] ].
    apply (own_assembled id ALNMessageKinds.HEARTBEAT None).
  - split; [ intros Hyes; apply Hrules in Hyes; contradiction | ].
    intros _. now exists msg.
Qed.

(** [createErrorMessage] wraps [code], [message] and [details] in an object
    payload without looking at them, so it returns exactly when [id] is a
    non-empty string, the clock reads a finite number and [meta] is falsy or
    a plain object; the envelope it returns passes [validateMessageEnvelope].
    In every other case it raises the error-envelope error. *)
Theorem createErrorMessage_returns_iff :
  forall (h : Host) (id code messageText details meta : JsValue),
    let envelope :=
      ([ ("id", id); ("kind", JStr ALNMessageKinds.ERROR);
         ("timestamp", JNum (Date_now h));
         ("payload",
          JObj [ ("code", code); ("message", messageText);
                 ("details", default_empty details) ]) ]
       ++ spread_meta meta)%list in
    let accepted :=
      nonempty_string id /\ is_finite (Date_now h) = true
      /\ meta_accepted meta in
    (accepted ->
     createErrorMessage h id code messageText details meta = Ok (JObj envelope)
     /\ validateMessageEnvelope (JObj envelope)
        = Ok {| valid := true; errors := [] |})
    /\ (~ accepted ->
        exists msg,
          createErrorMessage h id code messageText details meta
          = Throw (Error ("Invalid error envelope: " ++ msg))).
Proof.
  intros h id code messageText details meta envelope accepted.
  set (payload := JObj [ ("code", code); ("message", messageText);
                         ("details", default_empty details) ]) in *.
  change (createErrorMessage h id code messageText details meta)
    with (envelope_gate "Invalid error envelope: "
            (assembled id ALNMessageKinds.ERROR None (Date_now h) payload
               meta)).
  change envelope
    with (assembled id ALNMessageKinds.ERROR None (Date_now h) payload meta).
  assert (Hrules :
            envelope_rules
              (assembled id ALNMessageKinds.ERROR None (Date_now h) payload
                 meta)
            <-> accepted).
  { rewrite assembled_rules by (apply mem_In; reflexivity).
    unfold accepted. split.
    - intros (H1 & H2 & H3 & H4 & _). now repeat split.
    - intros (H1 & H2 & H4). repeat split; auto.
      + left. now eexists.
      + intros Hin. apply mem_In in Hin. discriminate Hin. }
  destruct (envelope_gate_cases "Invalid error envelope: "
              (assembled id ALNMessageKinds.ERROR None (Date_now h) payload
                 meta))
    as [(Hr & Hgate & Hvalid) | (Hn & msg & Hgate)].
  - split; [ | intros Hno; apply Hrules in Hr; contradiction ].
    intros _. now split.
  - split; [ intros Hyes; apply Hrules in Hyes; contradiction | ].
    intros _. now exists msg.
Qed.

Lemma validateIntentOutput_valid (h : Host)
  (intentName outputPayload : JsValue) (v : Validation) :
  validateIntentOutput h intentName outputPayload false = Ok v ->
  valid v = true ->
  exists name,
    ToPropertyKey h intentName = Ok (StringKey name)
    /\ ALNSpec_intents_get name <> Missing
    /\ (exists props, outputPayload = JObj props)
    /\ name <> EmptyString.
Proof.
  intros H Hv.
  destruct (intent_key_of_result h intentName outputPayload entry_outputShape
              false v H) as (name & Hkey & _ & Hrest).
  destruct (Hrest Hv) as (Hp & Hobj & Hname).
  exists name. split; [ exact Hkey | ].
  split; [ now apply entry_present_iff | split; [ | exact Hname ] ].
  now apply not_plain_object_iff.
Qed.

Lemma createExecutionResult_gate (h : Host)
  (id intentName outputPayload meta : JsValue) :
  createExecutionResult h id intentName outputPayload meta
  = (outputValidation <- validateIntentOutput h intentName outputPayload false ;;
     if negb (valid outputValidation) then
       shown <- ToString h intentName ;;
       Throw (Error ("Invalid output for intent " ++ dq ++ shown ++ dq
                     ++ ": " ++ join "; " (errors outputValidation)))
     else
       envelope_gate "Invalid envelope: "
         (assembled id ALNMessageKinds.EXECUTION_RESULT (Some intentName)
            (Date_now h) outputPayload meta)).
Proof. reflexivity. Qed.

(** [createExecutionResult] first validates the output against the output
    shape of the intent [intentName] converts to as a property key: an error
    raised there is passed on, and an invalid output raises the output error
    with [intentName] rendered as a string and every message of the
    validator joined.  After a valid output it returns exactly when [id] is
    a non-empty string, [intentName] is itself a string, the clock reads a
    finite number and [meta] is falsy or a plain object; the envelope it
    returns passes [validateMessageEnvelope].  Otherwise, an [intentName]
    that only converts to the name of an intent among the cases, it raises
    the envelope error. *)
Theorem createExecutionResult_cases :
  forall (h : Host) (id intentName outputPayload meta : JsValue),
    let envelope :=
      ([ ("id", id); ("kind", JStr ALNMessageKinds.EXECUTION_RESULT);
         ("intent", intentName); ("timestamp", JNum (Date_now h));
         ("payload", outputPayload) ] ++ spread_meta meta)%list in
    let accepted :=
      nonempty_string id /\ (exists name, intentName = JStr name)
      /\ is_finite (Date_now h) = true /\ meta_accepted meta in
    (forall e,
       validateIntentOutput h intentName outputPayload false = Throw e ->
       createExecutionResult h id intentName outputPayload meta = Throw e)
    /\ (forall v,
          validateIntentOutput h intentName outputPayload false = Ok v ->
          valid v = false ->
          exists shown,
            ToString h intentName = Ok shown
            /\ createExecutionResult h id intentName outputPayload meta
               = Throw (Error ("Invalid output for intent " ++ dq ++ shown
                               ++ dq ++ ": " ++ join "; " (errors v))))
    /\ (forall v,
          validateIntentOutput h intentName outputPayload false = Ok v ->
          valid v = true ->
          (accepted ->
           createExecutionResult h id intentName outputPayload meta
           = Ok (JObj envelope)
           /\ validateMessageEnvelope (JObj envelope)
              = Ok {| valid := true; errors := [] |})
          /\ (~ accepted ->
              exists msg,
                createExecutionResult h id intentName outputPayload meta
                = Throw (Error ("Invalid envelope: " ++ msg)))).
Proof.
  intros h id intentName outputPayload meta envelope accepted.
  rewrite createExecutionResult_gate.
  split; [ | split ].
  - intros e ->. reflexivity.
  - intros v Hout Hv.
    destruct (intent_key_of_result h intentName outputPayload
                entry_outputShape false v Hout) as (shown & _ & Hshown & _).
    exists shown. split; [ exact Hshown | ].
    rewrite Hout. cbn [bind]. rewrite Hv, Hshown. reflexivity.
  - intros v Hout Hv.
    destruct (validateIntentOutput_valid _ _ _ _ Hout Hv)
      as (name & Hkey & Hpresent & (props & ->) & Hname).
    rewrite Hout. cbn [bind]. rewrite Hv. cbn [negb].
    change envelope
      with (assembled id ALNMessageKinds.EXECUTION_RESULT (Some intentName)
              (Date_now h) (JObj props) meta).
    assert (Hrules :
              envelope_rules
                (assembled id ALNMessageKinds.EXECUTION_RESULT
                   (Some intentName) (Date_now h) (JObj props) meta)
              <-> accepted).
    { rewrite assembled_rules by (apply mem_In; reflexivity).
      unfold accepted. split.
      - intros (H1 & H2 & H3 & H4 & H5).
        destruct H5 as (n & Hn & _); [ apply mem_In; reflexivity | ].
        inversion Hn. split; [ exact H1 | split; [ now exists n | now split ] ].
      - intros (H1 & (n & Hn) & H2 & H4). repeat split; auto.
        + left. now eexists.
        + intros _. subst intentName. cbn in Hkey. inversion Hkey; subst n.
          now exists name. }
    destruct (envelope_gate_cases "Invalid envelope: "
                (assembled id ALNMessageKinds.EXECUTION_RESULT
                   (Some intentName) (Date_now h) (JObj props) meta))
      as [(Hr & Hgate & Hvalid) | (Hn & msg & Hgate)].
    + split; [ | intros Hno; apply Hrules in Hr; contradiction ].
      intros _. now split.
    + split; [ intros Hyes; apply Hrules in Hyes; contradiction | ].
      intros _. now exists msg.
Qed.

(** *** Extra keys and the intent registry *)

Lemma for_of_check_key_errors (allowedFields : list string)
  (ks : list string) :
  forall acc,
    for_of ks (check_key allowedFields) acc
    = Ok (acc ++ map unexpected_error
                   (filter (fun key => negb (mem key allowedFields)) ks))%list.
Proof.
  induction ks as [ | key rest IH ]; intros acc; cbn [for_of filter map].
  - now rewrite app_nil_r.
  - unfold check_key at 1.
    destruct (negb (mem key allowedFields)); cbn [bind map].
    + rewrite IH. unfold push. now rewrite <- app_assoc.
    + apply IH.
Qed.

(** With [allowExtraKeys] true [validateShape] reports the missing and the
    mistyped fields only.  The strict call on the same arguments returns as
    well and lists the same errors first, followed by one error for each own
    key of the payload outside the shape, in the order of the payload's
    keys; so a payload valid under the strict call is valid under the
    lenient one. *)
Theorem validateShape_allowExtraKeys :
  forall (h : Host) (payload : Props) (shape : JsValue) (r : Validation),
    validateShape h (JObj payload) shape true = Ok r ->
    List.length (errors r)
    = count (missing payload) (own_enumerable shape)
      + count (mistyped h payload) (own_enumerable shape)
    /\ exists strict,
         validateShape h (JObj payload) shape false = Ok strict
         /\ errors strict
            = (errors r
               ++ map unexpected_error
                    (filter (unexpected (own_enumerable shape))
                       (keys payload)))%list
         /\ (valid strict = true -> valid r = true).
Proof.
  intros h payload shape r H.
  unfold validateShape in *.
  cbn [not_plain_object typeof String.eqb Ascii.eqb Bool.eqb negb orb is_null
       Array_isArray plain_props] in *.
  cbn -[Object_entries for_of check_field report Object_keys] in *.
  apply bind_Ok in H as (entries & Hentries & H).
  apply bind_Ok in H as (errs & Hloop & H).
  cbn [bind] in H. injection H as <-.
  pose proof (Object_entries_Ok _ _ Hentries) as ->.
  destruct (for_of_check_field _ _ _ _ _ Hloop) as (added & Hadded & Hlen).
  cbn [app] in Hadded. subst errs.
  split; [ exact Hlen | ].
  rewrite Hentries. cbn [bind]. rewrite Hloop. cbn [bind].
  unfold Object_keys. rewrite Hentries. cbn [bind Object_entries own_enumerable].
  rewrite for_of_check_key_errors. cbn [bind].
  eexists. split; [ reflexivity | ].
  split; [ reflexivity | ].
  unfold report. cbn [valid errors].
  destruct added; [ reflexivity | discriminate ].
Qed.

(** The hypothesis of [validateShape_allowExtraKeys] holds of a payload with
    one declared field and one undeclared key. *)
Lemma validateShape_allowExtraKeys_witness :
  exists r,
    validateShape example_host
      (JObj [ ("name", JStr "x"); ("extra", JBool true) ])
      (JObj [ ("name", JStr ALNPrimitives.STRING) ]) true
    = Ok r
    /\ List.length (errors r) = 0.
Proof.
  eexists. split; [ reflexivity | ].
  exact (proj1 (validateShape_allowExtraKeys example_host
                  [ ("name", JStr "x"); ("extra", JBool true) ]
                  (JObj [ ("name", JStr ALNPrimitives.STRING) ])
                  _ eq_refl)).
Defined.

Lemma registered_shapes_renderable (h : Host) (payload : Props)
  (name : string) (spec : IntentSpec) :
  In (name, spec) ALNSpec_intents ->
  renderable h payload (inputShape spec)
  /\ renderable h payload (outputShape spec).
Proof.
  intros Hin. cbn in Hin.
  destruct Hin as [H | [H | [H | []]]]; inversion H; subst; cbn;
    (split; intros field primitive Hf; cbn in Hf;
     repeat (destruct Hf as [Hf | Hf];
             [ inversion Hf; subst; eexists;
               split; [ reflexivity | discriminate ] | ]);
     destruct Hf).
Qed.

(** On each of the three registered intents, [validateIntentInput] and
    [validateIntentOutput] are [validateShape] against the input and the
    output shape of the intent, and they return on every payload: no shape
    in the registry uses the number tag, the one that renders a value. *)
Theorem registered_intents_validate :
  forall (h : Host) (name : string) (spec : IntentSpec) (payload : JsValue)
         (allowExtraKeys : bool),
    In (name, spec) ALNSpec_intents ->
    validateIntentInput h (JStr name) payload allowExtraKeys
    = validateShape h payload (JObj (inputShape spec)) allowExtraKeys
    /\ validateIntentOutput h (JStr name) payload allowExtraKeys
       = validateShape h payload (JObj (outputShape spec)) allowExtraKeys
    /\ returns (validateIntentInput h (JStr name) payload allowExtraKeys)
    /\ returns (validateIntentOutput h (JStr name) payload allowExtraKeys).
Proof.
  intros h name spec payload allowExtraKeys Hin.
  assert (Hget : ALNSpec_intents_get name = Registered spec).
  { cbn in Hin. destruct Hin as [H | [H | [H | []]]]; inversion H; subst;
      reflexivity. }
  assert (Hi : validateIntentInput h (JStr name) payload allowExtraKeys
               = validateShape h payload (JObj (inputShape spec))
                   allowExtraKeys)
    by (rewrite validateIntentInput_string; now rewrite Hget).
  assert (Ho : validateIntentOutput h (JStr name) payload allowExtraKeys
               = validateShape h payload (JObj (outputShape spec))
                   allowExtraKeys)
    by (rewrite validateIntentOutput_string; now rewrite Hget).
  destruct (registered_shapes_renderable h (plain_props payload) name spec Hin)
    as [Hrin Hrout].
  rewrite Hi, Ho.
  repeat split; apply validateShape_returns; right;
    (split; [ discriminate | split; [ discriminate | assumption ] ]).
Qed.

(** The hypothesis of [registered_intents_validate] holds of the
    repository-plan intent. *)
Lemma registered_intents_validate_witness :
  returns (validateIntentInput example_host (JStr "aln::plan_repository")
             (JObj [ ("description", JNum 1) ]) false).
Proof.
  refine (proj1 (proj2 (proj2
            (registered_intents_validate example_host "aln::plan_repository"
               _ (JObj [ ("description", JNum 1) ]) false _)))).
  right. left. reflexivity.
Defined.

(** A name the registry has no entry for gets one [Unknown intent] error
    from both validators, whatever the payload.  A name of a member of
    [Object.prototype] is not unknown: the registry object answers for it
    with the inherited member, which has no shape, so a plain-object
    payload makes the validators raise a [TypeError], and any other payload
    gets the error on the payload. *)
Theorem unregistered_intents_validate :
  forall (h : Host) (name : string) (payload : JsValue)
         (allowExtraKeys : bool),
    (ALNSpec_intents_get name = Inherited
     <-> name = "__proto__" \/ In name ObjectPrototype_methods)
    /\ (ALNSpec_intents_get name = Missing ->
        validateIntentInput h (JStr name) payload allowExtraKeys
        = Ok {| valid := false;
                errors := [ "Unknown intent " ++ dq ++ name ++ dq ] |}
        /\ validateIntentOutput h (JStr name) payload allowExtraKeys
           = Ok {| valid := false;
                   errors := [ "Unknown intent " ++ dq ++ name ++ dq ] |})
    /\ (ALNSpec_intents_get name = Inherited ->
        ((exists props, payload = JObj props) ->
         validateIntentInput h (JStr name) payload allowExtraKeys
         = Throw (TypeError "Cannot convert undefined or null to object")
         /\ validateIntentOutput h (JStr name) payload allowExtraKeys
            = Throw (TypeError "Cannot convert undefined or null to object"))
        /\ ((forall props, payload <> JObj props) ->
            exists msg,
              validateIntentInput h (JStr name) payload allowExtraKeys
              = Ok {| valid := false; errors := [ msg ] |}
              /\ validateIntentOutput h (JStr name) payload allowExtraKeys
                 = Ok {| valid := false; errors := [ msg ] |})).
Proof.
  intros h name payload allowExtraKeys.
  split; [ | split ].
  - unfold ALNSpec_intents_get.
    destruct (find_intent ALNSpec_intents name) as [spec | ] eqn:Hfind.
    + split; [ discriminate | ].
      intros Hname. exfalso.
      assert (Hnone : find_intent ALNSpec_intents name = None).
      { destruct Hname as [-> | Hname]; [ reflexivity | ].
        cbn in Hname. decompose [or] Hname; subst; try reflexivity.
        contradiction. }
      congruence.
    + destruct (String.eqb name "__proto__") eqn:Hproto; cbn [orb].
      * apply String.eqb_eq in Hproto. split; auto.
      * rewrite <- mem_In.
        destruct (mem name ObjectPrototype_methods); split; intros H;
          try reflexivity; try discriminate; auto.
        destruct H as [-> | H]; discriminate.
  - intros Hget. rewrite validateIntentInput_string, validateIntentOutput_string.
    rewrite Hget. now split.
  - intros Hget. rewrite validateIntentInput_string, validateIntentOutput_string.
    rewrite Hget. cbn [entry_present negb entry_inputShape entry_outputShape].
    split.
    + intros (props & ->). now split.
    + intros Hno. unfold validateShape.
      destruct (not_plain_object payload) eqn:Hplain.
      * eexists. split; reflexivity.
      * apply not_plain_object_iff in Hplain as (props & ->).
        now destruct (Hno props).
Qed.

(** *** The kernel: matched intents, risks, environment hints *)

(** Evaluate every search in a text that is known. *)
Ltac known_searches :=
  repeat match goal with
  | |- context [includes ?s ?keyword] =>
      tryif is_var s then fail
      else (let b := eval vm_compute in (includes s keyword) in
            change (includes s keyword) with b)
  end.

Lemma matchALNIntents_by_keyword (text : string) :
  _matchALNIntents text
  = ((if includes (toLowerCase text) "virtual"
      then [ "aln::define_virtual_object" ] else [])
     ++ (if includes (toLowerCase text) "repo"
         then [ "aln::plan_repository" ] else [])
     ++ (if includes (toLowerCase text) "python"
         then [ "aln::interop_python" ] else []))%list.
Proof.
  unfold _matchALNIntents.
  generalize (toLowerCase text) as lower. intros lower.
  unfold ALNSpec_intents. cbn [filter]. unfold matches_intent.
  cbn [description].
  known_searches.
  cbn [andb orb]. rewrite !orb_false_r.
  destruct (includes lower "virtual"), (includes lower "repo"),
    (includes lower "python"); reflexivity.
Qed.

(** [_matchALNIntents] lists the registered intents in registry order, each
    at most once: the virtual-object intent exactly when the text mentions
    [virtual], the repository intent exactly when it mentions [repo], the
    Python intent exactly when it mentions [python], whatever the case of
    the letters.  Its fourth test, on [policy], selects nothing: no
    description in the registry contains that word. *)
Theorem matchALNIntents_keywords :
  forall text : string,
    let matched := _matchALNIntents text in
    (In "aln::define_virtual_object" matched <-> ci_contains text "virtual")
    /\ (In "aln::plan_repository" matched <-> ci_contains text "repo")
    /\ (In "aln::interop_python" matched <-> ci_contains text "python")
    /\ (exists keep : string -> bool,
          matched = filter keep (map fst ALNSpec_intents))
    /\ NoDup matched.
Proof.
  intros text matched. unfold matched.
  rewrite matchALNIntents_by_keyword.
  rewrite <- !includes_toLowerCase.
  destruct (includes (toLowerCase text) "virtual") eqn:Hv,
    (includes (toLowerCase text) "repo") eqn:Hr,
    (includes (toLowerCase text) "python") eqn:Hp;
    cbn [app];
    (split; [ | split; [ | split; [ | split ] ] ]);
    try (split; [ intros Hin; cbn in Hin; decompose [or] Hin;
                  try discriminate; try contradiction; reflexivity
                | intros Heq; try discriminate; cbn; tauto ]);
    try (repeat constructor; cbn; intuition discriminate).
  all: exists (fun id =>
                 (String.eqb id "aln::define_virtual_object"
                  && includes (toLowerCase text) "virtual")
                 || (String.eqb id "aln::plan_repository"
                     && includes (toLowerCase text) "repo")
                 || (String.eqb id "aln::interop_python"
                     && includes (toLowerCase text) "python"));
    cbn [map fst ALNSpec_intents filter]; rewrite Hv, Hr, Hp; reflexivity.
Qed.

Lemma string_app_assoc (a b c : string) : (a ++ b) ++ c = a ++ (b ++ c).
Proof. induction a as [ | x a IH ]; cbn; congruence. Qed.

Lemma includes_longer (s keyword more : string) :
  includes s (keyword ++ more) = true -> includes s keyword = true.
Proof.
  rewrite !includes_spec. intros (before & after & ->).
  exists before, (more ++ after).
  now rewrite string_app_assoc.
Qed.

(** The two classifiers of the first step agree on repositories: a text
    classified [repository_plan] matches the repository intent, and a text
    that matches the repository intent is classified [ci_workflow] or
    [repository_plan].  The kind is [repository_plan] exactly when the text
    mentions [repo] and neither [workflow] nor [github]. *)
Theorem repository_plan_matches_registry :
  forall text : string,
    (_inferIntentType text = "repository_plan"
     <-> ci_contains text "repo" /\ ~ mentions text [ "workflow"; "github" ])
    /\ (_inferIntentType text = "repository_plan" ->
        In "aln::plan_repository" (_matchALNIntents text))
    /\ (In "aln::plan_repository" (_matchALNIntents text) ->
        _inferIntentType text = "ci_workflow"
        \/ _inferIntentType text = "repository_plan").
Proof.
  intros text.
  rewrite matchALNIntents_by_keyword.
  rewrite <- mentions_pair, <- includes_toLowerCase.
  unfold _inferIntentType.
  pose proof (includes_longer (toLowerCase text) "repo" "sitory") as Hlong.
  cbn [append] in Hlong.
  destruct (includes (toLowerCase text) "workflow"
            || includes (toLowerCase text) "github");
    destruct (includes (toLowerCase text) "repo") eqn:Hrepo;
    destruct (includes (toLowerCase text) "repository") eqn:Hrepository;
    try (specialize (Hlong eq_refl); discriminate Hlong);
    cbn [orb];
    destruct (includes (toLowerCase text) "virtual");
    destruct (includes (toLowerCase text) "python"
              || includes (toLowerCase text) "notebook");
    destruct (includes (toLowerCase text) "policy"
              || includes (toLowerCase text) "compliance");
    destruct (includes (toLowerCase text) "python");
    cbn [app];
    (split;
     [ split;
       [ intros H;
         first [ discriminate H | split; [ reflexivity | discriminate ] ]
       | intros [H1 H2];
         first [ discriminate H1
               | exfalso; apply H2; reflexivity
               | reflexivity ] ]
     | split;
       [ intros H; first [ discriminate H | cbn; tauto ]
       | intros H; cbn in H; decompose [or] H;
         first [ discriminate | contradiction | now left | now right ] ] ]).
Qed.

Lemma mentions_triple (text a b c : string) :
  includes (toLowerCase text) a || includes (toLowerCase text) b
  || includes (toLowerCase text) c = true
  <-> mentions text [ a; b; c ].
Proof.
  rewrite !orb_true_iff, !includes_toLowerCase. unfold mentions. split.
  - intros [[H | H] | H]; [ exists a | exists b | exists c ]; cbn; auto.
  - intros (keyword & [<- | [<- | [<- | []]]] & H); auto.
Qed.

(** [_deriveRisks] always lists the over-engineering risk first and at most
    three more: the neurotech risk exactly when the text mentions [neuro],
    [bci] or [eeg], the personal-data risk exactly when it mentions [pii] or
    [personal data], the safety risk exactly when it mentions [safety] or
    [critical], whatever the case of the letters. *)
Theorem deriveRisks_keywords :
  forall text : string,
    let risks := _deriveRisks text in
    hd_error risks
    = Some "Risk of over-engineering structure for simple tasks."
    /\ 1 <= List.length risks <= 4
    /\ (In "Neurotech contexts require medical, ethical, and privacy reviews."
          risks
        <-> mentions text [ "neuro"; "bci"; "eeg" ])
    /\ (In "Personal data processing must follow privacy and data protection rules."
          risks
        <-> mentions text [ "pii"; "personal data" ])
    /\ (In "Safety-critical systems require independent validation and redundancy."
          risks
        <-> mentions text [ "safety"; "critical" ]).
Proof.
  intros text risks. unfold risks, _deriveRisks.
  rewrite <- mentions_triple, <- !mentions_pair.
  destruct (includes (toLowerCase text) "neuro"
            || includes (toLowerCase text) "bci"
            || includes (toLowerCase text) "eeg");
    destruct (includes (toLowerCase text) "pii"
              || includes (toLowerCase text) "personal data");
    destruct (includes (toLowerCase text) "safety"
              || includes (toLowerCase text) "critical");
    unfold push; cbn [app hd_error List.length];
    (split; [ reflexivity | split; [ lia | ] ]);
    (split; [ | split ]);
    (split;
     [ intros H;
       first [ reflexivity
             | exfalso; cbn in H; decompose [or] H;
               first [ discriminate | contradiction ] ]
     | intros H; first [ discriminate H | cbn; tauto ] ]).
Qed.

(** [_inferEnvironmentHints] on a context that serializes to [text]: the
    flags and the two names are read off the text, whatever the case of the
    letters.  [hasCI] holds exactly when the text mentions [github],
    [gitlab] or [ci]; [ciProvider] is [null] exactly when [hasCI] is false,
    GitHub wins over GitLab, and any other mention of [ci] gives the generic
    provider; [runtime] is [node] exactly when the text mentions [node],
    [browser] when it mentions [browser] and not [node]. *)
Theorem inferEnvironmentHints_fields :
  forall (h : Host) (context : JsValue) (text : string),
    JSON_stringify h context = Ok (JStr text) ->
    exists (hasCI hasKubernetes hasNeuromorphicHardware : bool)
           (ciProvider runtime : JsValue),
      _inferEnvironmentHints h context
      = Ok (JObj [ ("hasCI", JBool hasCI);
                   ("hasKubernetes", JBool hasKubernetes);
                   ("hasNeuromorphicHardware", JBool hasNeuromorphicHardware);
                   ("ciProvider", ciProvider);
                   ("runtime", runtime) ])
      /\ (hasCI = true <-> mentions text [ "github"; "gitlab"; "ci" ])
      /\ (hasKubernetes = true <-> mentions text [ "kubernetes"; "k8s" ])
      /\ (hasNeuromorphicHardware = true
          <-> mentions text [ "neuromorphic"; "bci"; "eeg" ])
      /\ (ciProvider = JNull <-> hasCI = false)
      /\ (ciProvider = JStr "github_actions" <-> ci_contains text "github")
      /\ (ciProvider = JStr "gitlab_ci"
          <-> ci_contains text "gitlab" /\ ~ ci_contains text "github")
      /\ (ciProvider = JStr "generic_ci"
          <-> ci_contains text "ci" /\ ~ ci_contains text "github"
              /\ ~ ci_contains text "gitlab")
      /\ (runtime = JStr "node" <-> ci_contains text "node")
      /\ (runtime = JStr "browser"
          <-> ci_contains text "browser" /\ ~ ci_contains text "node")
      /\ (runtime = JNull
          <-> ~ ci_contains text "node" /\ ~ ci_contains text "browser").
Proof.
  intros h context text Hjson.
  unfold _inferEnvironmentHints. rewrite Hjson. cbn [bind].
  do 5 eexists. split; [ reflexivity | ].
  rewrite <- !mentions_triple, <- mentions_pair, <- !includes_toLowerCase.
  pose proof (includes_longer (toLowerCase text) "node" ".js") as Hjs.
  pose proof (includes_longer (toLowerCase text) "node" "js") as Hnjs.
  cbn [append] in Hjs, Hnjs.
  destruct (includes (toLowerCase text) "github");
    destruct (includes (toLowerCase text) "gitlab");
    destruct (includes (toLowerCase text) "ci");
    destruct (includes (toLowerCase text) "kubernetes"
              || includes (toLowerCase text) "k8s");
    destruct (includes (toLowerCase text) "neuromorphic"
              || includes (toLowerCase text) "bci"
              || includes (toLowerCase text) "eeg");
    destruct (includes (toLowerCase text) "node");
    destruct (includes (toLowerCase text) "node.js");
    try (specialize (Hjs eq_refl); discriminate Hjs);
    destruct (includes (toLowerCase text) "nodejs");
    try (specialize (Hnjs eq_refl); discriminate Hnjs);
    destruct (includes (toLowerCase text) "browser");
    cbn [orb];
    clear;
    repeat split; intros;
      repeat match goal with
      | H : _ /\ _ |- _ => destruct H
      end;
      first [ reflexivity | discriminate | congruence | tauto ].
Qed.

(** The hypothesis of [inferEnvironmentHints_fields] holds on the example
    host of a context that names GitHub and Node.js in capitals: the
    context serializes to a text that mentions both, so the hints report a
    CI of the GitHub provider and the node runtime, and neither Kubernetes
    nor neuromorphic hardware. *)
Lemma inferEnvironmentHints_fields_witness :
  JSON_stringify example_host
    (JObj [ ("provider", JStr "GitHub"); ("engine", JStr "Node.js");
            ("ci", JBool true) ])
  = Ok (JStr ("{" ++ dq ++ "provider" ++ dq ++ ":" ++ dq ++ "GitHub" ++ dq
              ++ "," ++ dq ++ "engine" ++ dq ++ ":" ++ dq ++ "Node.js" ++ dq
              ++ "," ++ dq ++ "ci" ++ dq ++ ":true}"))
  /\ _inferEnvironmentHints example_host
       (JObj [ ("provider", JStr "GitHub"); ("engine", JStr "Node.js");
               ("ci", JBool true) ])
     = Ok (JObj [ ("hasCI", JBool true);
                  ("hasKubernetes", JBool false);
                  ("hasNeuromorphicHardware", JBool false);
                  ("ciProvider", JStr "github_actions");
                  ("runtime", JStr "node") ]).
Proof.
  split; [ reflexivity | ].
  destruct (inferEnvironmentHints_fields example_host
              (JObj [ ("provider", JStr "GitHub"); ("engine", JStr "Node.js");
                      ("ci", JBool true) ])
              _ eq_refl)
    as (hasCI & hasKubernetes & hasNeuromorphicHardware & ciProvider
        & runtime & Hhints & HCI & HK & HN & _ & Hgithub & _ & _ & Hnode & _).
  assert (Hci : hasCI = true).
  { apply HCI. exists "github". split; [ left; reflexivity | ].
    exists ("{" ++ dq ++ "provider" ++ dq ++ ":" ++ dq), "GitHub",
      (dq ++ "," ++ dq ++ "engine" ++ dq ++ ":" ++ dq ++ "Node.js" ++ dq
       ++ "," ++ dq ++ "ci" ++ dq ++ ":true}").
    split; reflexivity. }
  assert (Hprovider : ciProvider = JStr "github_actions").
  { apply Hgithub.
    exists ("{" ++ dq ++ "provider" ++ dq ++ ":" ++ dq), "GitHub",
      (dq ++ "," ++ dq ++ "engine" ++ dq ++ ":" ++ dq ++ "Node.js" ++ dq
       ++ "," ++ dq ++ "ci" ++ dq ++ ":true}").
    split; reflexivity. }
  assert (Hruntime : runtime = JStr "node").
  { apply Hnode.
    exists ("{" ++ dq ++ "provider" ++ dq ++ ":" ++ dq ++ "GitHub" ++ dq
            ++ "," ++ dq ++ "engine" ++ dq ++ ":" ++ dq), "Node",
      (".js" ++ dq ++ "," ++ dq ++ "ci" ++ dq ++ ":true}").
    split; reflexivity. }
  assert (Hk : hasKubernetes = false).
  { destruct hasKubernetes; [ | reflexivity ].
    destruct HK as [HK _]. specialize (HK eq_refl).
    apply mentions_pair in HK. vm_compute in HK. discriminate HK. }
  assert (Hn : hasNeuromorphicHardware = false).
  { destruct hasNeuromorphicHardware; [ | reflexivity ].
    destruct HN as [HN _]. specialize (HN eq_refl).
    apply mentions_triple in HN. vm_compute in HN. discriminate HN. }
  rewrite Hhints, Hci, Hk, Hn, Hprovider, Hruntime. reflexivity.
Defined.

(** *** The kernel: when [reason] returns, and what its trail says *)

Lemma reason_on_text (h : Host) (k : ALNKernel) (text : string)
  (declared supplied context : JsValue) :
  text <> EmptyString ->
  reason h k (JStr text) declared supplied context
  = (plan <- _synthesizeSteps h text
               (or_else declared (JStr (_inferIntentType text)))
               (_normalizeConstraints k (default_empty supplied))
               (or_empty (default_empty context)) ;;
     Ok {| planId := _generatePlanId k text (Date_toISOString h);
           steps := plan;
           transparencyTrail :=
             {| trail_planId := _generatePlanId k text (Date_toISOString h);
                trail_modelId := modelId k;
                trail_intentText := text;
                intentType := or_else declared (JStr (_inferIntentType text));
                constraints :=
                  _normalizeConstraints k (default_empty supplied);
                createdAt := Date_toISOString h;
                assumptions :=
                  _deriveAssumptions text
                    (_normalizeConstraints k (default_empty supplied));
                risks := _deriveRisks text;
                tradeoffs := _deriveTradeoffs |} |}).
Proof.
  intros Htext. unfold reason.
  cbn [ToBoolean typeof string_of]. apply String.eqb_neq in Htext.
  rewrite Htext. reflexivity.
Qed.

Lemma synthesizeSteps_outcome (h : Host) (intentText : string)
  (intentType : JsValue) (normalized : Props) (context : JsValue) :
  match _synthesizeSteps h intentText intentType normalized context with
  | Ok _ => serializable h context
  | Throw e =>
      keys (own_enumerable (or_empty context)) <> []
      /\ (JSON_stringify h context = Throw e
          \/ exists v,
               JSON_stringify h context = Ok v
               /\ (forall s, v <> JStr s)
               /\ e = TypeError
                        "Cannot read properties of undefined (reading 'toLowerCase')")
  end.
Proof.
  unfold _synthesizeSteps, serializable.
  rewrite Object_keys_or_empty. cbn [bind].
  rewrite length_nonempty.
  destruct (keys (own_enumerable (or_empty context))) as [ | key rest ] eqn:Hkeys;
    cbn [nonempty].
  - cbn [bind]. now left.
  - destruct (or_empty_cases context) as [[Ht Hc] | [_ Hc]].
    2: { rewrite Hc in Hkeys. discriminate. }
    unfold Object_keys. rewrite truthy_entries by exact Ht. cbn [bind].
    unfold _inferEnvironmentHints.
    destruct (JSON_stringify h context) as [v | e]; cbn [bind].
    + destruct v; cbn [bind];
        try (split; [ discriminate | ]; right; eexists;
             split; [ reflexivity | ]; split; [ discriminate | reflexivity ]).
      right. now eexists.
    + split; [ discriminate | now left ].
Qed.


Lemma reason_inversion (h : Host) (k : ALNKernel) (text : string)
  (declared supplied context : JsValue) (r : ALNPlanResult) :
  reason h k (JStr text) declared supplied context = Ok r ->
  text <> EmptyString
  /\ exists plan,
       _synthesizeSteps h text
         (or_else declared (JStr (_inferIntentType text)))
         (_normalizeConstraints k (default_empty supplied))
         (or_empty (default_empty context)) = Ok plan
       /\ steps r = plan
       /\ planId r = _generatePlanId k text (Date_toISOString h)
       /\ transparencyTrail r
          = {| trail_planId := _generatePlanId k text (Date_toISOString h);
               trail_modelId := modelId k;
               trail_intentText := text;
               intentType := or_else declared (JStr (_inferIntentType text));
               constraints := _normalizeConstraints k (default_empty supplied);
               createdAt := Date_toISOString h;
               assumptions :=
                 _deriveAssumptions text
                   (_normalizeConstraints k (default_empty supplied));
               risks := _deriveRisks text;
               tradeoffs := _deriveTradeoffs |}.
Proof.
  intros H.
  assert (Htext : text <> EmptyString).
  { intros ->. discriminate H. }
  split; [ exact Htext | ].
  rewrite reason_on_text in H by exact Htext.
  apply bind_Ok in H as (plan & Hplan & Hr).
  exists plan. injection Hr as <-. now repeat split.
Qed.

(** In a plan [reason] returns, the trail and the steps tell one story:
    the trail carries the plan identifier and the normalized constraints;
    it assumes jurisdictional constraints exactly when the normalized
    jurisdictions are not empty, and then the plan has the compliance step;
    it assumes GitHub Actions exactly when the text mentions [github], and
    then the inferred kind is [ci_workflow]. *)
Theorem trail_agrees_with_plan :
  forall (h : Host) (k : ALNKernel) (text : string)
         (declared supplied context : JsValue) (r : ALNPlanResult),
    reason h k (JStr text) declared supplied context = Ok r ->
    let trail := transparencyTrail r in
    let normalized := _normalizeConstraints k (default_empty supplied) in
    let jurisdictional :=
      "Plans must satisfy the strictest overlapping jurisdictional constraints."
    in
    let github := "GitHub Actions or compatible CI is available." in
    trail_planId trail = planId r
    /\ constraints trail = normalized
    /\ (In jurisdictional (assumptions trail)
        <-> items_of (Get normalized "jurisdictions") <> [])
    /\ (In jurisdictional (assumptions trail) ->
        In "compliance-alignment" (map id (steps r)))
    /\ (In github (assumptions trail) <-> ci_contains text "github")
    /\ (In github (assumptions trail) ->
        ToBoolean declared = false ->
        intentType trail = JStr "ci_workflow").
Proof.
  intros h k text declared supplied context r H trail normalized
    jurisdictional github.
  destruct (reason_inversion _ _ _ _ _ _ _ H)
    as (Htext & plan & Hplan & Hsteps & Hid & Htrail).
  pose proof (synthesizeSteps_outcome h text
                (or_else declared (JStr (_inferIntentType text)))
                normalized (or_empty (default_empty context))) as Hser.
  fold normalized in Hplan. rewrite Hplan in Hser.
  destruct (synthesizeSteps_Ok h text
              (or_else declared (JStr (_inferIntentType text)))
              normalized (or_empty (default_empty context)) Hser)
    as (plan' & Hplan' & Hids).
  rewrite Hplan in Hplan'. injection Hplan' as <-.
  unfold trail. rewrite Htrail, Hsteps, Hid, Hids.
  cbn [trail_planId constraints assumptions intentType].
  fold normalized.
  assert (Hj : In jurisdictional (_deriveAssumptions text normalized)
               <-> items_of (Get normalized "jurisdictions") <> []).
  { unfold _deriveAssumptions. rewrite length_nonempty.
    destruct (items_of (Get normalized "jurisdictions")) as [ | j js ];
      cbn [nonempty];
      destruct (PrimFloat.leb
                  (number_of (Get normalized "maxReplicationTimeHours")) 24);
      destruct (includes (toLowerCase text) "github");
      unfold push; cbn [app append];
      (split;
       [ intros Hin;
         first [ discriminate
               | exfalso; cbn in Hin; decompose [or] Hin;
                 first [ discriminate | contradiction ] ]
       | intros Hne; first [ now destruct Hne | cbn; tauto ] ]). }
  assert (Hg : In github (_deriveAssumptions text normalized)
               <-> ci_contains text "github").
  { rewrite <- includes_toLowerCase. unfold _deriveAssumptions.
    destruct (negb (Nat.eqb (List.length
                               (items_of (Get normalized "jurisdictions"))) 0));
      destruct (PrimFloat.leb
                  (number_of (Get normalized "maxReplicationTimeHours")) 24);
      destruct (includes (toLowerCase text) "github");
      unfold push; cbn [app append];
      (split;
       [ intros Hin;
         first [ reflexivity
               | exfalso; cbn in Hin; decompose [or] Hin;
                 first [ discriminate | contradiction ] ]
       | intros Hne; first [ discriminate Hne | cbn; tauto ] ]). }
  split; [ reflexivity | split; [ reflexivity | ] ].
  split; [ exact Hj | split; [ | split; [ exact Hg | ] ] ].
  - intros Hin. apply Hj in Hin. unfold expected_steps.
    destruct (items_of (Get normalized "jurisdictions")); [ now destruct Hin | ].
    cbn. tauto.
  - intros Hin Hdeclared. apply Hg, includes_toLowerCase in Hin.
    unfold or_else. rewrite Hdeclared. unfold _inferIntentType.
    rewrite Hin, orb_true_r. reflexivity.
Qed.

(** The hypothesis of [trail_agrees_with_plan] holds of a call with a
    jurisdiction declared. *)
Lemma trail_agrees_with_plan_witness :
  exists r,
    reason example_host (new_ALNKernel default_options)
      (JStr "Plan a GitHub repository")
      JUndefined (JObj [ ("jurisdictions", JArr [ JStr "EU" ]) ]) JUndefined
    = Ok r
    /\ In "compliance-alignment" (map id (steps r)).
Proof.
  eexists. split; [ reflexivity | ].
  refine (proj1 (proj2 (proj2 (proj2
            (trail_agrees_with_plan example_host
               (new_ALNKernel default_options) "Plan a GitHub repository"
               JUndefined (JObj [ ("jurisdictions", JArr [ JStr "EU" ]) ])
               JUndefined _ eq_refl)))) _).
  cbn. right. right. right. left. reflexivity.
Defined.

(** *** The kernel: normalizing twice *)

Lemma trimEnd_idempotent (s : string) : trimEnd (trimEnd s) = trimEnd s.
Proof.
  induction s as [ | c s IH ]; [ reflexivity | ].
  cbn [trimEnd]. destruct (trimEnd s) as [ | d kept ] eqn:He.
  - destruct (is_whitespace c) eqn:Hc; [ reflexivity | ].
    cbn [trimEnd]. now rewrite Hc.
  - cbn [trimEnd]. cbn [trimEnd] in IH. rewrite IH. reflexivity.
Qed.

Lemma trimStart_head (s : string) :
  trimStart s = EmptyString
  \/ exists c rest, trimStart s = String c rest /\ is_whitespace c = false.
Proof.
  induction s as [ | c s IH ]; [ now left | ].
  cbn [trimStart]. destruct (is_whitespace c) eqn:Hc; [ exact IH | ].
  right. now exists c, s.
Qed.

Lemma trimStart_trimEnd (c : ascii) (rest : string) :
  is_whitespace c = false ->
  trimStart (trimEnd (String c rest)) = trimEnd (String c rest).
Proof.
  intros Hc. cbn [trimEnd].
  destruct (trimEnd rest); [ rewrite Hc | ]; cbn [trimStart]; now rewrite Hc.
Qed.

Lemma trim_idempotent (s : string) : trim (trim s) = trim s.
Proof.
  unfold trim.
  destruct (trimStart_head s) as [-> | (c & rest & -> & Hc)];
    [ reflexivity | ].
  rewrite trimStart_trimEnd by exact Hc. apply trimEnd_idempotent.
Qed.

Lemma own_None_iff (m : Props) (key : string) :
  own m key = None <-> ~ In key (keys m).
Proof.
  induction m as [ | [k v] rest IH ]; cbn.
  - tauto.
  - destruct (String.eqb k key) eqn:Hk.
    + apply String.eqb_eq in Hk. split; [ discriminate | ].
      intros H. exfalso. apply H. now left.
    + apply String.eqb_neq in Hk. rewrite IH. tauto.
Qed.

Lemma own_of_key (m : Props) (key : string) :
  In key (keys m) -> own m key = Some (Get m key).
Proof.
  intros Hin. unfold Get. destruct (own m key) eqn:Ho; [ reflexivity | ].
  apply own_None_iff in Ho. contradiction.
Qed.

Lemma set_same_value (m : Props) (key : string) (v : JsValue) :
  own m key = Some v -> set m key v = m.
Proof.
  induction m as [ | [k old] rest IH ]; cbn; [ discriminate | ].
  destruct (String.eqb k key); intros H.
  - now inversion H.
  - now rewrite IH.
Qed.

Lemma set_fresh (m : Props) (key : string) (v : JsValue) :
  ~ In key (keys m) -> set m key v = (m ++ [ (key, v) ])%list.
Proof.
  induction m as [ | [k old] rest IH ]; cbn; intros Hno; [ reflexivity | ].
  destruct (String.eqb k key) eqn:Hk.
  - apply String.eqb_eq in Hk. exfalso. apply Hno. now left.
  - rewrite IH; [ reflexivity | ]. intros H. apply Hno. now right.
Qed.

Lemma set_app_fresh (done m : Props) (key : string) (v : JsValue) :
  ~ In key (keys done) ->
  set (done ++ m)%list key v = (done ++ set m key v)%list.
Proof.
  induction done as [ | [k old] rest IH ]; cbn; intros Hno; [ reflexivity | ].
  destruct (String.eqb k key) eqn:Hk.
  - apply String.eqb_eq in Hk. exfalso. apply Hno. now left.
  - rewrite IH; [ reflexivity | ]. intros H. apply Hno. now right.
Qed.

Lemma keys_set_present (m : Props) (key : string) (v : JsValue) :
  In key (keys m) -> keys (set m key v) = keys m.
Proof.
  induction m as [ | [k old] rest IH ]; cbn; intros Hin; [ contradiction | ].
  destruct (String.eqb k key) eqn:Hk; [ reflexivity | ].
  cbn. f_equal. apply IH. destruct Hin as [-> | Hin]; [ | exact Hin ].
  now rewrite String.eqb_refl in Hk.
Qed.

Lemma key_in_or_not (m : Props) (key : string) :
  In key (keys m) \/ ~ In key (keys m).
Proof.
  destruct (in_dec string_dec key (keys m)); [ now left | now right ].
Qed.

(** Writing a property keeps the keys before it and never repeats a key. *)
Lemma keys_set_extends (m : Props) (key : string) (v : JsValue) :
  NoDup (keys m) ->
  exists more,
    keys (set m key v) = (keys m ++ more)%list
    /\ NoDup (keys (set m key v)).
Proof.
  intros Hnd. destruct (key_in_or_not m key) as [Hin | Hno].
  - exists []. rewrite keys_set_present by exact Hin.
    now rewrite app_nil_r.
  - exists [ key ]. rewrite set_fresh by exact Hno.
    unfold keys. rewrite map_app. split; [ reflexivity | ].
    cbn [map fst]. fold (keys m).
    apply NoDup_app; [ exact Hnd | repeat constructor; intros [] | ].
    intros x Hx [<- | []]. contradiction.
Qed.

Lemma keys_spread_extends (source : Props) :
  forall target,
    NoDup (keys target) ->
    exists more,
      keys (fold_left (fun acc entry => set acc (fst entry) (snd entry))
              source target)
      = (keys target ++ more)%list
      /\ NoDup (keys (fold_left
                        (fun acc entry => set acc (fst entry) (snd entry))
                        source target)).
Proof.
  induction source as [ | [k v] rest IH ]; intros target Hnd; cbn [fold_left].
  - exists []. now rewrite app_nil_r.
  - cbn [fst snd].
    destruct (keys_set_extends target k v Hnd) as (more1 & Hk1 & Hnd1).
    destruct (IH (set target k v) Hnd1) as (more2 & Hk2 & Hnd2).
    exists (more1 ++ more2)%list. split; [ | exact Hnd2 ].
    now rewrite Hk2, Hk1, app_assoc.
Qed.

Lemma NoDup_app_fresh (a b : list string) (x : string) :
  NoDup (a ++ x :: b)%list -> ~ In x a.
Proof.
  intros Hnd Hin. apply NoDup_remove_2 in Hnd. apply Hnd.
  apply in_or_app. now left.
Qed.

(** Writing the properties of [source] over an object with the same keys
    in the same order gives [source]. *)
Lemma spread_refill (source : Props) :
  forall target done,
    keys source = keys target ->
    NoDup (keys done ++ keys source)%list ->
    fold_left (fun acc entry => set acc (fst entry) (snd entry))
      source (done ++ target)%list
    = (done ++ source)%list.
Proof.
  induction source as [ | [k v] rest IH ]; intros target done Hkeys Hnd.
  - destruct target; [ reflexivity | discriminate ].
  - destruct target as [ | [k' old] target ]; [ discriminate | ].
    cbn in Hkeys. injection Hkeys as <- Hkeys.
    cbn [fold_left fst snd].
    rewrite set_app_fresh by (apply (NoDup_app_fresh _ _ _ Hnd)).
    cbn [set]. rewrite String.eqb_refl.
    change (done ++ (k, v) :: target)%list
      with (done ++ [ (k, v) ] ++ target)%list.
    rewrite app_assoc. rewrite IH.
    + now rewrite <- app_assoc.
    + exact Hkeys.
    + unfold keys. rewrite map_app, <- app_assoc. exact Hnd.
Qed.

Lemma spread_extend (extras : Props) :
  forall done,
    NoDup (keys done ++ keys extras)%list ->
    fold_left (fun acc entry => set acc (fst entry) (snd entry)) extras done
    = (done ++ extras)%list.
Proof.
  induction extras as [ | [k v] rest IH ]; intros done Hnd; cbn [fold_left].
  - now rewrite app_nil_r.
  - cbn [fst snd].
    rewrite set_fresh by (apply (NoDup_app_fresh _ _ _ Hnd)).
    rewrite IH.
    + now rewrite <- app_assoc.
    + unfold keys. rewrite map_app, <- app_assoc. exact Hnd.
Qed.

(** Spreading an object over a target whose keys are its first keys gives
    the object back. *)
Lemma spread_self (n target : Props) (more : list string) :
  NoDup (keys n) ->
  keys n = (keys target ++ more)%list ->
  fold_left (fun acc entry => set acc (fst entry) (snd entry)) n target = n.
Proof.
  intros Hnd Hkeys.
  set (len := List.length target).
  assert (Hfirst : keys (firstn len n) = keys target).
  { unfold keys at 1. rewrite <- firstn_map. fold (keys n). rewrite Hkeys.
    unfold len. rewrite <- (length_map fst target). fold (keys target).
    rewrite firstn_app, Nat.sub_diag, firstn_all. cbn [firstn].
    now rewrite app_nil_r. }
  rewrite <- (firstn_skipn len n) at 1.
  rewrite fold_left_app.
  rewrite <- (firstn_skipn len n) in Hnd.
  unfold keys in Hnd. rewrite map_app in Hnd.
  pose proof (spread_refill (firstn len n) target [] Hfirst) as Hfill.
  cbn [app keys map] in Hfill. rewrite Hfill.
  - rewrite spread_extend by exact Hnd. apply firstn_skipn.
  - apply NoDup_app_remove_r in Hnd. exact Hnd.
Qed.

(** The keys of a normalized set: those of the defaults first, no key
    twice. *)
Lemma normalized_keys (k : ALNKernel) (constraints : JsValue) :
  exists more,
    keys (_normalizeConstraints k constraints)
    = (keys (defaults k) ++ more)%list
    /\ NoDup (keys (_normalizeConstraints k constraints)).
Proof.
  assert (Hdef : NoDup (keys (defaults k))).
  { cbn. repeat constructor; cbn; intuition discriminate. }
  destruct (keys_spread_extends (own_enumerable (or_empty constraints))
              (defaults k) Hdef) as (more & Hk & Hnd).
  exists more. unfold _normalizeConstraints, spread.
  assert (Hkeep : forall m key v,
             In key (keys (defaults k)) ->
             keys m = (keys (defaults k) ++ more)%list ->
             keys (set m key v) = (keys (defaults k) ++ more)%list).
  { intros m key v Hin Hm. rewrite keys_set_present; [ exact Hm | ].
    rewrite Hm. apply in_or_app. now left. }
  repeat match goal with
  | |- context [if ?c then set ?m ?key ?v else ?m] =>
      let m' := fresh "m" in
      let Hm' := fresh "Hm" in
      assert (Hm' : keys (if c then set m key v else m)
                    = (keys (defaults k) ++ more)%list)
        by (destruct c; [ apply Hkeep; [ cbn; tauto | assumption ]
                        | assumption ]);
      set (m' := if c then set m key v else m) in *;
      clearbody m'
  end.
  assert (Hfinal : forall props : Props,
             keys props = (keys (defaults k) ++ more)%list ->
             NoDup (keys props)).
  { intros props Hprops. rewrite Hprops, <- Hk. exact Hnd. }
  split; [ | apply Hfinal ];
    repeat (apply Hkeep; [ cbn; tauto | ]); assumption.
Qed.

Lemma normalized_values (k : ALNKernel) (constraints : JsValue) :
  let n := _normalizeConstraints k constraints in
  (exists s, Get n "language" = JStr s /\ trim s = s /\ s <> EmptyString)
  /\ (exists b, Get n "requireCompleteness" = JBool b)
  /\ (exists b, Get n "forbidPlaceholders" = JBool b)
  /\ (exists x,
        Get n "maxReplicationTimeHours" = JNum x
        /\ ((is_finite x = true /\ (x <=? 0)%float = false)
            \/ x = maxReplicationHours k))
  /\ (exists items, Get n "jurisdictions" = JArr items)
  /\ (exists items, Get n "providerPolicies" = JArr items).
Proof.
  intros n.
  destruct (normalized_fields k constraints)
    as (Hl & Hc & Hp & Hb & Hj & Hpp & _).
  fold n in Hl, Hc, Hp, Hb, Hj, Hpp.
  rewrite Hl, Hc, Hp, Hb, Hj, Hpp.
  split; [ | split; [ now eexists | split; [ now eexists | split ] ] ].
  - unfold normal_language.
    destruct (String.eqb (typeof (Get (merged_constraints k constraints)
                                    "language")) "string") ;
      cbn [andb]; [ | now exists "JavaScript" ].
    destruct (String.eqb
                (trim (string_of (Get (merged_constraints k constraints)
                                    "language"))) EmptyString) eqn:He;
      cbn [negb]; [ now exists "JavaScript" | ].
    eexists. split; [ reflexivity | ].
    split; [ apply trim_idempotent | now apply String.eqb_neq ].
  - unfold normal_bound.
    destruct (Get (merged_constraints k constraints)
                "maxReplicationTimeHours") as [ | | | x | | | | | | ];
      cbn [Number_isFinite andb number_of];
      try (exists (maxReplicationHours k); now split; [ | right ]).
    destruct (is_finite x) eqn:Hf; cbn [andb];
      [ | exists (maxReplicationHours k); now split; [ | right ] ].
    destruct (x <=? 0)%float eqn:Hle; cbn [negb];
      [ exists (maxReplicationHours k); now split; [ | right ] | ].
    exists x. split; [ reflexivity | now left ].
  - unfold normal_list.
    split;
      match goal with
      | |- context [Array_isArray ?v] => destruct v
      end; cbn [Array_isArray]; now eexists.
Qed.

(** A set of properties with the keys of the defaults first, no key twice
    and every field already in its normal form is left as it is. *)
Lemma normalize_fixed (k : ALNKernel) (n : Props) (more : list string) :
  keys n = (keys (defaults k) ++ more)%list ->
  NoDup (keys n) ->
  (exists s, Get n "language" = JStr s /\ trim s = s /\ s <> EmptyString) ->
  (exists b, Get n "requireCompleteness" = JBool b) ->
  (exists b, Get n "forbidPlaceholders" = JBool b) ->
  (exists x,
     Get n "maxReplicationTimeHours" = JNum x
     /\ ((is_finite x = true /\ (x <=? 0)%float = false)
         \/ x = maxReplicationHours k)) ->
  (exists items, Get n "jurisdictions" = JArr items) ->
  (exists items, Get n "providerPolicies" = JArr items) ->
  _normalizeConstraints k (JObj n) = n.
Proof.
  intros Hkeys Hnd (s & Hl & Htrim & Hs) (b1 & Hc) (b2 & Hp)
    (x & Hb & Hx) (js & Hj) (ps & Hpp).
  assert (Hown : forall key,
             In key (keys (defaults k)) -> own n key = Some (Get n key)).
  { intros key Hin. apply own_of_key. rewrite Hkeys.
    apply in_or_app. now left. }
  unfold _normalizeConstraints. cbv zeta.
  change (or_empty (JObj n)) with (JObj n).
  unfold spread. cbn [own_enumerable].
  rewrite (spread_self n (defaults k) more Hnd Hkeys).
  assert (E1 : (if negb (Number_isFinite (Get n "maxReplicationTimeHours"))
                   || (number_of (Get n "maxReplicationTimeHours") <=? 0)%float
                then set n "maxReplicationTimeHours"
                       (JNum (maxReplicationHours k))
                else n) = n).
  { rewrite Hb. cbn [Number_isFinite number_of].
    destruct Hx as [[Hf Hle] | ->].
    - now rewrite Hf, Hle.
    - match goal with
      | |- (if ?c then _ else _) = _ => destruct c
      end; [ | reflexivity ].
      apply set_same_value. rewrite Hown by (cbn; tauto). now rewrite Hb. }
  rewrite !E1. rewrite Hj. cbn [Array_isArray negb].
  rewrite Hpp. cbn [Array_isArray negb].
  rewrite Hl. cbn [typeof string_of ToBoolean].
  rewrite Htrim. apply String.eqb_neq in Hs. rewrite Hs.
  change (String.eqb "string" "string") with true. cbn [andb negb].
  assert (E2 : set n "language" (JStr s) = n).
  { apply set_same_value. rewrite Hown by (cbn; tauto). now rewrite Hl. }
  rewrite !E2. rewrite Hc. cbn [ToBoolean].
  assert (E3 : set n "requireCompleteness" (JBool b1) = n).
  { apply set_same_value. rewrite Hown by (cbn; tauto). now rewrite Hc. }
  rewrite !E3. rewrite Hp. cbn [ToBoolean].
  apply set_same_value. rewrite Hown by (cbn; tauto). now rewrite Hp.
Qed.

(** Normalizing is idempotent: [_normalizeConstraints] applied to a
    Constraint Set it has returned gives the same set back, with the same
    properties and values in the same order, whatever the first argument
    was. *)
Theorem normalizeConstraints_idempotent :
  forall (k : ALNKernel) (constraints : JsValue),
    _normalizeConstraints k (JObj (_normalizeConstraints k constraints))
    = _normalizeConstraints k constraints.
Proof.
  intros k constraints.
  destruct (normalized_keys k constraints) as (more & Hkeys & Hnd).
  destruct (normalized_values k constraints)
    as (Hl & Hc & Hp & Hb & Hj & Hpp).
  now apply (normalize_fixed k _ more).
Qed.

(** *** The capability registry and the engine manifest *)

(** Every capability of the registry is found under its own [id], which no
    other capability carries; what [getCapabilityById] finds is a capability
    of the registry with the [id] asked for; it answers [null] exactly when
    no capability has that [id], and so on every argument that is not a
    string. *)
Theorem getCapabilityById_round_trip :
  (forall c,
     In c Capabilities.JavaspectreCapabilities ->
     Capabilities.getCapabilityById (JStr (Capabilities.id c)) = Some c)
  /\ (forall id c,
        Capabilities.getCapabilityById id = Some c ->
        id = JStr (Capabilities.id c)
        /\ In c Capabilities.JavaspectreCapabilities)
  /\ (forall id,
        Capabilities.getCapabilityById id = None
        <-> forall c,
              In c Capabilities.JavaspectreCapabilities ->
              id <> JStr (Capabilities.id c))
  /\ NoDup (map Capabilities.id Capabilities.JavaspectreCapabilities).
Proof.
  assert (Hfound : forall id c,
             Capabilities.getCapabilityById id = Some c ->
             id = JStr (Capabilities.id c)
             /\ In c Capabilities.JavaspectreCapabilities).
  { intros id c H. apply find_some in H as [Hin Hid]. split; [ | exact Hin ].
    destruct id; try discriminate Hid.
    cbn in Hid. apply String.eqb_eq in Hid. now subst. }
  split; [ | split; [ exact Hfound | split ] ].
  - intros c Hin. cbn in Hin.
    destruct Hin as [<- | [<- | [<- | [<- | []]]]]; reflexivity.
  - intros id. split.
    + intros Hnone c Hin ->.
      pose proof (find_none _ _ Hnone c Hin) as Hno.
      cbn in Hno. now rewrite String.eqb_refl in Hno.
    + intros Hno.
      destruct (Capabilities.getCapabilityById id) as [c | ] eqn:Hget;
        [ | reflexivity ].
      destruct (Hfound id c Hget) as [Hid Hin]. now destruct (Hno c Hin).
  - cbn. repeat constructor; cbn; intuition discriminate.
Qed.

(** The engine manifest lists the capabilities of the registry, one entry
    each in registry order, and every entry resolves through
    [getCapabilityById] to the capability it was copied from.  It
    advertises exactly the intents the registry of the language defines,
    the replication guarantee of a kernel built with no option, and the
    host context it was given, an empty object when it was given none. *)
Theorem manifest_consistent :
  forall context : JsValue,
    let m := EngineManifest.buildEngineManifest context in
    map EngineManifest.id (EngineManifest.capabilities m)
    = map Capabilities.id Capabilities.listCapabilities
    /\ (forall entry,
          In entry (EngineManifest.capabilities m) ->
          exists c,
            Capabilities.getCapabilityById (JStr (EngineManifest.id entry))
            = Some c
            /\ entry = EngineManifest.manifest_entry c)
    /\ (forall name,
          In name (supportedIntents (EngineManifest.aln m))
          <-> exists spec, ALNSpec_intents_get name = Registered spec)
    /\ EngineManifest.replicationGuaranteeHours (EngineManifest.policies m)
       = maxReplicationHours (new_ALNKernel default_options)
    /\ EngineManifest.hostContext m = default_empty context.
Proof.
  intros context m.
  split; [ reflexivity | split; [ | split; [ | now split ] ] ].
  - intros entry Hin. cbn in Hin.
    destruct Hin as [<- | [<- | [<- | [<- | []]]]];
      eexists; split; reflexivity.
  - intros name. cbn [m EngineManifest.buildEngineManifest EngineManifest.aln
                      EngineManifest.aln_fields supportedIntents describeALN].
    split.
    + intros Hin. cbn in Hin.
      destruct Hin as [<- | [<- | [<- | []]]]; eexists; reflexivity.
    + intros (spec & Hget). unfold ALNSpec_intents_get in Hget.
      destruct (find_intent ALNSpec_intents name) eqn:Hfind.
      * clear Hget. unfold ALNSpec_intents in Hfind.
        cbn [find_intent] in Hfind. cbn.
        repeat match type of Hfind with
        | (if String.eqb ?a name then _ else _) = _ =>
            let E := fresh "E" in
            destruct (String.eqb a name) eqn:E;
            [ apply String.eqb_eq in E; tauto | ]
        end.
        discriminate Hfind.
      * destruct (String.eqb name "__proto__"
                  || mem name ObjectPrototype_methods); discriminate Hget.
Qed.

(** *** The kernel: the shape of a plan identifier *)

Lemma hex_digit_in (n : Z) :
  (0 <= n < 16)%Z -> In (SHA256.hex_digit n) hex_digits.
Proof.
  intros Hn.
  assert (Hcases : In n [ 0; 1; 2; 3; 4; 5; 6; 7; 8; 9; 10; 11; 12; 13; 14;
                          15 ]%Z).
  { cbn. lia. }
  cbn in Hcases.
  repeat (destruct Hcases as [<- | Hcases]; [ cbn; tauto | ]).
  contradiction.
Qed.

Lemma hex_shape (bytes : list Z) :
  Forall (fun b => (0 <= b < 256)%Z) bytes ->
  String.length (SHA256.hex bytes) = 2 * List.length bytes
  /\ Forall (fun c => In c hex_digits)
       (list_ascii_of_string (SHA256.hex bytes)).
Proof.
  induction 1 as [ | b rest Hb _ [IHlen IHall] ]; cbn [SHA256.hex]; [ now split | ].
  split.
  - cbn [String.length List.length]. rewrite IHlen. lia.
  - cbn [list_ascii_of_string].
    repeat apply Forall_cons; [ | | exact IHall ]; apply hex_digit_in.
    + split; [ apply Z.div_pos; lia | apply Z.div_lt_upper_bound; lia ].
    + apply Z.mod_pos_bound. lia.
Qed.

Lemma be_bytes_range (n : nat) (x : Z) :
  Forall (fun b => (0 <= b < 256)%Z) (SHA256.be_bytes n x).
Proof.
  induction n as [ | n IH ]; cbn [SHA256.be_bytes]; constructor;
    [ apply Z.mod_pos_bound; lia | exact IH ].
Qed.

Lemma be_bytes_length (n : nat) (x : Z) :
  List.length (SHA256.be_bytes n x) = n.
Proof. induction n as [ | n IH ]; cbn [SHA256.be_bytes List.length]; congruence. Qed.

Lemma digest_shape (msg : list Z) :
  List.length (SHA256.digest msg) = 32
  /\ Forall (fun b => (0 <= b < 256)%Z) (SHA256.digest msg).
Proof.
  unfold SHA256.digest.
  destruct (SHA256.blocks _ _ _) as [[[[[[[a b] c] d] e] f] g] h].
  cbn [flat_map]. split.
  - rewrite !length_app, !be_bytes_length. reflexivity.
  - repeat (apply Forall_app; split); try apply be_bytes_range.
    constructor.
Qed.

Lemma substring_prefix_shape (n : nat) :
  forall s : string,
    n <= String.length s ->
    String.length (String.substring 0 n s) = n
    /\ forall P : ascii -> Prop,
         Forall P (list_ascii_of_string s) ->
         Forall P (list_ascii_of_string (String.substring 0 n s)).
Proof.
  induction n as [ | n IH ]; intros s Hlen.
  - destruct s; cbn; split; auto.
  - destruct s as [ | c s ]; cbn in Hlen; [ lia | ].
    destruct (IH s ltac:(lia)) as [IHlen IHall].
    cbn [String.substring String.length list_ascii_of_string].
    split; [ now rewrite IHlen | ].
    intros P HP. inversion HP; subst. constructor; auto.
Qed.

(** A plan identifier is always sixteen lowercase hexadecimal digits,
    whatever the text, the timestamp and the model identifier. *)
Theorem planId_format :
  forall (k : ALNKernel) (intentText timestamp : string),
    String.length (_generatePlanId k intentText timestamp) = 16
    /\ Forall (fun c => In c hex_digits)
         (list_ascii_of_string (_generatePlanId k intentText timestamp)).
Proof.
  intros k intentText timestamp. unfold _generatePlanId, SHA256.sha256_hex.
  set (bytes := SHA256.digest _).
  destruct (digest_shape (SHA256.utf8
                            (intentText ++ "::" ++ timestamp ++ "::"
                             ++ modelId k))) as [Hlen Hrange].
  fold bytes in Hlen, Hrange.
  destruct (hex_shape bytes Hrange) as [Hhex Hall].
  rewrite Hlen in Hhex. cbn in Hhex.
  destruct (substring_prefix_shape 16 (SHA256.hex bytes) ltac:(lia))
    as [H16 Hsub].
  split; [ exact H16 | now apply Hsub ].
Qed.

(** *** The kernel: what normalizing leaves alone *)

(** [_normalizeConstraints] rewrites six fields and nothing else: every
    other property of the caller's constraints, [dataResidency] among them,
    comes out with the value the caller gave, and a property the caller
    left out is there only if the defaults have it, with the default
    value. *)
Theorem normalize_keeps_other_properties :
  forall (k : ALNKernel) (constraints : JsValue) (key : string),
    ~ In key normalized_names ->
    let supplied := own_enumerable (or_empty constraints) in
    let normalized := _normalizeConstraints k constraints in
    (own supplied key = None -> own normalized key = own (defaults k) key)
    /\ (NoDup (keys supplied) ->
        forall v, own supplied key = Some v -> own normalized key = Some v).
Proof.
  intros k constraints key Hkey supplied normalized.
  assert (Hmerged : own normalized key
                    = own (spread (defaults k) (or_empty constraints)) key).
  { unfold normalized, _normalizeConstraints. cbv zeta.
    assert (Hne : forall name, In name normalized_names -> name <> key)
      by (intros name Hin ->; contradiction).
    repeat match goal with
    | |- own (set _ ?name _) key = _ =>
        rewrite (own_set_other _ name key) by (apply Hne; cbn; tauto)
    | |- own (if ?c then set ?m ?name ?v else ?m) key = _ =>
        replace (own (if c then set m name v else m) key) with (own m key)
          by (destruct c; [ | reflexivity ]; symmetry;
              apply own_set_other, Hne; cbn; tauto)
    end.
    reflexivity. }
  rewrite Hmerged. unfold spread. fold supplied. split.
  - intros Habs. now apply own_spread_absent.
  - intros Hnd v Hown. now apply own_spread_present.
Qed.

(** The hypothesis of [normalize_keeps_other_properties] holds of a key of
    the caller's own. *)
Lemma normalize_keeps_other_properties_witness :
  own (_normalizeConstraints (new_ALNKernel default_options)
         (JObj [ ("team", JStr "core"); ("language", JStr " Rust ") ]))
    "team"
  = Some (JStr "core").
Proof.
  refine (proj2 (normalize_keeps_other_properties
                   (new_ALNKernel default_options)
                   (JObj [ ("team", JStr "core");
                           ("language", JStr " Rust ") ])
                   "team" _) _ (JStr "core") eq_refl).
  - cbn. intuition discriminate.
  - cbn. repeat constructor; cbn; intuition discriminate.
Defined.

(** *** The excavator *)

Section ExcavatorFacts.

Import Excavator ExcavatorSpec.

Lemma forEach_invariant {A S : Type} (I : nat -> S -> Prop) (l : list A)
  (body : A -> nat -> S -> S) :
  (forall item i s, In item l -> I i s -> I (Datatypes.S i) (body item i s)) ->
  forall index s,
    I index s -> I (index + List.length l) (forEach l index body s).
Proof.
  induction l as [ | item rest IH ]; intros Hstep index s Hs;
    cbn [forEach List.length].
  - now rewrite Nat.add_0_r.
  - rewrite Nat.add_succ_r, <- Nat.add_succ_l. apply IH.
    + intros item' i s' Hin. apply Hstep. now right.
    + apply Hstep; [ now left | exact Hs ].
Qed.

Lemma every_array (P : Def -> Prop) (id : string) (length sampled : nat)
  (kinds : list string) (samples : list Def) :
  every P (ArrayDef id length sampled kinds samples)
  <-> P (ArrayDef id length sampled kinds samples)
      /\ Forall (every P) samples.
Proof.
  cbn [every]. apply and_iff_compat_l.
  induction samples as [ | d rest IH ].
  - split; [ constructor | trivial ].
  - rewrite IH. split.
    + intros [Hd Hrest]. now constructor.
    + intros H. inversion H. now split.
Qed.

Lemma every_object (P : Def -> Prop) (id ctor : string)
  (fields : list (string * Def)) :
  every P (ObjectDef id ctor fields)
  <-> P (ObjectDef id ctor fields)
      /\ Forall (fun entry => every P (snd entry)) fields.
Proof.
  cbn [every]. apply and_iff_compat_l.
  induction fields as [ | [key d] rest IH ].
  - split; [ constructor | trivial ].
  - rewrite IH. split.
    + intros [Hd Hrest]. now constructor.
    + intros H. inversion H. now split.
Qed.

Lemma Forall_put {A : Type} (P : string * A -> Prop)
  (o : list (string * A)) (key : string) (v : A) :
  Forall P o -> (forall k, P (k, v)) -> Forall P (put o key v).
Proof.
  intros Ho Hv. induction o as [ | [k old] rest IH ]; cbn [put].
  - now constructor.
  - inversion Ho; subst. destruct (String.eqb k key); constructor; auto.
Qed.

Lemma Forall_assign {A : Type} (P : string * A -> Prop)
  (o : list (string * A)) (key : string) (v : A) :
  Forall P o -> (forall k, P (k, v)) -> Forall P (assign o key v).
Proof.
  intros Ho Hv. unfold assign.
  destruct (String.eqb key "__proto__"); [ exact Ho | now apply Forall_put ].
Qed.

Lemma Set_add_spec (set : list string) (x : string) :
  NoDup set ->
  NoDup (Set_add set x) /\ forall y, In y (Set_add set x) <-> In y set \/ y = x.
Proof.
  intros Hnd. unfold Set_add. destruct (mem x set) eqn:Hmem.
  - apply mem_In in Hmem. split; [ exact Hnd | ].
    intros y. split; [ now left | ]. now intros [H | ->].
  - assert (Hno : ~ In x set).
    { intros Hin. apply mem_In in Hin. congruence. }
    split.
    + apply NoDup_app; [ exact Hnd | repeat constructor; intros [] | ].
      intros y Hy [<- | []]. contradiction.
    + intros y. rewrite in_app_iff. cbn. intuition congruence.
Qed.

(** The loop of [_inspectArray]. *)
Lemma array_loop (inspectValue : Inspect) (Q : Def -> Prop) (id : string)
  (depth : nat) (samples : list Node) :
  (forall item elementId st,
     In item samples -> Q (fst (inspectValue item elementId (depth + 1) st))) ->
  forall index defs kinds st,
    Forall Q defs ->
    NoDup kinds ->
    (forall kind,
       In kind kinds <-> exists d, In d defs /\ def_kind d = kind) ->
    let '(defs', kinds', _) :=
      forEach samples index
        (fun item index '(elementDefs, elementKinds, st) =>
           let elementId := id ++ "[" ++ index_key index ++ "]" in
           let (def, st) := inspectValue item elementId (depth + 1) st in
           ((elementDefs ++ [ def ])%list,
            Set_add elementKinds (def_kind def), st))
        (defs, kinds, st) in
    Forall Q defs'
    /\ NoDup kinds'
    /\ (forall kind,
          In kind kinds' <-> exists d, In d defs' /\ def_kind d = kind)
    /\ List.length defs' = List.length defs + List.length samples.
Proof.
  induction samples as [ | item rest IH ];
    intros Hq index defs kinds st Hdefs Hnd Hkinds; cbn [forEach].
  - repeat split; auto; apply Hkinds.
  - pose proof (Hq item (id ++ "[" ++ index_key index ++ "]") st
                  (or_introl eq_refl)) as Hitem.
    destruct (inspectValue item (id ++ "[" ++ index_key index ++ "]")
                (depth + 1) st) as [def st1].
    cbn [fst] in Hitem.
    destruct (Set_add_spec kinds (def_kind def) Hnd) as [Hnd1 Hin1].
    specialize (IH (fun item' eid st' Hin => Hq item' eid st' (or_intror Hin))
                  (Datatypes.S index) (defs ++ [ def ])%list
                  (Set_add kinds (def_kind def)) st1).
    destruct (forEach rest _ _ _) as [[defs' kinds'] st'].
    destruct IH as (H1 & H2 & H3 & H4).
    + apply Forall_app. split; [ exact Hdefs | now constructor ].
    + exact Hnd1.
    + intros kind. rewrite Hin1, Hkinds. split.
      * intros [(d & Hd & Hk) | ->].
        -- exists d. split; [ apply in_or_app; now left | exact Hk ].
        -- exists def. split; [ apply in_or_app; right; now left | reflexivity ].
      * intros (d & Hd & Hk). apply in_app_or in Hd as [Hd | [<- | []]].
        -- left. now exists d.
        -- now right.
    + split; [ exact H1 | split; [ exact H2 | split; [ exact H3 | ] ] ].
      rewrite H4, length_app. cbn [List.length]. lia.
Qed.

(** The loop of [_inspectObject], on the definitions of the fields. *)
Lemma object_loop (inspectValue : Inspect) (Q : Def -> Prop) (id : string)
  (depth : nat) (props : list (string * Node)) (ks : list string) :
  (forall value fieldId st, Q (fst (inspectValue value fieldId (depth + 1) st))) ->
  forall index fields (descriptions : list (string * FieldDescription)) st,
    Forall (fun entry => Q (snd entry)) fields ->
    let '(fields', _, _) :=
      forEach ks index
        (fun key (_ : nat) '(fields, fieldDescriptions, st) =>
           let fieldId := id ++ "." ++ key in
           let value := get props key in
           let (childDef, st) := inspectValue value fieldId (depth + 1) st in
           (assign fields key childDef,
            assign fieldDescriptions key
              {| kind := def_kind childDef;
                 valueType := def_valueType childDef;
                 example := def_example childDef;
                 note := def_note childDef |},
            push_link st
              {| from := id; to := def_id childDef; relation := "field";
                 field := key |}))
        (fields, descriptions, st) in
    Forall (fun entry => Q (snd entry)) fields'.
Proof.
  intros Hq. induction ks as [ | key rest IH ];
    intros index fields descriptions st Hfields; cbn [forEach].
  - exact Hfields.
  - pose proof (Hq (get props key) (id ++ "." ++ key) st) as Hchild.
    destruct (inspectValue (get props key) (id ++ "." ++ key) (depth + 1) st)
      as [childDef st1].
    cbn [fst] in Hchild.
    apply IH. apply Forall_assign; [ exact Hfields | intros k; exact Hchild ].
Qed.

(** What [inspectValue] returns, as a tree: it carries the identifier it
    was given, stops at the depth limit, and keeps the sampling rule. *)
Lemma inspectValue_tree (this : VirtualObjectExcavator) :
  forall fuel value id depth st,
    maxDepth this + 2 <= fuel + depth ->
    depth <= maxDepth this + 1 ->
    let d := fst (inspectValue this fuel value id depth st) in
    def_id d = id
    /\ stubs_at (maxDepth this + 1 - depth) d
    /\ every (sample_rule (maxArraySample this)) d.
Proof.
  induction fuel as [ | fuel IH ]; intros value id depth st Hfuel Hdepth;
    [ lia | ].
  cbn [inspectValue].
  destruct (Nat.ltb (maxDepth this) depth) eqn:Hlt.
  { apply Nat.ltb_lt in Hlt.
    replace (maxDepth this + 1 - depth) with 0 by lia.
    cbn. repeat split; auto. now exists id. }
  apply Nat.ltb_ge in Hlt.
  replace (maxDepth this + 1 - depth)
    with (Datatypes.S (maxDepth this - depth)) by lia.
  assert (Hchild : forall item childId st',
             let d := fst (inspectValue this fuel item childId (depth + 1) st')
             in stubs_at (maxDepth this - depth) d
                /\ every (sample_rule (maxArraySample this)) d).
  { intros item childId st'.
    destruct (IH item childId (depth + 1) st' ltac:(lia) ltac:(lia))
      as (_ & Hs & He).
    replace (maxDepth this + 1 - (depth + 1)) with (maxDepth this - depth)
      in Hs by lia.
    now split. }
  destruct (is_nullish value); [ cbn; now repeat split | ].
  destruct (String.eqb (typeof value) "string"
            || String.eqb (typeof value) "number"
            || String.eqb (typeof value) "boolean");
    [ cbn; now repeat split | ].
  destruct (Array_isArray value).
  { unfold _inspectArray.
    pose proof (array_loop (inspectValue this fuel)
                  (fun d => stubs_at (maxDepth this - depth) d
                            /\ every (sample_rule (maxArraySample this)) d)
                  id depth
                  (firstn (Nat.min (maxArraySample this)
                             (List.length (items_of value)))
                     (items_of value))
                  (fun item eid st' _ => Hchild item eid st')
                  0 [] [] st (Forall_nil _) (NoDup_nil _)) as Hloop.
    destruct (forEach _ _ _ _) as [[defs kinds] st'].
    destruct Hloop as (Hq & Hnd & Hkinds & Hlen).
    { intros kind. cbn. split; [ tauto | now intros (d & [] & _) ]. }
    cbn [fst def_id stubs_at].
    split; [ reflexivity | split ].
    - eapply Forall_impl; [ | exact Hq ]. now intros d [Hs _].
    - apply every_array. split.
      + cbn [sample_rule]. split; [ reflexivity | ].
        split; [ | now split ].
        rewrite Hlen, length_firstn. cbn [List.length]. lia.
      + eapply Forall_impl; [ | exact Hq ]. now intros d [_ He]. }
  destruct (String.eqb (typeof value) "function" && includeFunctions this);
    [ cbn; now repeat split | ].
  destruct (String.eqb (typeof value) "object"); [ | cbn; now repeat split ].
  destruct (existsb (Nat.eqb (ref_of value)) (visited st));
    [ cbn; now repeat split | ].
  unfold _inspectObject.
  pose proof (object_loop (inspectValue this fuel)
                (fun d => stubs_at (maxDepth this - depth) d
                          /\ every (sample_rule (maxArraySample this)) d)
                id depth (props_of value) (map fst (props_of value))
                (fun item fid st' => Hchild item fid st')
                0 [] [] (visit st (ref_of value)) (Forall_nil _)) as Hloop.
  destruct (forEach _ _ _ _) as [[fields descriptions] st'].
  cbn [fst def_id stubs_at].
  split; [ reflexivity | split ].
  - eapply Forall_impl; [ | exact Hloop ]. now intros entry [Hs _].
  - apply every_object. split; [ exact I | ].
    eapply Forall_impl; [ | exact Hloop ]. now intros entry [_ He].
Qed.

(** The descent stops at [maxDepth]: in the definition [excavate] returns
    for the root, whose identifier is [root], everything nested
    [maxDepth + 1] levels down is a depth-limit stub, whatever lies
    below it in the value. *)
Theorem excavate_stops_at_maxDepth :
  forall (this : VirtualObjectExcavator) (value : Node)
         (domRoot : option (list Element)),
    def_id (root (excavate this value domRoot)) = "root"
    /\ stubs_at (maxDepth this + 1) (root (excavate this value domRoot)).
Proof.
  intros this value domRoot.
  destruct (inspectValue_tree this (maxDepth this + 2) value "root" 0
              {| visited := []; found := []; links := [] |}
              ltac:(lia) ltac:(lia)) as (Hid & Hstubs & _).
  rewrite Nat.sub_0_r in Hstubs.
  unfold excavate.
  destruct (inspectValue this (maxDepth this + 2) value "root" 0 _)
    as [d st].
  cbn [fst] in Hid, Hstubs.
  destruct domRoot as [all | ]; [ destruct (includeDom this) | ];
    cbn [root]; now split.
Qed.


Lemma anchored_more (found more : list VirtualObject) (r : Relationship) :
  anchored found r -> anchored (found ++ more)%list r.
Proof.
  intros (Hrel & Hto & vo & Hin & Hid & Hcat).
  split; [ exact Hrel | split; [ exact Hto | ] ].
  exists vo. split; [ apply in_or_app; now left | now split ].
Qed.

Lemma anchored_before (before found : list VirtualObject)
  (r : Relationship) :
  anchored found r -> anchored (before ++ found)%list r.
Proof.
  intros (Hrel & Hto & vo & Hin & Hid & Hcat).
  split; [ exact Hrel | split; [ exact Hto | ] ].
  exists vo. split; [ apply in_or_app; now right | now split ].
Qed.

Lemma grows_refl (id : string) (st : Store) : grows id st st.
Proof.
  exists [], []. rewrite !app_nil_r.
  split; [ reflexivity | split; [ reflexivity | split ] ];
    [ apply incl_refl | split ]; [ intros r [] | intros vo [] ].
Qed.

Lemma grows_trans (id : string) (st st1 st2 : Store) :
  grows id st st1 -> grows id st1 st2 -> grows id st st2.
Proof.
  intros (f1 & l1 & Hf1 & Hl1 & Hv1 & Ha1 & Hi1)
    (f2 & l2 & Hf2 & Hl2 & Hv2 & Ha2 & Hi2).
  exists (f1 ++ f2)%list, (l1 ++ l2)%list.
  rewrite Hf2, Hf1, Hl2, Hl1, <- !app_assoc.
  split; [ reflexivity | split; [ reflexivity | split ] ];
    [ eapply incl_tran; eassumption | split ].
  - intros r Hr. apply in_app_or in Hr as [Hr | Hr].
    + destruct (Ha1 r Hr) as [Hanchor Hsuffix].
      split; [ now apply anchored_more | exact Hsuffix ].
    + destruct (Ha2 r Hr) as [Hanchor Hsuffix].
      split; [ now apply anchored_before | exact Hsuffix ].
  - intros vo Hvo. apply in_app_or in Hvo as [Hvo | Hvo]; auto.
Qed.

(** What a nested call adds, seen from the call above it. *)
Lemma grows_child (id step : string) (st st' : Store) :
  grows (id ++ step) st st' -> grows id st st'.
Proof.
  intros (f & l & Hf & Hl & Hv & Ha & Hi).
  exists f, l.
  split; [ exact Hf | split; [ exact Hl | split; [ exact Hv | split ] ] ].
  - intros r Hr. destruct (Ha r Hr) as [Hanchor (suffix & Hs)].
    split; [ exact Hanchor | ].
    exists (step ++ suffix). now rewrite <- string_app_assoc.
  - intros vo Hvo. destruct (Hi vo Hvo) as (suffix & Hs).
    exists (step ++ suffix). now rewrite <- string_app_assoc.
Qed.

Lemma string_app_nil (s : string) : s ++ EmptyString = s.
Proof. induction s as [ | c s IH ]; cbn; congruence. Qed.

Lemma grows_push_found (id : string) (st : Store) (vo : VirtualObject) :
  vo_id vo = id -> grows id st (push_found st vo).
Proof.
  intros Hid. exists [ vo ], []. cbn [push_found found links visited].
  rewrite app_nil_r.
  split; [ reflexivity | split; [ reflexivity | split ] ];
    [ apply incl_refl | split ].
  - intros r [].
  - intros vo' [<- | []]. exists EmptyString. now rewrite string_app_nil.
Qed.

Lemma grows_to_pending (id : string) (st st' : Store) :
  grows id st st' -> grows_pending id st st'.
Proof.
  intros (f & l & Hf & Hl & Hv & Ha & Hi).
  exists f, l.
  split; [ exact Hf | split; [ exact Hl | split; [ exact Hv | split ] ] ];
    [ | exact Hi ].
  intros r Hr. destruct (Ha r Hr) as [Hanchor Hsuffix].
  split; [ | exact Hsuffix ].
  intros vo _ _. now apply anchored_more.
Qed.

Lemma pending_trans (id : string) (st st1 st2 : Store) :
  grows_pending id st st1 -> grows_pending id st1 st2 ->
  grows_pending id st st2.
Proof.
  intros (f1 & l1 & Hf1 & Hl1 & Hv1 & Ha1 & Hi1)
    (f2 & l2 & Hf2 & Hl2 & Hv2 & Ha2 & Hi2).
  exists (f1 ++ f2)%list, (l1 ++ l2)%list.
  rewrite Hf2, Hf1, Hl2, Hl1, <- !app_assoc.
  split; [ reflexivity | split; [ reflexivity | split ] ];
    [ eapply incl_tran; eassumption | split ].
  - intros r Hr. apply in_app_or in Hr as [Hr | Hr].
    + destruct (Ha1 r Hr) as [Hanchor Hsuffix].
      split; [ | exact Hsuffix ].
      intros vo Hid Hcat.
      destruct (Hanchor vo Hid Hcat) as (Hrel & Hto & vo' & Hin & Hvo').
      split; [ exact Hrel | split; [ exact Hto | ] ].
      exists vo'. split; [ | exact Hvo' ].
      apply in_app_or in Hin as [Hin | Hin]; rewrite !in_app_iff; auto.
    + destruct (Ha2 r Hr) as [Hanchor Hsuffix].
      split; [ | exact Hsuffix ].
      intros vo Hid Hcat. rewrite <- app_assoc.
      apply anchored_before. now apply Hanchor.
  - intros vo Hvo. apply in_app_or in Hvo as [Hvo | Hvo]; auto.
Qed.

Lemma pending_link (id key : string) (st : Store) :
  grows_pending id st
    (push_link st
       {| from := id; to := id ++ "." ++ key; relation := "field";
          field := key |}).
Proof.
  exists [], [ {| from := id; to := id ++ "." ++ key; relation := "field";
                 field := key |} ].
  cbn [push_link found links visited]. rewrite app_nil_r.
  split; [ reflexivity | split; [ reflexivity | split ] ];
    [ apply incl_refl | split ]; [ | intros vo [] ].
  intros r [<- | []]. split.
  - intros vo Hid Hcat.
    split; [ reflexivity | split; [ reflexivity | ] ].
    exists vo. cbn. auto.
  - exists EmptyString. cbn [from]. now rewrite string_app_nil.
Qed.

Lemma pending_visit (id : string) (st st' : Store) (ref : nat) :
  grows_pending id (visit st ref) st' -> grows_pending id st st'.
Proof.
  intros (f & l & Hf & Hl & Hv & Ha & Hi).
  exists f, l. cbn [visit found links visited] in *.
  split; [ exact Hf | split; [ exact Hl | split ] ];
    [ | split; [ exact Ha | exact Hi ] ].
  intros x Hx. apply Hv. now right.
Qed.

Lemma pending_close (id : string) (st st' : Store) (vo : VirtualObject) :
  grows_pending id st st' ->
  vo_id vo = id -> vo_category vo = "struct" ->
  grows id st (push_found st' vo).
Proof.
  intros (f & l & Hf & Hl & Hv & Ha & Hi) Hid Hcat.
  exists (f ++ [ vo ])%list, l. cbn [push_found found links visited].
  rewrite Hf, <- app_assoc.
  split; [ reflexivity | split; [ exact Hl | split; [ exact Hv | split ] ] ].
  - intros r Hr. destruct (Ha r Hr) as [Hanchor Hsuffix].
    split; [ now apply Hanchor | exact Hsuffix ].
  - intros vo' Hvo'. apply in_app_or in Hvo' as [Hvo' | [<- | []]]; auto.
    exists EmptyString. now rewrite string_app_nil.
Qed.

Lemma inspectValue_id (this : VirtualObjectExcavator) (fuel : nat)
  (value : Node) (id : string) (depth : nat) (st : Store) :
  def_id (fst (inspectValue this fuel value id depth st)) = id.
Proof.
  destruct fuel as [ | fuel ]; cbn [inspectValue]; [ reflexivity | ].
  repeat match goal with
  | |- context [if ?c then _ else _] => destruct c; try reflexivity
  end.
  - unfold _inspectArray. now destruct (forEach _ _ _ _) as [[defs kinds] st'].
  - unfold _inspectObject. now destruct (forEach _ _ _ _) as [[fields d] st'].
Qed.

(** The loops of the two helpers, on the store. *)
Lemma array_loop_grows (inspectValue : Inspect) (id : string) (depth : nat)
  (samples : list Node) :
  (forall item elementId st,
     grows elementId st (snd (inspectValue item elementId (depth + 1) st))) ->
  forall index defs kinds st,
    let '(_, _, st') :=
      forEach samples index
        (fun item index '(elementDefs, elementKinds, st) =>
           let elementId := id ++ "[" ++ index_key index ++ "]" in
           let (def, st) := inspectValue item elementId (depth + 1) st in
           ((elementDefs ++ [ def ])%list,
            Set_add elementKinds (def_kind def), st))
        (defs, kinds, st) in
    grows id st st'.
Proof.
  intros Hgrow. induction samples as [ | item rest IH ];
    intros index defs kinds st; cbn [forEach].
  - apply grows_refl.
  - pose proof (Hgrow item (id ++ "[" ++ index_key index ++ "]") st) as Hitem.
    destruct (inspectValue item (id ++ "[" ++ index_key index ++ "]")
                (depth + 1) st) as [def st1].
    cbn [snd] in Hitem. apply grows_child in Hitem.
    specialize (IH (Datatypes.S index) (defs ++ [ def ])%list
                  (Set_add kinds (def_kind def)) st1).
    destruct (forEach rest _ _ _) as [[defs' kinds'] st'].
    eapply grows_trans; eassumption.
Qed.

Lemma object_loop_grows (inspectValue : Inspect) (id : string) (depth : nat)
  (props : list (string * Node)) (ks : list string) :
  (forall value fieldId st,
     grows fieldId st (snd (inspectValue value fieldId (depth + 1) st))
     /\ def_id (fst (inspectValue value fieldId (depth + 1) st)) = fieldId) ->
  forall index fields (descriptions : list (string * FieldDescription)) st,
    let '(_, _, st') :=
      forEach ks index
        (fun key (_ : nat) '(fields, fieldDescriptions, st) =>
           let fieldId := id ++ "." ++ key in
           let value := get props key in
           let (childDef, st) := inspectValue value fieldId (depth + 1) st in
           (assign fields key childDef,
            assign fieldDescriptions key
              {| kind := def_kind childDef;
                 valueType := def_valueType childDef;
                 example := def_example childDef;
                 note := def_note childDef |},
            push_link st
              {| from := id; to := def_id childDef; relation := "field";
                 field := key |}))
        (fields, descriptions, st) in
    grows_pending id st st'.
Proof.
  intros Hgrow. induction ks as [ | key rest IH ];
    intros index fields descriptions st; cbn [forEach].
  - apply grows_to_pending, grows_refl.
  - destruct (Hgrow (get props key) (id ++ "." ++ key) st) as [Hchild Hid].
    destruct (inspectValue (get props key) (id ++ "." ++ key) (depth + 1) st)
      as [childDef st1].
    cbn [fst snd] in Hchild, Hid. rewrite Hid.
    apply grows_child, grows_to_pending in Hchild.
    match goal with
    | |- context [forEach rest ?i ?body (?f, ?d, ?s)] =>
        specialize (IH i f d s);
        destruct (forEach rest i body (f, d, s)) as [[fields' d'] st']
    end.
    eapply pending_trans; [ exact Hchild | ].
    eapply pending_trans; [ apply pending_link | exact IH ].
Qed.

(** What [inspectValue] does to the store. *)
Lemma inspectValue_grows (this : VirtualObjectExcavator) :
  forall fuel value id depth st,
    grows id st (snd (inspectValue this fuel value id depth st)).
Proof.
  induction fuel as [ | fuel IH ]; intros value id depth st;
    cbn [inspectValue]; [ apply grows_refl | ].
  repeat match goal with
  | |- context [if ?c then _ else _] =>
      destruct c; cbn [snd];
      try apply grows_refl; try (now apply grows_push_found)
  end.
  - unfold _inspectArray.
    pose proof (array_loop_grows (inspectValue this fuel) id depth
                  (firstn (Nat.min (maxArraySample this)
                             (List.length (items_of value)))
                     (items_of value))
                  (fun item eid st' => IH item eid (depth + 1) st')
                  0 [] [] st) as Hloop.
    destruct (forEach _ _ _ _) as [[defs kinds] st']. cbn [snd].
    eapply grows_trans; [ exact Hloop | now apply grows_push_found ].
  - unfold _inspectObject.
    pose proof (object_loop_grows (inspectValue this fuel) id depth
                  (props_of value) (map fst (props_of value))
                  (fun v fid st' =>
                     conj (IH v fid (depth + 1) st')
                          (inspectValue_id this fuel v fid (depth + 1) st'))
                  0 [] [] (visit st (ref_of value))) as Hloop.
    destruct (forEach _ _ _ _) as [[fields descriptions] st']. cbn [snd].
    apply pending_visit in Hloop.
    now apply (pending_close id st st').
Qed.

(** Which definitions come with a virtual object: the last one recorded,
    under the identifier of the definition; the other kinds leave the
    store as it was. *)
Lemma inspectValue_records (this : VirtualObjectExcavator) (fuel : nat)
  (value : Node) (id : string) (depth : nat) (st : Store) :
  let (d, st') := inspectValue this fuel value id depth st in
  match recorded_category (def_kind d) with
  | Some category =>
      exists front vo,
        found st' = (front ++ [ vo ])%list
        /\ vo_id vo = id /\ vo_category vo = category
  | None => st' = st
  end.
Proof.
  destruct fuel as [ | fuel ]; cbn [inspectValue]; [ reflexivity | ].
  repeat match goal with
  | |- context [if ?c then _ else _] => destruct c; try reflexivity
  end.
  - do 2 eexists. cbn [push_found found]. now repeat split.
  - unfold _inspectArray. destruct (forEach _ _ _ _) as [[defs kinds] st'].
    do 2 eexists. cbn [push_found found]. now repeat split.
  - do 2 eexists. cbn [push_found found]. now repeat split.
  - unfold _inspectObject. destruct (forEach _ _ _ _) as [[fields d] st'].
    do 2 eexists. cbn [push_found found]. now repeat split.
Qed.

(** Every relationship [excavate] returns is a field link: its target is
    its source, a dot and the field, and its source is a struct among the
    virtual objects returned.  The identifiers recorded for the value all
    extend [root].  Without a document, the virtual object of the root is
    the last one recorded, after those of everything below it, and a root
    that is nullish or of an unhandled type records nothing. *)
Theorem excavate_links_anchored :
  forall (this : VirtualObjectExcavator) (value : Node)
         (domRoot : option (list Element)),
    let e := excavate this value domRoot in
    (forall r,
       In r (relationships e) ->
       anchored (virtualObjects e) r
       /\ exists suffix, from r = "root" ++ suffix)
    /\ (forall vo,
          In vo (virtualObjects (excavate this value None)) ->
          exists suffix, vo_id vo = "root" ++ suffix)
    /\ match recorded_category (def_kind (root e)) with
       | Some category =>
           exists front vo,
             virtualObjects (excavate this value None) = (front ++ [ vo ])%list
             /\ vo_id vo = "root" /\ vo_category vo = category
       | None =>
           virtualObjects (excavate this value None) = []
           /\ relationships e = []
       end.
Proof.
  intros this value domRoot e. unfold e, excavate.
  pose proof (inspectValue_grows this (maxDepth this + 2) value "root" 0
                {| visited := []; found := []; links := [] |}) as Hgrow.
  pose proof (inspectValue_records this (maxDepth this + 2) value "root" 0
                {| visited := []; found := []; links := [] |}) as Hrec.
  destruct (inspectValue this (maxDepth this + 2) value "root" 0 _)
    as [d st].
  cbn [snd] in Hgrow.
  destruct Hgrow as (f & l & Hf & Hl & _ & Ha & Hi).
  cbn [found links app] in Hf, Hl.
  assert (Hanchor : forall more r,
             In r (links st) ->
             anchored (found st ++ more)%list r
             /\ exists suffix, from r = "root" ++ suffix).
  { intros more r Hr. rewrite Hl in Hr. rewrite Hf.
    destruct (Ha r Hr) as [Hanchored Hsuffix].
    split; [ now apply anchored_more | exact Hsuffix ]. }
  assert (Hids : forall vo,
             In vo (found st) -> exists suffix, vo_id vo = "root" ++ suffix).
  { intros vo Hvo. rewrite Hf in Hvo. now apply Hi. }
  assert (Hroot : match recorded_category (def_kind d) with
                  | Some category =>
                      exists front vo,
                        found st = (front ++ [ vo ])%list
                        /\ vo_id vo = "root" /\ vo_category vo = category
                  | None => found st = [] /\ links st = []
                  end).
  { destruct (recorded_category (def_kind d)); [ exact Hrec | ].
    subst st. now split. }
  destruct domRoot as [all | ]; [ destruct (includeDom this) | ];
    cbn [root virtualObjects relationships inspectDom dom_relationships].
  - unfold inspectDom.
    destruct (forEach all _ _ _) as [byTag byClass].
    destruct (forEach byTag _ _ _) as [tags vos].
    destruct (forEach byClass _ _ _) as [classes vos'].
    cbn [dom_relationships dom_virtualObjects]. rewrite app_nil_r.
    split; [ intros r Hr; now apply Hanchor | split; [ exact Hids | ] ].
    destruct (recorded_category (def_kind d)); [ exact Hroot | ].
    now destruct Hroot.
  - split; [ intros r Hr | split; [ exact Hids | ] ].
    + rewrite <- (app_nil_r (found st)). now apply Hanchor.
    + destruct (recorded_category (def_kind d)); [ exact Hroot | ].
      now destruct Hroot.
  - split; [ intros r Hr | split; [ exact Hids | ] ].
    + rewrite <- (app_nil_r (found st)). now apply Hanchor.
    + destruct (recorded_category (def_kind d)); [ exact Hroot | ].
      now destruct Hroot.
Qed.

Lemma forEach_ext {A S : Type} (l : list A)
  (body1 body2 : A -> nat -> S -> S) :
  (forall item i s, body1 item i s = body2 item i s) ->
  forall index s, forEach l index body1 s = forEach l index body2 s.
Proof.
  intros Hext. induction l as [ | item rest IH ]; intros index s;
    cbn [forEach]; [ reflexivity | ].
  now rewrite Hext, IH.
Qed.

(** The fuel of [inspectValue] is never used up: any two amounts that
    reach one level past [maxDepth] give the same result. *)
Lemma inspectValue_fuel (this : VirtualObjectExcavator) :
  forall fuel fuel' value id depth st,
    maxDepth this + 2 <= fuel + depth ->
    maxDepth this + 2 <= fuel' + depth ->
    inspectValue this fuel value id depth st
    = inspectValue this fuel' value id depth st.
Proof.
  induction fuel as [ | fuel IH ]; intros fuel' value id depth st H H'.
  - destruct fuel' as [ | fuel' ]; [ reflexivity | ].
    cbn [inspectValue].
    replace (Nat.ltb (maxDepth this) depth) with true
      by (symmetry; apply Nat.ltb_lt; lia).
    reflexivity.
  - destruct fuel' as [ | fuel' ]; cbn [inspectValue].
    + replace (Nat.ltb (maxDepth this) depth) with true
        by (symmetry; apply Nat.ltb_lt; lia).
      reflexivity.
    + destruct (Nat.ltb (maxDepth this) depth) eqn:Hlt; [ reflexivity | ].
      apply Nat.ltb_ge in Hlt.
      assert (Hsame : forall item childId st',
                 inspectValue this fuel item childId (depth + 1) st'
                 = inspectValue this fuel' item childId (depth + 1) st')
        by (intros; apply IH; lia).
      repeat match goal with
      | |- (if ?c then _ else _) = _ => destruct c; try reflexivity
      end.
      * unfold _inspectArray.
        erewrite forEach_ext; [ reflexivity | ].
        intros item i [[defs kinds] s]. now rewrite Hsame.
      * unfold _inspectObject.
        erewrite forEach_ext; [ reflexivity | ].
        intros key i [[fields descriptions] s]. now rewrite Hsame.
Qed.

Lemma inspectObject_marks (this : VirtualObjectExcavator) (fuel : nat)
  (value : Node) (id : string) (depth : nat) (st : Store) :
  let (d, st') :=
    _inspectObject (inspectValue this fuel) this value id depth
      (visit st (ref_of value)) in
  def_kind d = "object" /\ def_id d = id /\ In (ref_of value) (visited st').
Proof.
  unfold _inspectObject.
  pose proof (object_loop_grows (inspectValue this fuel) id depth
                (props_of value) (map fst (props_of value))
                (fun v fid st' =>
                   conj (inspectValue_grows this fuel v fid (depth + 1) st')
                        (inspectValue_id this fuel v fid (depth + 1) st'))
                0 [] [] (visit st (ref_of value))) as Hloop.
  destruct (forEach _ _ _ _) as [[fields descriptions] st'].
  destruct Hloop as (_ & _ & _ & _ & Hv & _).
  cbn [def_kind def_id push_found visited].
  split; [ reflexivity | split; [ reflexivity | ] ].
  apply Hv. now left.
Qed.

Lemma inspectValue_array (this : VirtualObjectExcavator) (fuel : nat)
  (items : list Node) (id : string) (depth : nat) (st : Store) :
  depth <= maxDepth this ->
  inspectValue this (Datatypes.S fuel) (NArr items) id depth st
  = _inspectArray (inspectValue this fuel) this items id depth st.
Proof.
  intros Hdepth. cbn [inspectValue].
  replace (Nat.ltb (maxDepth this) depth) with false
    by (symmetry; apply Nat.ltb_ge; exact Hdepth).
  reflexivity.
Qed.

Lemma inspectValue_object (this : VirtualObjectExcavator) (fuel : nat)
  (ref : nat) (ctor : string) (props : list (string * Node)) (id : string)
  (depth : nat) (st : Store) :
  depth <= maxDepth this ->
  inspectValue this (Datatypes.S fuel) (NObj ref ctor props) id depth st
  = if existsb (Nat.eqb ref) (visited st) then (CircularDef id, st)
    else _inspectObject (inspectValue this fuel) this (NObj ref ctor props)
           id depth (visit st ref).
Proof.
  intros Hdepth. cbn [inspectValue].
  replace (Nat.ltb (maxDepth this) depth) with false
    by (symmetry; apply Nat.ltb_ge; exact Hdepth).
  reflexivity.
Qed.

(** The excavator tells objects apart by identity and never forgets one:
    when the same object occurs twice in an array, the first occurrence is
    described as an object and the second is reported [circular], although
    nothing refers back to itself. *)
Theorem excavate_shared_object_circular :
  forall (this : VirtualObjectExcavator) (ref : nat) (ctor : string)
         (props : list (string * Node)) (domRoot : option (list Element)),
    1 <= maxDepth this ->
    2 <= maxArraySample this ->
    exists first,
      root (excavate this
              (NArr [ NObj ref ctor props; NObj ref ctor props ]) domRoot)
      = ArrayDef "root" 2 2 [ "object"; "circular" ]
          [ first; CircularDef ("root[" ++ index_key 1 ++ "]") ]
      /\ def_kind first = "object"
      /\ def_id first = "root[" ++ index_key 0 ++ "]".
Proof.
  intros this ref ctor props domRoot Hdepth Hsample.
  assert (Hroot : forall value,
             root (excavate this value domRoot)
             = fst (inspectValue this (maxDepth this + 2) value "root" 0
                      {| visited := []; found := []; links := [] |})).
  { intros value. unfold excavate.
    destruct (inspectValue this (maxDepth this + 2) value "root" 0 _)
      as [d st].
    destruct domRoot as [all | ]; [ destruct (includeDom this) | ];
      reflexivity. }
  rewrite Hroot.
  replace (maxDepth this + 2)
    with (Datatypes.S (Datatypes.S (maxDepth this))) by lia.
  rewrite inspectValue_array by lia.
  unfold _inspectArray.
  cbn [List.length]. rewrite Nat.min_r by exact Hsample.
  cbn [firstn forEach Nat.add].
  rewrite inspectValue_object by exact Hdepth.
  cbn [existsb visited].
  pose proof (inspectObject_marks this (maxDepth this)
                (NObj ref ctor props) ("root" ++ "[" ++ index_key 0 ++ "]") 1
                {| visited := []; found := []; links := [] |}) as Hmarks.
  cbn [ref_of] in Hmarks.
  destruct (_inspectObject (inspectValue this (maxDepth this)) this
              (NObj ref ctor props) ("root" ++ "[" ++ index_key 0 ++ "]") 1 _)
    as [first st1].
  destruct Hmarks as (Hkind & Hid & Hvisited).
  assert (Hseen : existsb (Nat.eqb ref) (visited st1) = true).
  { apply existsb_exists. exists ref. split; [ exact Hvisited | ].
    apply Nat.eqb_refl. }
  rewrite inspectValue_object by exact Hdepth.
  rewrite Hseen. cbn [fst app def_kind]. rewrite Hkind.
  exists first. split; [ reflexivity | now split ].
Qed.

(** The hypotheses of [excavate_shared_object_circular] hold of an
    excavator built with no option. *)
Lemma excavate_shared_object_circular_witness :
  exists first,
    root (excavate
            (new_VirtualObjectExcavator
               {| opt_maxDepth := None; opt_maxArraySample := None;
                  opt_includeDom := JUndefined;
                  opt_includeFunctions := JUndefined |})
            (NArr [ NObj 1 EmptyString []; NObj 1 EmptyString [] ]) None)
    = ArrayDef "root" 2 2 [ "object"; "circular" ]
        [ first; CircularDef "root[1]" ]
    /\ def_kind first = "object".
Proof.
  destruct (excavate_shared_object_circular
              (new_VirtualObjectExcavator
                 {| opt_maxDepth := None; opt_maxArraySample := None;
                    opt_includeDom := JUndefined;
                    opt_includeFunctions := JUndefined |})
              1 EmptyString [] None)
    as (first & Hroot & Hkind & _).
  - cbn. lia.
  - cbn. lia.
  - exists first. split; [ exact Hroot | exact Hkind ].
Defined.








(** *** The document sheet *)

Lemma Map_push_spec (m : list (string * list Element)) (key : string)
  (el : Element) :
  NoDup (map fst m) ->
  Forall (fun entry => snd entry <> []) m ->
  NoDup (map fst (Map_push m key el))
  /\ Forall (fun entry => snd entry <> []) (Map_push m key el)
  /\ grouped (Map_push m key el) = Datatypes.S (grouped m)
  /\ forall k, In k (map fst (Map_push m key el)) <-> In k (map fst m) \/ k = key.
Proof.
  unfold grouped.
  induction m as [ | [k els] rest IH ]; intros Hnd Hne; cbn [Map_push].
  - cbn. repeat split; try (repeat constructor; cbn; tauto).
    + constructor; [ discriminate | constructor ].
    + intros [H | []]. now right.
    + intros [[] | ->]. now left.
  - inversion Hnd as [ | ? ? Hfresh Hnd' ]; subst.
    inversion Hne as [ | ? ? Hk Hne' ]; subst.
    destruct (String.eqb k key) eqn:Hkey.
    + apply String.eqb_eq in Hkey. subst k.
      cbn [map fst snd ExcavatorSpec.sum fold_right].
      split; [ exact Hnd | split; [ | split ] ].
      * constructor; [ | exact Hne' ]. cbn. now destruct els.
      * rewrite length_app. cbn. lia.
      * intros x. cbn. intuition congruence.
    + apply String.eqb_neq in Hkey.
      destruct (IH Hnd' Hne') as (H1 & H2 & H3 & H4).
      cbn [map fst snd ExcavatorSpec.sum fold_right].
      split; [ | split; [ | split ] ].
      * constructor; [ | exact H1 ]. rewrite H4. intros [H | H];
          [ contradiction | congruence ].
      * now constructor.
      * unfold ExcavatorSpec.sum in H3. rewrite H3. lia.
      * intros x. cbn. rewrite H4. intuition congruence.
Qed.

Lemma class_loop (el : Element) (classes : list string) :
  forall index (byClass : list (string * list Element)),
    NoDup (map fst byClass) ->
    Forall (fun entry => snd entry <> []) byClass ->
    let byClass' :=
      forEach classes index
        (fun cls (_ : nat) byClass => Map_push byClass ("." ++ cls) el)
        byClass in
    NoDup (map fst byClass')
    /\ Forall (fun entry => snd entry <> []) byClass'
    /\ grouped byClass' = grouped byClass + List.length classes.
Proof.
  induction classes as [ | cls rest IH ]; intros index byClass Hnd Hne;
    cbn [forEach List.length].
  - repeat split; auto.
  - destruct (Map_push_spec byClass ("." ++ cls) el Hnd Hne)
      as (H1 & H2 & H3 & _).
    destruct (IH (Datatypes.S index) _ H1 H2) as (H4 & H5 & H6).
    split; [ exact H4 | split; [ exact H5 | ] ].
    cbv zeta in H6. rewrite H6, H3. lia.
Qed.

Lemma element_loop (all : list Element) :
  forall index (byTag byClass : list (string * list Element)),
    NoDup (map fst byTag) ->
    Forall (fun entry => snd entry <> []) byTag ->
    NoDup (map fst byClass) ->
    Forall (fun entry => snd entry <> []) byClass ->
    let '(byTag', byClass') :=
      forEach all index
        (fun el (_ : nat) '(byTag, byClass) =>
           let tag := toLowerCase (tagName el) in
           let byTag := Map_push byTag tag el in
           let byClass :=
             forEach (classList el) 0
               (fun cls (_ : nat) byClass => Map_push byClass ("." ++ cls) el)
               byClass in
           (byTag, byClass))
        (byTag, byClass) in
    NoDup (map fst byTag')
    /\ Forall (fun entry => snd entry <> []) byTag'
    /\ NoDup (map fst byClass')
    /\ grouped byTag' = grouped byTag + List.length all
    /\ grouped byClass'
       = grouped byClass
         + ExcavatorSpec.sum (map (fun el => List.length (classList el)) all)
    /\ forall tag,
         In tag (map fst byTag')
         <-> In tag (map fst byTag)
             \/ exists el, In el all /\ toLowerCase (tagName el) = tag.
Proof.
  induction all as [ | el rest IH ];
    intros index byTag byClass Ht Htn Hc Hcn; cbn [forEach].
  - cbn. rewrite !Nat.add_0_r. repeat split; auto.
    intros [H | (el & [] & _)]. exact H.
  - destruct (Map_push_spec byTag (toLowerCase (tagName el)) el Ht Htn)
      as (H1 & H2 & H3 & H4).
    destruct (class_loop el (classList el) 0 byClass Hc Hcn)
      as (H5 & H6 & H7).
    specialize (IH (Datatypes.S index) _ _ H1 H2 H5 H6).
    destruct (forEach rest _ _ _) as [byTag' byClass'].
    destruct IH as (I1 & I2 & I3 & I4 & I5 & I6).
    split; [ exact I1 | split; [ exact I2 | split; [ exact I3 | ] ] ].
    cbv zeta in H7.
    split; [ rewrite I4, H3; cbn [List.length]; lia | split ].
    + rewrite I5, H7. unfold ExcavatorSpec.sum. cbn [map fold_right]. lia.
    + intros tag. rewrite I6, H4. split.
      * intros [[H | ->] | (el' & Hin & Hel)]; auto.
        -- right. exists el. split; [ now left | reflexivity ].
        -- right. exists el'. split; [ now right | exact Hel ].
      * intros [H | (el' & [<- | Hin] & Hel)]; auto.
        right. now exists el'.
Qed.

(** A loop that pushes one summary and one virtual object per key. *)
Lemma summary_loop (category prefix : string)
  (groups : list (string * list Element)) :
  forall index (summaries : list SelectorSummary)
         (vos : list VirtualObject),
    forEach groups index
      (fun '(key, elements) (_ : nat) '(summaries, virtualObjects) =>
         let selector := key in
         let id := prefix ++ selector in
         let attrs := sample_attributes elements in
         ((summaries
           ++ [ {| selector := selector; count := List.length elements;
                   attributesExample := attrs |} ])%list,
          (virtualObjects
           ++ [ DomVO id category selector (List.length elements) attrs ])%list))
      (summaries, vos)
    = ((summaries
        ++ map (fun entry =>
                  {| selector := fst entry;
                     count := List.length (snd entry);
                     attributesExample := sample_attributes (snd entry) |})
             groups)%list,
       (vos
        ++ map (fun entry =>
                  DomVO (prefix ++ fst entry) category (fst entry)
                    (List.length (snd entry))
                    (sample_attributes (snd entry)))
             groups)%list).
Proof.
  induction groups as [ | [key elements] rest IH ];
    intros index summaries vos; cbn [forEach map].
  - now rewrite !app_nil_r.
  - rewrite IH, <- !app_assoc. reflexivity.
Qed.

Lemma inspectDom_sheet (all : list Element) :
  exists sheet vos,
    inspectDom all
    = {| dom_domSheets := [ sheet ]; dom_virtualObjects := vos;
         dom_relationships := [] |}
    /\ totalNodes sheet = List.length all
    /\ ExcavatorSpec.sum (map count (tagSummaries sheet)) = List.length all
    /\ NoDup (map selector (tagSummaries sheet))
    /\ (forall tag,
          In tag (map selector (tagSummaries sheet))
          <-> exists el, In el all /\ toLowerCase (tagName el) = tag)
    /\ Forall (fun s => 0 < count s) (tagSummaries sheet)
    /\ ExcavatorSpec.sum (map count (classSummaries sheet))
       = ExcavatorSpec.sum (map (fun el => List.length (classList el)) all)
    /\ NoDup (map selector (classSummaries sheet))
    /\ List.length vos
       = List.length (tagSummaries sheet)
         + List.length (classSummaries sheet).
Proof.
  unfold inspectDom.
  pose proof (element_loop all 0 [] [] (NoDup_nil _) (Forall_nil _)
                (NoDup_nil _) (Forall_nil _)) as Hloop.
  destruct (forEach all _ _ _) as [byTag byClass].
  destruct Hloop as (Ht & Htn & Hc & Hgt & Hgc & Htags).
  pose proof (summary_loop "dom-tag" "dom:tag:" byTag 0 [] []) as Htag.
  match type of Htag with
  | ?loop = _ =>
      match goal with
      | |- context [forEach byTag 0 ?body ([], [])] =>
          change (forEach byTag 0 body ([], [])) with loop
      end
  end.
  rewrite Htag. clear Htag. cbn [app].
  match goal with
  | |- context [forEach byClass 0 ?body ([], ?vos)] =>
      pose proof (summary_loop "dom-class" "dom:class:" byClass 0 [] vos)
        as Hclass;
      match type of Hclass with
      | ?loop = _ => change (forEach byClass 0 body ([], vos)) with loop
      end
  end.
  rewrite Hclass. clear Hclass.
  cbn [app]. do 2 eexists. split; [ reflexivity | ].
  cbn [totalNodes tagSummaries classSummaries].
  rewrite !map_map. cbn [selector count].
  unfold grouped in Hgt, Hgc. cbn in Hgt, Hgc.
  split; [ reflexivity | split; [ exact Hgt | split; [ exact Ht | ] ] ].
  split; [ | split; [ | split; [ exact Hgc | split; [ exact Hc | ] ] ] ].
  - intros tag. rewrite Htags. cbn. tauto.
  - apply Forall_map. eapply Forall_impl; [ | exact Htn ].
    intros [key els] Hne. cbn [snd count] in *.
    destruct els; [ contradiction | cbn; lia ].
  - now rewrite length_app, !length_map.
Qed.

(** With a document, [excavate] adds one sheet: every element is counted
    under exactly one tag, its tag name in lowercase, so the counts of the
    tag summaries, each positive, add up to the number of elements; the
    counts of the class summaries add up to the number of class tokens;
    no selector is listed twice; one virtual object is added per summary
    and no relationship.  Without a document, or when [includeDom] is
    off, there is no sheet and the result is that of the value alone. *)
Theorem excavate_document_sheet :
  forall (this : VirtualObjectExcavator) (value : Node),
    (includeDom this = true ->
     forall all,
       let e := excavate this value (Some all) in
       exists sheet added,
         domSheets e = [ sheet ]
         /\ hasDomSheets (summary e) = true
         /\ totalNodes sheet = List.length all
         /\ ExcavatorSpec.sum (map count (tagSummaries sheet))
            = List.length all
         /\ NoDup (map selector (tagSummaries sheet))
         /\ (forall tag,
               In tag (map selector (tagSummaries sheet))
               <-> exists el, In el all /\ toLowerCase (tagName el) = tag)
         /\ Forall (fun s => 0 < count s) (tagSummaries sheet)
         /\ ExcavatorSpec.sum (map count (classSummaries sheet))
            = ExcavatorSpec.sum
                (map (fun el => List.length (classList el)) all)
         /\ NoDup (map selector (classSummaries sheet))
         /\ relationships e = relationships (excavate this value None)
         /\ virtualObjects e
            = (virtualObjects (excavate this value None) ++ added)%list
         /\ List.length added
            = List.length (tagSummaries sheet)
              + List.length (classSummaries sheet))
    /\ (includeDom this = false ->
        forall all, excavate this value (Some all) = excavate this value None)
    /\ domSheets (excavate this value None) = []
    /\ hasDomSheets (summary (excavate this value None)) = false.
Proof.
  intros this value. unfold excavate.
  destruct (inspectValue this (maxDepth this + 2) value "root" 0 _)
    as [d st].
  split; [ | split; [ | now split ] ].
  - intros Hdom all. rewrite Hdom.
    destruct (inspectDom_sheet all)
      as (sheet & vos & -> & H1 & H2 & H3 & H4 & H5 & H6 & H7 & H8).
    cbn [dom_domSheets dom_virtualObjects dom_relationships app domSheets
         summary buildSummary hasDomSheets relationships virtualObjects].
    exists sheet, vos. rewrite app_nil_r.
    repeat (split; [ first [ reflexivity | assumption ] | ]).
    exact H8.
  - intros Hdom all. now rewrite Hdom.
Qed.
End ExcavatorFacts.
